(** * CodeCraft: the code-extraction pipeline of [custom_model.py]

    A shallow embedding of the text-processing core of [custom_model.py]
    (block locator, artifact scrubber, declaration reorderer, import
    consolidator, conflict resolver) together with the properties stated
    about it.

    Conventions of the embedding.
    - A Python [str] is a list of characters; a character is a code point
      below 256 (Rocq's [ascii]).  Character classes ([str.isspace], the
      regular-expression classes [\s], [\w], [\d]) follow Python's Unicode
      tables restricted to that range.
    - [re] patterns are values of type [Re.regex]; they are run by a
      backtracking matcher with the priorities of Python's engine (ordered
      alternation, greedy and lazy repetition, leftmost match).
    - A function that can raise returns a [result]; loops over an index
      ([while i < len(lines)]) take a fuel argument that is initialised with
      the number of lines, which bounds the number of iterations. *)

From Stdlib Require Import Ascii String.
From Stdlib Require Import List Arith Bool Lia.
From Stdlib Require Import Permutation.
Import ListNotations.

Set Implicit Arguments.

(** ** Python strings *)

Abbreviation str := (list ascii) (only parsing).

Definition lit (s : string) : str := list_ascii_of_string s.

Definition nl : ascii := ascii_of_nat 10.
Definition tab : ascii := ascii_of_nat 9.
Definition dquote : ascii := ascii_of_nat 34.
Definition squote : ascii := ascii_of_nat 39.
Definition backslash : ascii := ascii_of_nat 92.

Module Py.

Definition code (c : ascii) : nat := nat_of_ascii c.

Definition between (lo hi : nat) (c : ascii) : bool :=
  (lo <=? code c) && (code c <=? hi).

(** [str.isspace] on one character: TAB..CR, FS..US, space, NEL, NBSP. *)
Definition isspace (c : ascii) : bool :=
  between 9 13 c || between 28 32 c || (code c =? 133) || (code c =? 160).

(** [str.isalnum] on one character, the class behind [\w]. *)
Definition isalnum (c : ascii) : bool :=
  between 48 57 c || between 65 90 c || between 97 122 c
  || (code c =? 170) || (code c =? 178) || (code c =? 179)
  || (code c =? 181) || (code c =? 185) || (code c =? 186)
  || between 188 190 c || between 192 214 c || between 216 246 c
  || between 248 255 c.

Definition isdecimal (c : ascii) : bool := between 48 57 c.

Definition isasciiletter (c : ascii) : bool :=
  between 65 90 c || between 97 122 c.

Fixpoint eqb (a b : str) : bool :=
  match a, b with
  | [], [] => true
  | x :: a', y :: b' => Ascii.eqb x y && eqb a' b'
  | _, _ => false
  end.

(** [s.startswith(p)] *)
Fixpoint startswith (p s : str) : bool :=
  match p, s with
  | [], _ => true
  | x :: p', y :: s' => Ascii.eqb x y && startswith p' s'
  | _ :: _, [] => false
  end.

(** [s.endswith(p)] *)
Definition endswith (p s : str) : bool := startswith (rev p) (rev s).

(** [p in s] *)
Fixpoint contains (p s : str) : bool :=
  startswith p s || match s with [] => false | _ :: s' => contains p s' end.

(** [s.find(p)], [None] standing for [-1]. *)
Fixpoint find (p s : str) : option nat :=
  if startswith p s then Some 0
  else match s with
       | [] => None
       | _ :: s' => option_map S (find p s')
       end.

Fixpoint dropwhile (f : ascii -> bool) (s : str) : str :=
  match s with
  | [] => []
  | c :: s' => if f c then dropwhile f s' else s
  end.

Definition lstrip (s : str) : str := dropwhile isspace s.
Definition rstrip (s : str) : str := rev (dropwhile isspace (rev s)).
Definition strip (s : str) : str := rstrip (lstrip s).

(** [len(line) - len(line.lstrip())] *)
Definition indent (s : str) : nat := length s - length (lstrip s).

(** [s.split(sep)] for a non-empty separator: [skip] counts the
    characters of a separator occurrence that are still to be passed. *)
Fixpoint split_aux (sep s : str) (skip : nat) : list str :=
  match s with
  | [] => [[]]
  | c :: s' =>
      match skip with
      | S k => split_aux sep s' k
      | 0 =>
          if startswith sep s then [] :: split_aux sep s' (length sep - 1)
          else match split_aux sep s' 0 with
               | h :: t => (c :: h) :: t
               | [] => [[c]]
               end
      end
  end.

Definition split (sep s : str) : list str := split_aux sep s 0.

(** [sep.join(parts)] *)
Fixpoint join (sep : str) (parts : list str) : str :=
  match parts with
  | [] => []
  | [p] => p
  | p :: rest => p ++ sep ++ join sep rest
  end.

(** [s.replace(old, new)] for a non-empty [old]. *)
Definition replace (old new s : str) : str := join new (split old s).

(** Order of [str] values ([<=] on code points, then on length). *)
Fixpoint leb (a b : str) : bool :=
  match a, b with
  | [], _ => true
  | _ :: _, [] => false
  | x :: a', y :: b' =>
      if code x <? code y then true
      else if code y <? code x then false
      else leb a' b'
  end.

(** [s.split('\n')] and ['\n'.join(lines)] *)
Definition lines (s : str) : list str := split [nl] s.
Definition unlines (ls : list str) : str := join [nl] ls.

(** [not s.strip()] *)
Definition blank (s : str) : bool :=
  match strip s with [] => true | _ => false end.

End Py.

(** ** Regular expressions

    The fragment of [re] syntax used by the program.  [Sym f] is one
    character of a class, [Rep true r] is [r*], [Rep false r] is [r*?],
    [Grp n r] is the n-th capturing group, [Bos] is [^] and [Eos] is [$]
    (both without [re.MULTILINE]). *)

Module Re.

Inductive regex : Type :=
| Eps : regex
| Sym : (ascii -> bool) -> regex
| Cat : regex -> regex -> regex
| Alt : regex -> regex -> regex
| Rep : bool -> regex -> regex
| Grp : nat -> regex -> regex
| Bos : regex
| Eos : regex.

(** Captured groups: group number, start and end offsets. *)
Definition caps := list (nat * (nat * nat)).

(** A match: start offset, end offset, groups. *)
Definition mtch := (nat * nat * caps)%type.

Definition kont := nat -> str -> caps -> option (nat * caps).

(** The loop of a repetition: [body] matches one iteration, [n] bounds
    the number of iterations (every iteration must consume a character,
    so the length of the rest is a bound).  A greedy repetition tries one
    more iteration before the continuation, a lazy one tries the
    continuation first. *)
Fixpoint rep_loop (body : nat -> str -> caps -> kont -> option (nat * caps))
  (greedy : bool) (k : kont) (n : nat) (p : nat) (s : str) (c : caps)
  : option (nat * caps) :=
  match n with
  | 0 => k p s c
  | S n' =>
      if greedy then
        match body p s c
                (fun p' s' c' =>
                   if p <? p' then rep_loop body greedy k n' p' s' c'
                   else None) with
        | Some x => Some x
        | None => k p s c
        end
      else
        match k p s c with
        | Some x => Some x
        | None =>
            body p s c
              (fun p' s' c' =>
                 if p <? p' then rep_loop body greedy k n' p' s' c'
                 else None)
        end
  end.

(** [run r p s c k]: match [r] at offset [p], where [s] is the rest of
    the subject from [p] on; on success call [k] with the new offset and
    rest; a failure of [k] backtracks into [r]. *)
Fixpoint run (r : regex) (p : nat) (s : str) (c : caps) (k : kont)
  : option (nat * caps) :=
  match r with
  | Eps => k p s c
  | Sym f =>
      match s with
      | a :: s' => if f a then k (S p) s' c else None
      | [] => None
      end
  | Cat r1 r2 => run r1 p s c (fun p' s' c' => run r2 p' s' c' k)
  | Alt r1 r2 =>
      match run r1 p s c k with
      | Some x => Some x
      | None => run r2 p s c k
      end
  | Rep greedy r1 => rep_loop (run r1) greedy k (length s) p s c
  | Grp i r1 => run r1 p s c (fun p' s' c' => k p' s' ((i, (p, p')) :: c'))
  | Bos => if p =? 0 then k p s c else None
  | Eos =>
      match s with
      | [] => k p s c
      | [a] => if Ascii.eqb a nl then k p s c else None
      | _ => None
      end
  end.

(** One attempt at offset [p]; with [must_advance] an empty match is
    refused (the engine backtracks to a longer one). *)
Definition match_at (r : regex) (must_advance : bool) (p : nat) (s : str)
  : option mtch :=
  match run r p s []
          (fun p' _ c' =>
             if must_advance && (p' =? p) then None else Some (p', c')) with
  | Some (e, c) => Some (p, e, c)
  | None => None
  end.

(** Leftmost match starting at offset [p] or later. *)
Fixpoint search_from (r : regex) (must_advance : bool) (p : nat) (s : str)
  : option mtch :=
  match match_at r must_advance p s with
  | Some m => Some m
  | None =>
      match s with
      | [] => None
      | _ :: s' => search_from r false (S p) s'
      end
  end.

(** [re.match(r, s)] and [re.search(r, s)] *)
Definition rmatch (r : regex) (s : str) : option mtch := match_at r false 0 s.
Definition search (r : regex) (s : str) : option mtch := search_from r false 0 s.

Definition matches (r : regex) (s : str) : bool :=
  match rmatch r s with Some _ => true | None => false end.

Definition found (r : regex) (s : str) : bool :=
  match search r s with Some _ => true | None => false end.

(** [s[b:e]] *)
Definition slice (s : str) (b e : nat) : str := firstn (e - b) (skipn b s).

Fixpoint lookup (i : nat) (c : caps) : option (nat * nat) :=
  match c with
  | [] => None
  | (j, be) :: c' => if i =? j then Some be else lookup i c'
  end.

(** [m.group(i)] on subject [s]; a group that did not take part is empty. *)
Definition group (s : str) (m : mtch) (i : nat) : str :=
  match i with
  | 0 => slice s (fst (fst m)) (snd (fst m))
  | _ => match lookup i (snd m) with
         | Some (b, e) => slice s b e
         | None => []
         end
  end.

Definition mstart (m : mtch) : nat := fst (fst m).
Definition mend (m : mtch) : nat := snd (fst m).

(** All non-overlapping matches, left to right ([re.finditer]).  After an
    empty match the next attempt at the same offset must advance. *)
Fixpoint finditer_from (fuel : nat) (r : regex) (must_advance : bool)
  (p : nat) (s : str) : list mtch :=
  match fuel with
  | 0 => []
  | S fuel' =>
      match search_from r must_advance p s with
      | None => []
      | Some m =>
          m :: finditer_from fuel' r (mend m =? mstart m)
                 (mend m) (skipn (mend m - p) s)
      end
  end.

Definition finditer (r : regex) (s : str) : list mtch :=
  finditer_from (2 * length s + 2) r false 0 s.

(** [re.findall] for a pattern without group (whole matches), with one
    group (that group) and with two groups (pairs). *)
Definition findall0 (r : regex) (s : str) : list str :=
  map (fun m => group s m 0) (finditer r s).
Definition findall1 (r : regex) (s : str) : list str :=
  map (fun m => group s m 1) (finditer r s).
Definition findall2 (r : regex) (s : str) : list (str * str) :=
  map (fun m => (group s m 1, group s m 2)) (finditer r s).

(** *** Pattern combinators *)

Definition chr (c : ascii) : regex := Sym (Ascii.eqb c).
Fixpoint text (s : str) : regex :=
  match s with
  | [] => Eps
  | [c] => chr c
  | c :: s' => Cat (chr c) (text s')
  end.
Definition txt (s : string) : regex := text (lit s).
Definition star (r : regex) : regex := Rep true r.
Definition lazy (r : regex) : regex := Rep false r.
Definition plus (r : regex) : regex := Cat r (Rep true r).
Definition opt (r : regex) : regex := Alt r Eps.
Fixpoint seq (rs : list regex) : regex :=
  match rs with
  | [] => Eps
  | [r] => r
  | r :: rs' => Cat r (seq rs')
  end.
Fixpoint alt (rs : list regex) : regex :=
  match rs with
  | [] => Eps
  | [r] => r
  | r :: rs' => Alt r (alt rs')
  end.

(** [\s], [\w], [\d], [.] (without and with [re.DOTALL]) *)
Definition ws : regex := Sym Py.isspace.
Definition wd : regex := Sym (fun c => Py.isalnum c || Ascii.eqb c "_"%char).
Definition dg : regex := Sym Py.isdecimal.
Definition dot : regex := Sym (fun c => negb (Ascii.eqb c nl)).
Definition any : regex := Sym (fun _ => true).
Definition notchr (c : ascii) : regex := Sym (fun a => negb (Ascii.eqb a c)).

End Re.

Import Re.

(** ** Exceptions *)

Inductive exn : Type :=
| ReError      (* re.error *)
| IndexError.  (* IndexError *)

Inductive result (A : Type) : Type :=
| Ok : A -> result A
| Raise : exn -> result A.

Arguments Ok {A} _.
Arguments Raise {A} _.

Definition bind {A B : Type} (m : result A) (f : A -> result B) : result B :=
  match m with
  | Ok a => f a
  | Raise e => Raise e
  end.

Notation "x <- m ;; k" := (bind m (fun x => k))
  (at level 61, m at next level, right associativity).

(** ** [re.sub] with a template

    The replacement string of [re.sub] is a template: when it contains a
    backslash it is parsed before any match is made, and an unknown escape
    raises [re.error]. *)

Module Template.

Inductive item : Type :=
| Lit : ascii -> item
| Ref : nat -> item.

Definition isoct (c : ascii) : bool := Py.between 48 55 c.
Definition digit (c : ascii) : nat := Py.code c - 48.

(** The escapes of a template: the letters of [\a \b \f \n \r \t \v] and
    the backslash itself. *)
Definition escape (c : ascii) : option ascii :=
  if Ascii.eqb c "a" then Some (ascii_of_nat 7)
  else if Ascii.eqb c "b" then Some (ascii_of_nat 8)
  else if Ascii.eqb c "f" then Some (ascii_of_nat 12)
  else if Ascii.eqb c "n" then Some (ascii_of_nat 10)
  else if Ascii.eqb c "r" then Some (ascii_of_nat 13)
  else if Ascii.eqb c "t" then Some (ascii_of_nat 9)
  else if Ascii.eqb c "v" then Some (ascii_of_nat 11)
  else if Ascii.eqb c backslash then Some backslash
  else None.

(** The name before [>] in [\g<name>], and the rest of the template. *)
Fixpoint group_name (s acc : str) : option (str * str) :=
  match s with
  | [] => None
  | c :: s' =>
      if Ascii.eqb c ">" then Some (rev acc, s') else group_name s' (c :: acc)
  end.

(** [name.isidentifier()] (on code points below 256: word characters,
    the first of them not a digit). *)
Definition isidentifier (name : str) : bool :=
  match name with
  | [] => false
  | c :: _ =>
      negb (Py.isdecimal c)
      && forallb (fun a => Py.isalnum a || Ascii.eqb a "_"%char) name
  end.

(** A group number: decimal digits, at least one. *)
Definition isnumber (name : str) : bool :=
  match name with
  | [] => false
  | _ :: _ => forallb Py.isdecimal name
  end.

Definition decimal (name : str) : nat :=
  fold_left (fun n c => 10 * n + digit c) name 0.

Definition ref (groups index : nat) : result item :=
  if groups <? index then Raise ReError else Ok (Ref index).

(** [parse groups s]: the template [s] for a pattern with [groups]
    capturing groups, as Python 3.12 parses it.  The patterns of this
    program have no named groups, so a [\g<name>] with an identifier
    raises [IndexError]. *)
Fixpoint parse (fuel : nat) (groups : nat) (s : str) : result (list item) :=
  match fuel with
  | 0 => Ok []
  | S fuel' =>
      match s with
      | [] => Ok []
      | c :: s1 =>
          if negb (Ascii.eqb c backslash) then
            rest <- parse fuel' groups s1 ;; Ok (Lit c :: rest)
          else
            match s1 with
            | [] => Raise ReError                      (* bad escape (end of pattern) *)
            | e :: s2 =>
                if Ascii.eqb e "g" then
                  match s2 with
                  | lt :: s3 =>
                      if Ascii.eqb lt "<" then
                        match group_name s3 [] with
                        | Some (name, s4) =>
                            if isidentifier name then
                              Raise IndexError         (* unknown group name *)
                            else if isnumber name then
                              it <- ref groups (decimal name) ;;
                              rest <- parse fuel' groups s4 ;; Ok (it :: rest)
                            else Raise ReError         (* bad group name *)
                        | None => Raise ReError        (* missing > *)
                        end
                      else Raise ReError               (* missing < *)
                  | [] => Raise ReError
                  end
                else if Ascii.eqb e "0" then
                  match s2 with
                  | d1 :: s3 =>
                      if isoct d1 then
                        match s3 with
                        | d2 :: s4 =>
                            if isoct d2 then
                              rest <- parse fuel' groups s4 ;;
                              Ok (Lit (ascii_of_nat ((8 * digit d1 + digit d2) mod 256)) :: rest)
                            else
                              rest <- parse fuel' groups s3 ;;
                              Ok (Lit (ascii_of_nat (digit d1)) :: rest)
                        | [] => Ok [Lit (ascii_of_nat (digit d1))]
                        end
                      else rest <- parse fuel' groups s2 ;; Ok (Lit (ascii_of_nat 0) :: rest)
                  | [] => Ok [Lit (ascii_of_nat 0)]
                  end
                else if Py.isdecimal e then
                  match s2 with
                  | d1 :: s3 =>
                      if Py.isdecimal d1 then
                        match s3 with
                        | d2 :: s4 =>
                            if isoct e && isoct d1 && isoct d2 then
                              let c := 64 * digit e + 8 * digit d1 + digit d2 in
                              if 255 <? c then Raise ReError
                              else rest <- parse fuel' groups s4 ;;
                                   Ok (Lit (ascii_of_nat c) :: rest)
                            else
                              it <- ref groups (10 * digit e + digit d1) ;;
                              rest <- parse fuel' groups s3 ;; Ok (it :: rest)
                        | [] =>
                            it <- ref groups (10 * digit e + digit d1) ;; Ok [it]
                        end
                      else
                        it <- ref groups (digit e) ;;
                        rest <- parse fuel' groups s2 ;; Ok (it :: rest)
                  | [] => it <- ref groups (digit e) ;; Ok [it]
                  end
                else
                  match escape e with
                  | Some x => rest <- parse fuel' groups s2 ;; Ok (Lit x :: rest)
                  | None =>
                      if Py.isasciiletter e then Raise ReError   (* bad escape *)
                      else rest <- parse fuel' groups s2 ;;
                           Ok (Lit backslash :: Lit e :: rest)
                  end
            end
      end
  end.

Definition expand (subject : str) (m : mtch) (tpl : list item) : str :=
  flat_map (fun it => match it with
                      | Lit c => [c]
                      | Ref i => group subject m i
                      end) tpl.

(** The subject with every match replaced; [i] is the offset up to
    which the subject has been copied. *)
Fixpoint build (subject : str) (i : nat) (ms : list mtch) (tpl : list item)
  : str :=
  match ms with
  | [] => skipn i subject
  | m :: ms' =>
      slice subject i (mstart m) ++ expand subject m tpl
        ++ build subject (mend m) ms' tpl
  end.

(** [re.sub(r, repl, s)] for a pattern [r] with [groups] groups. *)
Definition sub (r : regex) (groups : nat) (repl s : str) : result str :=
  tpl <- parse (length repl) groups repl ;;
  Ok (build s 0 (finditer r s) tpl).

End Template.

(** ** Import lines

    The test [stripped.startswith('import ') or (stripped.startswith('from ')
    and ' import ' in stripped)] used by [reorder_code],
    [move_imports_to_top] and [generate_requirements_file]. *)

Definition is_import_stmt (stripped : str) : bool :=
  Py.startswith (lit "import ") stripped
  || (Py.startswith (lit "from ") stripped
      && Py.contains (lit " import ") stripped).

Definition is_import_line (line : str) : bool :=
  is_import_stmt (Py.strip line).

(** ** Declaration reorderer: [reorder_code] *)

(** [^def\s+\w+\s*\(] *)
Definition def_header_re : regex :=
  seq [Bos; txt "def"; plus ws; plus wd; star ws; chr "("].

(** [^class\s+\w+] *)
Definition class_header_re : regex :=
  seq [Bos; txt "class"; plus ws; plus wd].

(** [^if\s+__name__\s*==\s*['"]__main__['"]] *)
Definition main_guard_re : regex :=
  seq [Bos; txt "if"; plus ws; txt "__name__"; star ws; txt "=="; star ws;
       Alt (chr squote) (chr dquote); txt "__main__";
       Alt (chr squote) (chr dquote)].

Record reorder_state : Type := {
  code_blocks : list (list str);
  current_block : list str;
  in_function_def : bool;
  in_class_def : bool;
  in_docstring : bool
}.

(** [if current_block: code_blocks.append(current_block); current_block = []] *)
Definition flush (st : reorder_state) : reorder_state :=
  match current_block st with
  | [] => st
  | _ :: _ =>
      {| code_blocks := code_blocks st ++ [current_block st];
         current_block := [];
         in_function_def := in_function_def st;
         in_class_def := in_class_def st;
         in_docstring := in_docstring st |}
  end.

Definition append_line (line : str) (st : reorder_state) : reorder_state :=
  {| code_blocks := code_blocks st;
     current_block := current_block st ++ [line];
     in_function_def := in_function_def st;
     in_class_def := in_class_def st;
     in_docstring := in_docstring st |}.

Definition nonempty {A : Type} (l : list A) : bool :=
  match l with [] => false | _ :: _ => true end.

(** One iteration of the first loop of [reorder_code], at index [i]. *)
Definition reorder_step (lines : list str) (st : reorder_state)
  (il : nat * str) : reorder_state :=
  let (i, line) := il in
  let line_stripped := Py.strip line in
  if negb (nonempty line_stripped) then
    if nonempty (current_block st) && (0 <? i)
       && Py.blank (nth (i - 1) lines [])
    then st
    else append_line [] st
  else if matches def_header_re line_stripped then
    let st1 := flush st in
    append_line line
      {| code_blocks := code_blocks st1; current_block := current_block st1;
         in_function_def := true; in_class_def := in_class_def st1;
         in_docstring := in_docstring st1 |}
  else if matches class_header_re line_stripped then
    let st1 := flush st in
    append_line line
      {| code_blocks := code_blocks st1; current_block := current_block st1;
         in_function_def := in_function_def st1; in_class_def := true;
         in_docstring := in_docstring st1 |}
  else if Py.startswith [dquote; dquote; dquote] line_stripped
          || Py.startswith [squote; squote; squote] line_stripped then
    append_line line
      {| code_blocks := code_blocks st; current_block := current_block st;
         in_function_def := in_function_def st; in_class_def := in_class_def st;
         in_docstring := negb (in_docstring st) |}
  else if in_function_def st || in_class_def st
          || Py.startswith (lit "#") line_stripped then
    append_line line st
  else if matches main_guard_re line_stripped then
    append_line line (flush st)
  else
    append_line line st.

Definition enumerate {A : Type} (l : list A) : list (nat * A) :=
  combine (List.seq 0 (length l)) l.

Definition reorder_init : reorder_state :=
  {| code_blocks := []; current_block := []; in_function_def := false;
     in_class_def := false; in_docstring := false |}.

(** The logical blocks: the first loop and the final flush. *)
Definition logical_blocks (lines : list str) : list (list str) :=
  code_blocks (flush (fold_left (reorder_step lines) (enumerate lines) reorder_init)).

Record block_groups : Type := {
  import_blocks : list (list str);
  class_blocks : list (list str);
  function_blocks : list (list str);
  main_blocks : list (list str);
  other_blocks : list (list str)
}.

Definition is_import_block (block : list str) : bool :=
  forallb (fun line =>
             let stripped := Py.strip line in
             negb (nonempty stripped
                   && negb (is_import_stmt stripped || negb (nonempty stripped))))
          block.

(** One iteration of the second loop of [reorder_code]. *)
Definition group_step (g : block_groups) (block : list str) : block_groups :=
  match block with
  | [] => g
  | line0 :: _ =>
      let first_line := Py.strip line0 in
      if is_import_block block && existsb (fun line => nonempty (Py.strip line)) block then
        {| import_blocks := import_blocks g ++ [block]; class_blocks := class_blocks g;
           function_blocks := function_blocks g; main_blocks := main_blocks g;
           other_blocks := other_blocks g |}
      else if Py.startswith (lit "class ") first_line then
        {| import_blocks := import_blocks g; class_blocks := class_blocks g ++ [block];
           function_blocks := function_blocks g; main_blocks := main_blocks g;
           other_blocks := other_blocks g |}
      else if Py.startswith (lit "def ") first_line then
        {| import_blocks := import_blocks g; class_blocks := class_blocks g;
           function_blocks := function_blocks g ++ [block]; main_blocks := main_blocks g;
           other_blocks := other_blocks g |}
      else if Py.startswith (lit "if __name__") first_line then
        {| import_blocks := import_blocks g; class_blocks := class_blocks g;
           function_blocks := function_blocks g; main_blocks := main_blocks g ++ [block];
           other_blocks := other_blocks g |}
      else
        {| import_blocks := import_blocks g; class_blocks := class_blocks g;
           function_blocks := function_blocks g; main_blocks := main_blocks g;
           other_blocks := other_blocks g ++ [block] |}
  end.

Definition group_blocks (blocks : list (list str)) : block_groups :=
  fold_left group_step blocks
    {| import_blocks := []; class_blocks := []; function_blocks := [];
       main_blocks := []; other_blocks := [] |}.

(** [import_blocks + class_blocks + function_blocks + other_blocks + main_blocks] *)
Definition ordered_blocks (g : block_groups) : list (list str) :=
  import_blocks g ++ class_blocks g ++ function_blocks g
    ++ other_blocks g ++ main_blocks g.

(** The third loop: blocks joined, a blank line before every non-empty
    block but the first. *)
Definition final_lines (blocks : list (list str)) : list str :=
  fold_left (fun acc ib =>
               let (i, block) := (ib : nat * list str) in
               (if (0 <? i) && nonempty block then acc ++ [[]] else acc) ++ block)
            (enumerate blocks) [].

(** [if reordered_code and not reordered_code.endswith('\n'):
    reordered_code += '\n'] *)
Definition ensure_final_newline (reordered_code : str) : str :=
  if nonempty reordered_code && negb (Py.endswith [nl] reordered_code)
  then reordered_code ++ [nl]
  else reordered_code.

Definition reorder_code (code : str) : str :=
  let lines := Py.lines code in
  let ordered := ordered_blocks (group_blocks (logical_blocks lines)) in
  let cleaned_lines := map Py.rstrip (final_lines ordered) in
  let reordered_code := Py.unlines cleaned_lines in
  ensure_final_newline reordered_code.

(** ** Import consolidator: [move_imports_to_top] *)

Definition std_lib_modules : list str :=
  map lit
    ["abc"; "argparse"; "array"; "ast"; "asyncio"; "base64"; "bisect"; "calendar";
     "collections"; "concurrent"; "contextlib"; "copy"; "csv"; "datetime"; "decimal";
     "difflib"; "enum"; "errno"; "fnmatch"; "functools"; "gc"; "glob"; "gzip"; "hashlib";
     "heapq"; "hmac"; "html"; "http"; "importlib"; "inspect"; "io"; "itertools"; "json";
     "logging"; "math"; "multiprocessing"; "operator"; "os"; "pathlib"; "pickle"; "platform";
     "pprint"; "queue"; "random"; "re"; "shutil"; "signal"; "socket"; "sqlite3"; "ssl";
     "statistics"; "string"; "struct"; "subprocess"; "sys"; "tempfile"; "threading";
     "time"; "timeit"; "traceback"; "types"; "typing"; "uuid"; "warnings"; "weakref";
     "xml"; "xmlrpc"; "zipfile"; "zlib"]%string.

(** [x in l] for a list of strings *)
Definition mem (x : str) (l : list str) : bool := existsb (Py.eqb x) l.

(** [parts[0]] and [parts[1]] of the result of a [split].  [split] returns
    at least one part; [parts[1]] is only taken of a string that starts
    with the separator (lemma [split_has_item1]), so the index is in
    range and the default is never returned. *)
Definition item0 (parts : list str) : str := nth 0 parts [].
Definition item1 (parts : list str) : str := nth 1 parts [].

(** The module token of an import line. *)
Definition import_module (line : str) : str :=
  let stripped := Py.strip line in
  if Py.startswith (lit "from ") stripped then
    item0 (Py.split (lit ".")
             (item0 (Py.split (lit " import")
                       (item1 (Py.split (lit "from ") stripped)))))
  else
    Py.strip
      (item0 (Py.split (lit ",")
                (item0 (Py.split (lit " as ")
                          (item1 (Py.split (lit "import ") stripped)))))).

Inductive import_group : Type := Standard | ThirdParty | Local.

Definition import_group_eqb (a b : import_group) : bool :=
  match a, b with
  | Standard, Standard | ThirdParty, ThirdParty | Local, Local => true
  | _, _ => false
  end.

Definition classify_import (line : str) : import_group :=
  let module := import_module line in
  if mem module std_lib_modules then Standard
  else if Py.startswith (lit ".") module then Local
  else ThirdParty.

Record import_lists : Type := {
  std_lib_imports : list str;
  third_party_imports : list str;
  local_imports : list str
}.

(** One iteration of the categorising loop. *)
Definition categorize_step (g : import_lists) (line : str) : import_lists :=
  match classify_import line with
  | Standard =>
      {| std_lib_imports := std_lib_imports g ++ [line];
         third_party_imports := third_party_imports g;
         local_imports := local_imports g |}
  | Local =>
      {| std_lib_imports := std_lib_imports g;
         third_party_imports := third_party_imports g;
         local_imports := local_imports g ++ [line] |}
  | ThirdParty =>
      {| std_lib_imports := std_lib_imports g;
         third_party_imports := third_party_imports g ++ [line];
         local_imports := local_imports g |}
  end.

Definition categorize (import_lines : list str) : import_lists :=
  fold_left categorize_step import_lines
    {| std_lib_imports := []; third_party_imports := []; local_imports := [] |}.

(** [[imp for imp in all_imports if imp != ''] or ['']] *)
Definition drop_empty (all_imports : list str) : list str :=
  match filter (fun imp => nonempty imp) all_imports with
  | [] => [[]]
  | l => l
  end.

Definition move_imports_to_top (code : str) : str :=
  let lines := Py.lines code in
  let import_lines := filter is_import_line lines in
  let non_import_lines := filter (fun l => negb (is_import_line l)) lines in
  if negb (nonempty import_lines) then code
  else
    let g := categorize import_lines in
    let all_imports :=
      drop_empty (std_lib_imports g ++ [[]] ++ third_party_imports g
                    ++ [[]] ++ local_imports g) in
    let all_imports :=
      if nonempty all_imports
         && match non_import_lines with
            | [] => false
            | l0 :: _ => nonempty (Py.strip l0)
            end
      then all_imports ++ [[]]
      else all_imports in
    Py.unlines (all_imports ++ non_import_lines).

(** ** Artifact scrubber and [clean_code_for_execution] *)

(** [^(>>>|\.\.\.|In \[\d+\]:|Out\[\d+\]:)] *)
Definition prompt_re : regex :=
  seq [Bos; Grp 1 (alt [txt ">>>"; txt "...";
                        seq [txt "In ["; plus dg; txt "]:"];
                        seq [txt "Out["; plus dg; txt "]:"]])].

(** [^(\[\d+\]:)] *)
Definition numbering_re : regex :=
  seq [Bos; Grp 1 (seq [chr "["; plus dg; txt "]:"])].

(** [^<(\w+) (object|at) .+>] *)
Definition repr_re : regex :=
  seq [Bos; chr "<"; Grp 1 (plus wd); chr " ";
       Grp 2 (Alt (txt "object") (txt "at")); chr " "; plus dot; chr ">"].

Definition is_artifact (line : str) : bool :=
  matches prompt_re (Py.strip line)
  || matches numbering_re (Py.strip line)
  || matches repr_re (Py.strip line).

Definition clean_code_for_execution (code : str) : str :=
  let lines := Py.lines code in
  let cleaned_lines := filter (fun line => negb (is_artifact line)) lines in
  let code := Py.unlines cleaned_lines in
  let code := reorder_code code in
  move_imports_to_top code.

(** ** Block locator: [extract_code_blocks] *)

(** [```(?:python)?\n([\s\S]*?)```] *)
Definition fence : str := lit "```".

Definition fence_re : regex :=
  seq [text fence; opt (txt "python"); chr nl; Grp 1 (lazy any); text fence].

(** [(?:^|\n)( {4}|\t)(.+)(?:\n|$)] *)
Definition indented_re : regex :=
  seq [Alt Bos (chr nl); Grp 1 (Alt (txt "    ") (chr tab));
       Grp 2 (plus dot); Alt (chr nl) Eos].

(** The five patterns of [extract_python_like_code]. *)
Definition indented_body : regex := plus (seq [chr nl; plus ws; plus dot]).

Definition python_patterns : list regex :=
  [ (* def\s+\w+\s*\([^)]*\):\s*(?:\n\s+.+)+ *)
    seq [txt "def"; plus ws; plus wd; star ws; chr "("; star (notchr ")");
         chr ")"; chr ":"; star ws; indented_body];
    (* class\s+\w+(?:\([^)]*\))?:\s*(?:\n\s+.+)+ *)
    seq [txt "class"; plus ws; plus wd;
         opt (seq [chr "("; star (notchr ")"); chr ")"]);
         chr ":"; star ws; indented_body];
    (* if\s+.+:\s*(?:\n\s+.+)+ *)
    seq [txt "if"; plus ws; plus dot; chr ":"; star ws; indented_body];
    (* for\s+.+:\s*(?:\n\s+.+)+ *)
    seq [txt "for"; plus ws; plus dot; chr ":"; star ws; indented_body];
    (* \w+\s*=\s*(?:['"]\w+['"]|\d+|\[.+\]|\{.+\}|\(.+\)) *)
    seq [plus wd; star ws; chr "="; star ws;
         alt [seq [Alt (chr squote) (chr dquote); plus wd;
                   Alt (chr squote) (chr dquote)];
              plus dg;
              seq [chr "["; plus dot; chr "]"];
              seq [chr "{"; plus dot; chr "}"];
              seq [chr "("; plus dot; chr ")"]]] ].

(** Order of the pairs [(text.find(frag), frag)]. *)
Definition pos_leb (a b : nat * str) : bool :=
  if fst a <? fst b then true
  else if fst b <? fst a then false
  else Py.leb (snd a) (snd b).

Fixpoint insert_pos (x : nat * str) (l : list (nat * str)) : list (nat * str) :=
  match l with
  | [] => [x]
  | y :: l' => if pos_leb y x then y :: insert_pos x l' else x :: l
  end.

Definition sort_pos (l : list (nat * str)) : list (nat * str) :=
  fold_left (fun acc x => insert_pos x acc) l [].

Definition extract_python_like_code (text : str) : option str :=
  let code_fragments := flat_map (fun pattern => findall0 pattern text) python_patterns in
  if nonempty code_fragments then
    let positions :=
      flat_map (fun frag => match Py.find frag text with
                            | Some p => [(p, frag)]
                            | None => []
                            end) code_fragments in
    Some (Py.join [nl; nl] (map snd (sort_pos positions)))
  else None.

Definition extract_code_blocks (text : str) (clean_output : bool) : str :=
  let code_blocks := findall1 fence_re text in
  if nonempty code_blocks then
    let code := Py.join [nl; nl] code_blocks in
    if clean_output then clean_code_for_execution code else code
  else
    let indented_blocks := findall2 indented_re text in
    if nonempty indented_blocks then
      let code := Py.unlines (map snd indented_blocks) in
      if clean_output then clean_code_for_execution code else code
    else if clean_output then
      match extract_python_like_code text with
      | Some maybe_code =>
          if nonempty maybe_code then clean_code_for_execution maybe_code
          else clean_code_for_execution text
      | None => clean_code_for_execution text
      end
    else text.

(** ** Conflict resolver: [fix_common_code_issues] *)

(** [^class\s+(\w+)] *)
Definition class_name_re : regex :=
  seq [Bos; txt "class"; plus ws; Grp 1 (plus wd)].

(** [^\s*def\s+(\w+)] *)
Definition method_name_re : regex :=
  seq [Bos; star ws; txt "def"; plus ws; Grp 1 (plus wd)].

(** [m.group(1)] of [re.match(r, s)], when there is a match. *)
Definition match_group1 (r : regex) (s : str) : option str :=
  match rmatch r s with
  | Some m => Some (group s m 1)
  | None => None
  end.

(** The inner loops [j = i + 1; while j < len(lines) and test(lines[j]):
    j += 1]: [rest] is [lines[j:]]. *)
Fixpoint skip_while (test : str -> bool) (rest : list str) (j : nat) : nat :=
  match rest with
  | [] => j
  | l :: rest' => if test l then skip_while test rest' (S j) else j
  end.

Definition span_end (test : str -> bool) (lines : list str) (i : nat) : nat :=
  skip_while test (skipn (S i) lines) (S i).

(** End of a class span: blank lines and lines that start with a space or
    a tab belong to it. *)
Definition in_class_span (l : str) : bool :=
  Py.blank l || Py.startswith (lit " ") l || Py.startswith [tab] l.

(** End of a method span: blank lines and lines indented further than the
    header belong to it. *)
Definition in_method_span (indent_level : nat) (l : str) : bool :=
  Py.blank l || (indent_level <? Py.indent l).

(** A dictionary in insertion order. *)
Definition dict (V : Type) := list (str * V).

Fixpoint dict_mem {V : Type} (k : str) (d : dict V) : bool :=
  match d with
  | [] => false
  | (k', _) :: d' => Py.eqb k k' || dict_mem k d'
  end.

(** [d[k] = v] *)
Fixpoint dict_set {V : Type} (k : str) (v : V) (d : dict V) : dict V :=
  match d with
  | [] => [(k, v)]
  | (k', v') :: d' =>
      if Py.eqb k k' then (k', v) :: d' else (k', v') :: dict_set k v d'
  end.

Fixpoint dict_get {V : Type} (k : str) (d : dict V) : option V :=
  match d with
  | [] => None
  | (k', v') :: d' => if Py.eqb k k' then Some v' else dict_get k d'
  end.

Record pass1_state : Type := {
  p1_i : nat;
  class_defs : dict nat;
  method_defs : dict nat;
  fixed_lines : list str;
  kept : list nat   (* ghost: the indices of the lines in [fixed_lines] *)
}.

(** [for cls, line_num in class_defs.items(): if line_num < i:
    current_class = cls] *)
Definition current_class_of (class_defs : dict nat) (i : nat) : option str :=
  fold_left (fun cur (e : str * nat) => if snd e <? i then Some (fst e) else cur)
            class_defs None.

Definition method_key (current_class : option str) (method_name : str) : str :=
  match current_class with
  | Some cls => if nonempty cls then cls ++ lit "." ++ method_name else method_name
  | None => method_name
  end.

(** One iteration of the first pass at index [p1_i st]. *)
Definition pass1_step (lines : list str) (st : pass1_state) : pass1_state :=
  let i := p1_i st in
  let line := Py.strip (nth i lines []) in
  let skip_to (j : nat) (cd : dict nat) :=
    {| p1_i := j; class_defs := cd; method_defs := method_defs st;
       fixed_lines := fixed_lines st; kept := kept st |} in
  let after_class (cd : dict nat) :=
    let keep (md : dict nat) :=
      {| p1_i := S i; class_defs := cd; method_defs := md;
         fixed_lines := fixed_lines st ++ [nth i lines []];
         kept := kept st ++ [i] |} in
    match match_group1 method_name_re line with
    | Some method_name =>
        let key := method_key (current_class_of cd i) method_name in
        if dict_mem key (method_defs st)
           && negb (Py.eqb method_name (lit "__init__"))
        then skip_to (span_end (in_method_span (Py.indent (nth i lines []))) lines i) cd
        else keep (dict_set key i (method_defs st))
    | None => keep (method_defs st)
    end in
  match match_group1 class_name_re line with
  | Some class_name =>
      if dict_mem class_name (class_defs st)
      then skip_to (span_end in_class_span lines i) (class_defs st)
      else after_class (dict_set class_name i (class_defs st))
  | None => after_class (class_defs st)
  end.

(** [while i < len(lines): ...] *)
Fixpoint pass1_loop (fuel : nat) (lines : list str) (st : pass1_state)
  : pass1_state :=
  match fuel with
  | 0 => st
  | S fuel' =>
      if p1_i st <? length lines
      then pass1_loop fuel' lines (pass1_step lines st)
      else st
  end.

Definition pass1_run (lines : list str) : pass1_state :=
  pass1_loop (length lines) lines
    {| p1_i := 0; class_defs := []; method_defs := []; fixed_lines := [];
       kept := [] |}.

(** The first pass of [fix_common_code_issues]: the generic duplicate
    elimination, up to [code = '\n'.join(fixed_lines)]. *)
Definition first_pass (code : str) : str :=
  Py.unlines (fixed_lines (pass1_run (Py.lines code))).

(** *** Node/tree repair: [fix_incomplete_node_class] *)

(** [class\s+(TreeNode|Node)\s*:] *)
Definition tree_node_re : regex :=
  seq [txt "class"; plus ws; Grp 1 (Alt (txt "TreeNode") (txt "Node"));
       star ws; chr ":"].

(** [class\s+(BinarySearchTree|BST)\s*:] *)
Definition bst_re : regex :=
  seq [txt "class"; plus ws; Grp 1 (Alt (txt "BinarySearchTree") (txt "BST"));
       star ws; chr ":"].

(** [(?:key|val|value)] *)
Definition key_word : regex := alt [txt "key"; txt "val"; txt "value"].

(** [def\s+__init__\s*\(\s*self\s*,\s*(?:key|val|value).*?\)] with
    [re.DOTALL] *)
Definition init_with_key : regex :=
  seq [txt "def"; plus ws; txt "__init__"; star ws; chr "("; star ws;
       txt "self"; star ws; chr ","; star ws; key_word; lazy any; chr ")"].

(** [class\s+{bst_class}\s*:.*?] followed by [init_with_key] *)
Definition bst_init_with_key_re (bst_class : str) : regex :=
  seq [txt "class"; plus ws; text bst_class; star ws; chr ":"; lazy any;
       init_with_key].

(** [class\s+{tree_node_class}\s*:(?:\s*\n\s*|$)] *)
Definition empty_treenode_re (tree_node_class : str) : regex :=
  seq [txt "class"; plus ws; text tree_node_class; star ws; chr ":";
       Alt (seq [star ws; chr nl; star ws]) Eos].

(** [init_with_key] followed by
    [.*?self\.(?:key|val|value)\s*=\s*(?:key|val|value)] *)
Definition proper_node_init_re : regex :=
  seq [init_with_key; lazy any; txt "self."; key_word; star ws; chr "=";
       star ws; key_word].

(** [bst_init_with_key_re] followed by [(.*?)(?:\n\s*def|\n\s*$)] *)
Definition bst_pattern (bst_class : str) : regex :=
  seq [bst_init_with_key_re bst_class; Grp 1 (lazy any);
       Alt (seq [chr nl; star ws; txt "def"]) (seq [chr nl; star ws; Eos])].

(** [def\s+__init__\s*\(\s*self\s*,\s*(\w+)] *)
Definition key_param_re : regex :=
  seq [txt "def"; plus ws; txt "__init__"; star ws; chr "("; star ws;
       txt "self"; star ws; chr ","; star ws; Grp 1 (plus wd)].

(** [self\.{attr}\s*=] *)
Definition attr_re (attr : str) : regex :=
  seq [txt "self."; text attr; star ws; chr "="].

(** The loop that turns a character offset into a line index; the index
    stays [0] when the loop ends without [break]. *)
Fixpoint line_of_offset (lines : list str) (i line_count start : nat) : nat :=
  match lines with
  | [] => 0
  | line :: lines' =>
      let line_count := line_count + length line + 1 in
      if start <? line_count then i
      else line_of_offset lines' (S i) line_count start
  end.

(** [lines[a:b]] *)
Definition lslice {A : Type} (l : list A) (a b : nat) : list A :=
  firstn (b - a) (skipn a l).

(** The method that starts at line [at_line]: [lines[at_line:j]] joined. *)
Definition method_text (lines : list str) (at_line : nat) : str :=
  let indent := Py.indent (nth at_line lines []) in
  let j := span_end (in_method_span indent) lines at_line in
  Py.unlines (lslice lines at_line j).

Definition bst_replacement (bst_class : str) : str :=
  lit "class " ++ bst_class ++ lit ":" ++ [nl]
    ++ lit "    def __init__(self):" ++ [nl]
    ++ lit "        self.root = None" ++ [nl].

Definition node_attributes (bst_init_method key_param : str) : list str :=
  flat_map (fun attr =>
              if found (attr_re attr) bst_init_method then
                if mem attr (map lit ["key"; "val"; "value"]%string)
                then [lit "self." ++ attr ++ lit " = " ++ key_param]
                else [lit "self." ++ attr ++ lit " = None"]
              else [])
           (map lit ["key"; "val"; "value"; "left"; "right"]%string).

Definition fix_incomplete_node_class (code : str) : result str :=
  let lines := Py.lines code in
  match search tree_node_re code, search bst_re code with
  | Some tree_node_match, Some bst_match =>
      let tree_node_class := group code tree_node_match 1 in
      let bst_class := group code bst_match 1 in
      match search (bst_init_with_key_re bst_class) code,
            search (empty_treenode_re tree_node_class) code with
      | Some bst_init_with_key, Some _ =>
          let bst_init_start := mstart bst_init_with_key in
          let bst_init_line := line_of_offset lines 0 0 bst_init_start in
          let bst_init_method := method_text lines bst_init_line in
          match search proper_node_init_re code with
          | Some proper_node_init =>
              let node_init_start := mstart proper_node_init in
              let node_init_line := line_of_offset lines 0 0 node_init_start in
              let proper_node_init_method := method_text lines node_init_line in
              let indented_init :=
                Py.replace (lit "def ") (lit "    def ") proper_node_init_method in
              let replacement :=
                lit "class " ++ tree_node_class ++ lit ":" ++ [nl]
                  ++ indented_init ++ [nl] in
              code <- Template.sub (empty_treenode_re tree_node_class) 0
                        replacement code ;;
              Template.sub (bst_pattern bst_class) 1
                (bst_replacement bst_class) code
          | None =>
              code <- Template.sub (bst_pattern bst_class) 1
                        (bst_replacement bst_class) code ;;
              let key_param :=
                match search key_param_re bst_init_method with
                | Some m => group bst_init_method m 1
                | None => lit "key"
                end in
              let attributes := node_attributes bst_init_method key_param in
              let attributes :=
                if nonempty attributes then attributes
                else [lit "self.key = " ++ key_param;
                      lit "self.left = None"; lit "self.right = None"] in
              let indented_attributes :=
                Py.join ([nl] ++ lit "        ") attributes in
              let replacement :=
                lit "class " ++ tree_node_class ++ lit ":" ++ [nl]
                  ++ lit "    def __init__(self, " ++ key_param ++ lit "):" ++ [nl]
                  ++ lit "        " ++ indented_attributes ++ [nl] in
              Template.sub (empty_treenode_re tree_node_class) 0
                replacement code
          end
      | _, _ => Ok code
      end
  | _, _ => Ok code
  end.

(** *** Duplicate-constructor collapse: [fix_duplicate_init_methods] *)

(** [^\s*def\s+__init__\s*\(] *)
Definition init_re : regex :=
  seq [Bos; star ws; txt "def"; plus ws; txt "__init__"; star ws; chr "("].

(** An entry [(start_line, end_line, text)] of [init_methods]. *)
Record init_span : Type := {
  span_start : nat;
  span_stop : nat;
  span_text : str
}.

Definition init_span_eqb (a b : init_span) : bool :=
  (span_start a =? span_start b) && (span_stop a =? span_stop b)
  && Py.eqb (span_text a) (span_text b).

Record init_state : Type := {
  fi_i : nat;
  fi_class_name : option str;
  init_methods : dict (list init_span)
}.

(** [init_methods[class_name].append(span)], the list being created first
    when the class is new. *)
Definition dict_append (k : str) (v : init_span) (d : dict (list init_span))
  : dict (list init_span) :=
  match dict_get k d with
  | Some l => dict_set k (l ++ [v]) d
  | None => d ++ [(k, [v])]
  end.

(** One iteration of the scanning loop at index [fi_i st]. *)
Definition init_step (lines : list str) (st : init_state) : init_state :=
  let i := fi_i st in
  let line := Py.strip (nth i lines []) in
  let class_name :=
    match match_group1 class_name_re line with
    | Some name => Some name
    | None => fi_class_name st
    end in
  match class_name with
  | Some cls =>
      if matches init_re line && nonempty cls then
        let init_indent := Py.indent (nth i lines []) in
        let j := span_end (in_method_span init_indent) lines i in
        {| fi_i := j; fi_class_name := class_name;
           init_methods :=
             dict_append cls
               {| span_start := i; span_stop := j;
                  span_text := Py.unlines (lslice lines i j) |}
               (init_methods st) |}
      else
        {| fi_i := S i; fi_class_name := class_name;
           init_methods := init_methods st |}
  | None =>
      {| fi_i := S i; fi_class_name := class_name;
         init_methods := init_methods st |}
  end.

Fixpoint init_loop (fuel : nat) (lines : list str) (st : init_state)
  : init_state :=
  match fuel with
  | 0 => st
  | S fuel' =>
      if fi_i st <? length lines
      then init_loop fuel' lines (init_step lines st)
      else st
  end.

Definition find_inits (lines : list str) : dict (list init_span) :=
  init_methods
    (init_loop (length lines) lines
       {| fi_i := 0; fi_class_name := None; init_methods := [] |}).

(** The key [(len(x[2].split(',')), len(x[2].split('\n')))] and the order
    of such pairs. *)
Definition init_key (x : init_span) : nat * nat :=
  (length (Py.split (lit ",") (span_text x)),
   length (Py.split [nl] (span_text x))).

Definition key_ltb (a b : nat * nat) : bool :=
  (fst a <? fst b) || ((fst a =? fst b) && (snd a <? snd b)).

(** [max(inits, key=...)]: the first of the greatest entries. *)
Fixpoint max_from (best : init_span) (rest : list init_span) : init_span :=
  match rest with
  | [] => best
  | x :: rest' =>
      if key_ltb (init_key best) (init_key x) then max_from x rest'
      else max_from best rest'
  end.

(** [to_remove.sort(key=lambda x: x[0], reverse=True)] (a stable sort). *)
Fixpoint insert_desc (x : init_span) (l : list init_span) : list init_span :=
  match l with
  | [] => [x]
  | y :: l' =>
      if span_start y <? span_start x then x :: l else y :: insert_desc x l'
  end.

Definition sort_desc (l : list init_span) : list init_span :=
  fold_left (fun acc x => insert_desc x acc) l [].

(** [lines = lines[:start] + lines[end:]] *)
Definition cut (lines : list str) (x : init_span) : list str :=
  firstn (span_start x) lines ++ skipn (span_stop x) lines.

(** One iteration of the loop over [init_methods.items()]. *)
Definition collapse_step (lines : list str) (entry : str * list init_span)
  : list str :=
  match snd entry with
  | first :: (_ :: _) as others =>
      let best_init := max_from first others in
      let to_remove :=
        filter (fun init => negb (init_span_eqb init best_init)) (snd entry) in
      fold_left cut (sort_desc to_remove) lines
  | _ => lines
  end.

Definition fix_duplicate_init_methods (code : str) : str :=
  let lines := Py.lines code in
  Py.unlines (fold_left collapse_step (find_inits lines) lines).

(** *** The resolver and the processing of a completion *)

Definition fix_common_code_issues (code : str) : result str :=
  let code := first_pass code in
  code <- fix_incomplete_node_class code ;;
  Ok (fix_duplicate_init_methods code).

(** The processing of a completion in [main], between the reception of the
    text and the clipboard: [code_only], [clean] and [attempt_fix] are the
    options [--code-only], [--clean] and [--fix]. *)
Definition process (code_only clean attempt_fix : bool) (completion : str)
  : result str :=
  let completion_to_copy :=
    if code_only then extract_code_blocks completion clean
    else if clean then clean_code_for_execution completion
    else completion in
  if attempt_fix then fix_common_code_issues completion_to_copy
  else Ok completion_to_copy.

(** ** File and project names: [generate_filename_from_content],
    [generate_project_name] *)

(** [c.isupper()] and [c.lower()] on one character: the upper-case
    letters below 256 are A..Z, the letters from 192 to 222 but 215, and
    their lower-case forms lie 32 further. *)
Definition isupper (c : ascii) : bool :=
  Py.between 65 90 c || Py.between 192 214 c || Py.between 216 222 c.

Definition lower_char (c : ascii) : ascii :=
  if isupper c then ascii_of_nat (Py.code c + 32) else c.

(** [s.lower()] *)
Definition lower (s : str) : str := map lower_char s.

(** [s.split()]: the words between runs of white space; [cur] is the
    current word, reversed. *)
Fixpoint words_from (cur s : str) : list str :=
  match s with
  | [] => if nonempty cur then [rev cur] else []
  | c :: s' =>
      if Py.isspace c
      then (if nonempty cur then rev cur :: words_from [] s'
            else words_from [] s')
      else words_from (c :: cur) s'
  end.

Definition words (s : str) : list str := words_from [] s.

(** [re.sub(r, repl, s)] for a replacement without backslash: the
    template is the replacement itself. *)
Definition sub_literal (r : regex) (repl s : str) : str :=
  Template.build s 0 (finditer r s) (map Template.Lit repl).

(** [class\s+(\w+)] and [def\s+(\w+)] *)
Definition class_word_re : regex := seq [txt "class"; plus ws; Grp 1 (plus wd)].
Definition def_word_re : regex := seq [txt "def"; plus ws; Grp 1 (plus wd)].

(** [''.join(['_' + c.lower() if c.isupper() else c for c in name])
    .lstrip('_')] *)
Definition snake_case (name : str) : str :=
  Py.dropwhile (Ascii.eqb "_")
    (flat_map (fun c => if isupper c then ["_"%char; lower_char c] else [c])
       name).

Definition filename_common_words : list str :=
  map lit ["a"; "an"; "the"; "to"; "in"; "for"; "of"; "and"; "with"; "that";
           "write"; "create"; "implement"; "python"; "function"; "class";
           "code"]%string.

(** [[a-z0-9_]] *)
Definition name_char (c : ascii) : bool :=
  Py.between 97 122 c || Py.between 48 57 c || Ascii.eqb c "_".

(** [[w for w in words if w not in common_words and len(w) > 2]] *)
Definition relevant_words (prompt : str) : list str :=
  filter (fun w => negb (mem w filename_common_words) && (2 <? length w))
         (words (lower prompt)).

(** [timestamp] is the value of [time.strftime("%Y%m%d_%H%M%S")]. *)
Definition generate_filename_from_content (timestamp code prompt : str) : str :=
  match search class_word_re code, search def_word_re code with
  | Some class_match, _ =>
      snake_case (group code class_match 1) ++ lit ".py"
  | None, Some function_match =>
      group code function_match 1 ++ lit ".py"
  | None, None =>
      let relevant_words := relevant_words prompt in
      if nonempty relevant_words then
        let name := Py.join (lit "_") (firstn 3 relevant_words) in
        sub_literal (Sym (fun c => negb (name_char c))) [] name ++ lit ".py"
      else lit "code_" ++ timestamp ++ lit ".py"
  end.

(** [\w] on one character. *)
Definition isword (c : ascii) : bool := Py.isalnum c || Ascii.eqb c "_".

(** [\b] at an offset: the character before it ([None] at the start) and
    the rest of the subject. *)
Definition at_boundary (prev : option ascii) (s : str) : bool :=
  xorb (match prev with Some c => isword c | None => false end)
       (match s with c :: _ => isword c | [] => false end).

(** [[a-zA-Z][a-zA-Z0-9_]{2,}], the part of the keyword pattern between
    the two [\b]. *)
Definition keyword_char (c : ascii) : bool :=
  Py.isasciiletter c || Py.isdecimal c || Ascii.eqb c "_".

Definition keyword_body : regex :=
  seq [Sym Py.isasciiletter; Sym keyword_char; Sym keyword_char;
       star (Sym keyword_char)].

(** One attempt of [\b[a-zA-Z][a-zA-Z0-9_]{2,}\b] at offset [p] of
    [subject], whose rest is [s].  The matcher [run] sees the rest of the
    subject only, so the first [\b] is tested here, and the second in the
    continuation, where a failure backtracks into the repetition. *)
Definition keyword_at (subject : str) (p : nat) (s : str) : option mtch :=
  if at_boundary (match p with 0 => None | S q => nth_error subject q end) s
  then
    match run keyword_body p s []
            (fun p' s' c' =>
               if at_boundary (match p' with
                               | 0 => None
                               | S q => nth_error subject q
                               end) s'
               then Some (p', c') else None) with
    | Some (e, c) => Some (p, e, c)
    | None => None
    end
  else None.

Fixpoint keyword_search (subject : str) (p : nat) (s : str) : option mtch :=
  match keyword_at subject p s with
  | Some m => Some m
  | None =>
      match s with
      | [] => None
      | _ :: s' => keyword_search subject (S p) s'
      end
  end.

(** [re.findall(r'\b[a-zA-Z][a-zA-Z0-9_]{2,}\b', subject)]: a match is
    never empty, so the number of matches is at most the length. *)
Fixpoint keywords_from (fuel : nat) (subject : str) (p : nat) (s : str)
  : list str :=
  match fuel with
  | 0 => []
  | S fuel' =>
      match keyword_search subject p s with
      | None => []
      | Some m =>
          group subject m 0
            :: keywords_from fuel' subject (mend m) (skipn (mend m - p) s)
      end
  end.

Definition keywords (subject : str) : list str :=
  keywords_from (S (length subject)) subject 0 subject.

Definition project_common_words : list str :=
  map lit ["the"; "and"; "that"; "with"; "for"; "create"; "implement";
           "build"; "make"; "code"; "write"; "script"; "program";
           "python"]%string.

Definition generate_project_name (timestamp prompt code : str) : str :=
  let keywords :=
    filter (fun word => negb (mem word project_common_words))
           (keywords (lower prompt)) in
  let project_name :=
    if nonempty keywords then Py.join (lit "_") (firstn 3 keywords)
    else Py.replace (lit ".py") []
           (generate_filename_from_content timestamp code prompt) in
  let project_name :=
    sub_literal (Sym (fun c => negb (isword c))) (lit "_") project_name in
  if 30 <? length project_name then firstn 30 project_name else project_name.

(** ** Requirements: [generate_requirements_file] *)

Definition requirements_std_lib_modules : list str :=
  std_lib_modules ++ map lit ["tkinter"; "tk"; "ttk"]%string.

Definition package_mapping : dict str :=
  [(lit "bs4", lit "beautifulsoup4");
   (lit "sklearn", lit "scikit-learn");
   (lit "PIL", lit "pillow");
   (lit "cv2", lit "opencv-python");
   (lit "pygame", lit "pygame");
   (lit "np", lit "numpy");
   (lit "pd", lit "pandas");
   (lit "plt", lit "matplotlib");
   (lit "tf", lit "tensorflow");
   (lit "torch", lit "torch");
   (lit "db", lit "sqlalchemy")].

(** The names that one import line adds to [packages]. *)
Definition line_packages (line : str) : list str :=
  if Py.startswith (lit "import ") line then
    map (fun part =>
           let package := Py.strip (item0 (Py.split (lit " as ") part)) in
           item0 (Py.split (lit ".") package))
        (Py.split (lit ",") (skipn 7 line))
  else
    let package :=
      Py.strip (item0 (Py.split (lit " import")
                         (item1 (Py.split (lit "from ") line)))) in
    [item0 (Py.split (lit ".") package)].

(** [packages.add(x)]: a set, kept in the order of the first insertions. *)
Definition set_add (s : list str) (x : str) : list str :=
  if mem x s then s else s ++ [x].

Definition packages (code : str) : list str :=
  let import_lines := filter is_import_stmt (map Py.strip (Py.lines code)) in
  fold_left set_add (flat_map line_packages import_lines) [].

Definition pypi_name (pkg : str) : str :=
  match dict_get pkg package_mapping with
  | Some name => name
  | None => pkg
  end.

(** [requirements.sort()] *)
Fixpoint insert_sorted (x : str) (l : list str) : list str :=
  match l with
  | [] => [x]
  | y :: l' => if Py.leb x y then x :: l else y :: insert_sorted x l'
  end.

Definition sort (l : list str) : list str :=
  fold_right insert_sorted [] l.

(** The sorted list [requirements].  The loop that fills it runs over a
    set, in an order that Python does not fix; the sort makes the result
    independent of that order. *)
Definition requirements (code : str) : list str :=
  let third_party_packages :=
    filter (fun pkg => negb (mem pkg requirements_std_lib_modules))
           (packages code) in
  sort (map pypi_name third_party_packages).

(** The text written to [requirements.txt]; [None] when no file is
    written. *)
Definition generate_requirements_file (code : str) : option str :=
  let requirements := requirements code in
  if nonempty requirements then Some (Py.unlines requirements) else None.

(** ** Vocabulary of the statements *)

(** The lines of group [g]: the import lines that [classify_import] puts
    into [g]. *)
Definition in_group (g : import_group) (l : str) : bool :=
  is_import_line l && import_group_eqb (classify_import l) g.

(** The separator after the header: a blank line when the body starts
    with a line that is not blank. *)
Definition header_sep (non_import_lines : list str) : list str :=
  match non_import_lines with
  | [] => []
  | l0 :: _ => if nonempty (Py.strip l0) then [[]] else []
  end.

(** ** Example texts *)

(** A text given by its lines. *)
Definition text_of (ls : list string) : str := Py.unlines (map lit ls).

(** A node class with an empty body and a tree class whose constructor
    takes the key; the constructor's body holds a string with a backslash. *)
Definition backslash_in_init : str :=
  text_of ["class Node:";
           "    pass";
           "class BST:";
           "    def __init__(self, key):";
           "        self.key = key";
           "        self.pattern = '\d+'"]%string.

(** A statement, a function, and the entry-point guard at the end. *)
Definition guard_after_def : str :=
  text_of ["x = 1";
           "def f():";
           "    pass";
           "if __name__ == '__main__':";
           "    f()"]%string.

(** The entry-point guard between two functions. *)
Definition guard_between_defs : str :=
  text_of ["def f():";
           "    pass";
           "if __name__ == '__main__':";
           "    f()";
           "def g():";
           "    pass"]%string.

(** A standard-library import and a third-party import. *)
Definition two_import_groups : str :=
  text_of ["import os"; "import numpy"; "x = 1"]%string.


(** The class name that the first pass reads on a line, if any. *)
Definition header_name (l : str) : option str :=
  match_group1 class_name_re (Py.strip l).


(** [subseq a b]: [a] is [b] with some elements deleted. *)
Inductive subseq {A : Type} : list A -> list A -> Prop :=
| subseq_nil : subseq [] []
| subseq_skip : forall x a b, subseq a b -> subseq a (x :: b)
| subseq_take : forall x a b, subseq a b -> subseq (x :: a) (x :: b).

(** The lines of [lines] at the indices [ks]. *)
Definition lines_at (lines : list str) (ks : list nat) : list str :=
  map (fun k => nth k lines []) ks.


(** Strictly increasing indices. *)
Fixpoint increasing (ks : list nat) : Prop :=
  match ks with
  | [] => True
  | k :: ks' => Forall (fun k' => k < k') ks' /\ increasing ks'
  end.

(** The invariant of the loop of the first pass. *)
Record pass1_inv (lines : list str) (st : pass1_state) : Prop := {
  inv_bound : p1_i st <= length lines;
  inv_kept_below : Forall (fun k => k < p1_i st) (kept st);
  inv_kept_increasing : increasing (kept st);
  inv_fixed : fixed_lines st = lines_at lines (kept st);
  inv_registered :
    forall k n, In k (kept st) -> header_name (nth k lines []) = Some n ->
                dict_mem n (class_defs st) = true;
  inv_seen :
    forall n, dict_mem n (class_defs st) = true ->
              exists k, k < p1_i st /\ header_name (nth k lines []) = Some n;
  inv_unique :
    forall k1 k2 n, In k1 (kept st) -> In k2 (kept st) ->
                    header_name (nth k1 lines []) = Some n ->
                    header_name (nth k2 lines []) = Some n -> k1 = k2
}.


(** A repeated function whose second body holds the only class. *)
Definition class_in_repeated_def : str :=
  text_of ["def f():";
           "    pass";
           "def f():";
           "    class A:";
           "        pass"]%string.

(** A class defined twice. *)
Definition class_defined_twice : str :=
  text_of ["class A:";
           "    x = 1";
           "class A:";
           "    x = 2"]%string.

(** The completion of the example: a fenced block with an import and two
    definitions of [Foo]. *)
Definition foo_completion : str :=
  text_of ["```python";
           "import os";
           "class Foo:";
           "    def bar(self):";
           "        return 1";
           "class Foo:";
           "    def bar(self):";
           "        return 2";
           "```"]%string.



(** "The first occurrence of every class header line is retained" by the
    first pass: every line that is a class header whose name is on no
    earlier header is among the kept lines. *)
Definition first_headers_retained (code : str) : Prop :=
  forall i name,
    i < length (Py.lines code) ->
    header_name (nth i (Py.lines code) []) = Some name ->
    (forall k, k < i -> header_name (nth k (Py.lines code) []) <> Some name) ->
    In i (kept (pass1_run (Py.lines code))).





(** No fence marker starts inside [s]: [s] followed by two backquotes
    holds no three backquotes in a row (so [s] holds no marker and does
    not end with a backquote). *)
Definition fence_free (s : str) : Prop :=
  Py.contains fence (s ++ lit "``") = false.

(** The tag of an opening fence that the locator accepts: none, or
    [python]. *)
Definition fence_tag (tag : str) : Prop := tag = [] \/ tag = lit "python".

(** A text made of fenced blocks: before each block a gap without marker,
    the opening fence with its tag and a newline, the body, the closing
    fence; after the last block the text [post]. *)
Fixpoint fenced (blocks : list (str * str * str)) (post : str) : str :=
  match blocks with
  | [] => post
  | (gap, tag, body) :: blocks' =>
      gap ++ fence ++ tag ++ nl :: body ++ fence ++ fenced blocks' post
  end.

Definition block_body (b : str * str * str) : str := snd b.

Definition well_fenced (b : str * str * str) : Prop :=
  fence_free (fst (fst b)) /\ fence_tag (snd (fst b)) /\ fence_free (snd b).


(** A reply with one fenced block. *)
Definition one_block_reply : str :=
  text_of ["Here is the code:";
           "```python";
           "x = 1";
           "```"]%string.

(** "The locator returns the trimmed inner content [inner]". *)
Definition returns_trimmed (text inner : str) : Prop :=
  extract_code_blocks text false = Py.strip inner.


(** [k] lies in the span [x]. *)
Definition in_span (x : init_span) (k : nat) : bool :=
  (span_start x <=? k) && (k <? span_stop x).

(** [k] lies in one of the spans of [l]. *)
Definition covered (l : list init_span) (k : nat) : bool :=
  existsb (fun x => in_span x k) l.

(** The lines whose index lies in none of the spans of [l]; [k] is the
    index of the first line of [lines]. *)
Fixpoint drop_covered (l : list init_span) (k : nat) (lines : list str)
  : list str :=
  match lines with
  | [] => []
  | x :: rest =>
      if covered l k then drop_covered l (S k) rest
      else x :: drop_covered l (S k) rest
  end.

(** The spans of [l] other than [best]. *)
Definition others (best : init_span) (l : list init_span) : list init_span :=
  filter (fun x => negb (init_span_eqb x best)) l.

(** Spans in increasing order that do not overlap. *)
Fixpoint chain (l : list init_span) : Prop :=
  match l with
  | [] => True
  | x :: l' => Forall (fun y => span_stop x <= span_start y) l' /\ chain l'
  end.

(** The invariant of the loop that collects the constructor spans. *)
Record init_inv (lines : list str) (st : init_state) : Prop := {
  ii_bound : fi_i st <= length lines;
  ii_spans :
    forall c l, In (c, l) (init_methods st) ->
      chain l
      /\ Forall (fun x => span_start x < span_stop x
                          /\ span_stop x <= fi_i st) l
}.

(** The number of parameters of the constructor of a span: the items
    between the parentheses of its header. *)
Definition param_count (x : init_span) : nat :=
  length (Py.split (lit ",")
            (item0 (Py.split (lit ")")
                      (item1 (Py.split (lit "(") (span_text x)))))).

(** "For a class with several constructor spans the one with the greatest
    parameter count is kept and the others are deleted." *)
Definition keeps_most_parameters (code : str) : Prop :=
  forall cls spans,
    dict_get cls (find_inits (Py.lines code)) = Some spans ->
    1 < length spans ->
    exists best,
      In best spans
      /\ (forall x, In x spans -> param_count x <= param_count best)
      /\ fix_duplicate_init_methods code =
         Py.unlines (drop_covered (others best spans) 0 (Py.lines code)).

(** A class with a three-parameter constructor followed by a
    one-parameter constructor whose body holds a list. *)
Definition two_constructors : str :=
  text_of ["class A:";
           "    def __init__(self, a, b):";
           "        self.a = a";
           "    def __init__(self):";
           "        self.xs = [1, 2, 3, 4]"]%string.

(** A class with a short and a longer constructor. *)
Definition short_and_long_constructor : str :=
  text_of ["class A:";
           "    def __init__(self):";
           "        pass";
           "    def __init__(self, a, b):";
           "        self.a = a";
           "        self.b = b";
           "    def get(self):";
           "        return self.a"]%string.


(** The two constructor spans of [two_constructors]. *)
Definition three_parameter_init : init_span :=
  {| span_start := 1; span_stop := 3;
     span_text := text_of ["    def __init__(self, a, b):";
                           "        self.a = a"]%string |}.

Definition one_parameter_init : init_span :=
  {| span_start := 3; span_stop := 5;
     span_text := text_of ["    def __init__(self):";
                           "        self.xs = [1, 2, 3, 4]"]%string |}.

(** The two constructor spans of [short_and_long_constructor]. *)
Definition short_init : init_span :=
  {| span_start := 1; span_stop := 3;
     span_text := text_of ["    def __init__(self):";
                           "        pass"]%string |}.

Definition long_init : init_span :=
  {| span_start := 3; span_stop := 6;
     span_text := text_of ["    def __init__(self, a, b):";
                           "        self.a = a";
                           "        self.b = b"]%string |}.














(** ** Vocabulary of the further properties *)

(** *** Characters and patterns *)

(** Every character. *)
Definition all_chars : str := map ascii_of_nat (List.seq 0 256).

(** [requires ch r]: every match of [r] reads the character [ch]. *)
Fixpoint requires (ch : ascii) (r : regex) : bool :=
  match r with
  | Sym f => forallb (fun a => implb (f a) (Ascii.eqb ch a)) all_chars
  | Cat r1 r2 => requires ch r1 || requires ch r2
  | Alt r1 r2 => requires ch r1 && requires ch r2
  | Grp _ r1 => requires ch r1
  | Eps | Rep _ _ | Bos | Eos => false
  end.

(** *** Lines *)

(** A line that is not blank. *)
Definition code_line (l : str) : bool := negb (Py.blank l).

(** The lines held by the state of the first loop of [reorder_code], in
    the order of their arrival. *)
Definition block_lines (st : reorder_state) : list str :=
  concat (code_blocks st) ++ current_block st.

(** *** Indented lines *)

(** Lines indented by four spaces, one after the other. *)
Definition indented_lines (ls : list str) : str :=
  Py.unlines (map (app (lit "    ")) ls).

(** The first, the third, the fifth ... element. *)
Fixpoint every_other {A : Type} (l : list A) : list A :=
  match l with
  | [] => []
  | x :: rest =>
      x :: match rest with
           | [] => []
           | _ :: rest' => every_other rest'
           end
  end.

(** A line that [.+] can match: not empty, without newline. *)
Definition one_line (l : str) : Prop := l <> [] /\ ~ In nl l.

(** The part of [indented_re] after [(?:^|\n)]. *)
Definition line_re : regex :=
  seq [Grp 1 (Alt (txt "    ") (chr tab)); Grp 2 (plus dot); Alt (chr nl) Eos].

(** The groups of a match on an indented line that starts at offset [q]
    of the line. *)
Definition line_caps (q : nat) (l : str) : caps :=
  [(2, (q + 4, q + 4 + length l)); (1, (q, q + 4))].

(** ** Vocabulary of the naming properties *)

(** A capitalised word: an ASCII capital followed by lower-case ASCII
    letters and digits. *)
Definition capitalised (w : str) : bool :=
  match w with
  | [] => false
  | c :: t =>
      Py.between 65 90 c
      && forallb (fun a => Py.between 97 122 a || Py.between 48 57 a) t
  end.

(** The next character, if any, is not a word character. *)
Definition word_end (rest : str) : Prop :=
  match rest with
  | [] => True
  | b :: _ => isword b = false
  end.


(** ** Vocabulary of the requirements properties *)

(** Names in ascending order. *)
Fixpoint ascending (l : list str) : Prop :=
  match l with
  | [] => True
  | x :: l' =>
      match l' with
      | [] => True
      | y :: _ => Py.leb x y = true
      end /\ ascending l'
  end.

(** Imports of the standard library, of third-party packages (one under
    an alias, one with a submodule) and of a sibling module. *)
Definition mixed_imports : str :=
  text_of ["import os, sys";
           "import numpy as np";
           "from sklearn.model_selection import train_test_split";
           "from .models import User";
           "import requests"]%string.

(** A text that imports standard-library modules only. *)
Definition std_lib_imports_only : str :=
  text_of ["import os"; "from collections import deque"; "x = 1"]%string.

(** ** Further example texts *)

(** A node class with an empty body and a tree class whose constructor
    takes the key; no backslash. *)
Definition node_and_tree : str :=
  text_of ["class Node:";
           "    pass";
           "class BST:";
           "    def __init__(self, key):";
           "        self.key = key"]%string.

(** Two statements, no declaration. *)
Definition two_statements : str :=
  text_of ["x = 1"; "print(x)"]%string.

(** A class with one constructor. *)
Definition one_constructor : str :=
  text_of ["class A:";
           "    def __init__(self, a):";
           "        self.a = a"]%string.

(** Three fenced blocks with the text before each of them: gap, tag and
    body. *)
Definition three_blocks : list (str * str * str) :=
  [(lit "Install:" ++ [nl], [], lit "pip install x" ++ [nl]);
   (nl :: lit "Then:" ++ [nl], lit "python", lit "import x" ++ [nl]);
   ([nl], lit "python", lit "x.run()" ++ [nl])].

(** A sentence without code. *)
Definition plain_sentence : str := lit "No code here, sorry.".

(** A statement with trailing spaces, an empty line and a function. *)
Definition indented_statement : str :=
  text_of ["x = 1  "; EmptyString; "def f():"; "    return x"]%string.

(** The transcript of an interpreter session: a prompt line and an output
    number among lines of code. *)
Definition session_transcript : str :=
  text_of [">>> x = 1"; "import os"; "x = 1"; "[1]: 7"; "print(x)"]%string.

(** Four indented lines. *)
Definition four_indented_lines : str :=
  indented_lines [lit "a = 1"; lit "b = 2"; lit "c = 3"; lit "d = 4"].


(** ** Tactics *)

Ltac len :=
  repeat first [ rewrite length_app
               | progress cbn [length]
               | progress change (length (lit "    ")) with 4 ];
  lia.

(** * Properties *)

(** ** Lines of a text *)

Lemma lines_cons (c : ascii) (s : str) :
  Py.lines (c :: s) =
  if Ascii.eqb nl c then [] :: Py.lines s
  else match Py.lines s with
       | h :: t => (c :: h) :: t
       | [] => [[c]]
       end.
Proof.
  unfold Py.lines, Py.split. simpl. rewrite andb_true_r. reflexivity.
Qed.

Lemma lines_not_nil (s : str) : Py.lines s <> [].
Proof.
  destruct s as [|c s]; [discriminate|].
  rewrite lines_cons. destruct (Ascii.eqb nl c); [discriminate|].
  destruct (Py.lines s); discriminate.
Qed.

Lemma lines_no_nl (s : str) : Forall (fun l => ~ In nl l) (Py.lines s).
Proof.
  induction s as [|c s IH]; [repeat constructor; auto|].
  rewrite lines_cons. destruct (Ascii.eqb nl c) eqn:E.
  - constructor; auto.
  - assert (Hc : nl <> c).
    { intro; subst c. rewrite Ascii.eqb_refl in E. discriminate. }
    destruct (Py.lines s) as [|h t].
    + constructor; auto. intros [H|[]]. congruence.
    + inversion IH; subst. constructor; auto.
      intros [H|H]; [congruence|auto].
Qed.

Lemma lines_single (l : str) : ~ In nl l -> Py.lines l = [l].
Proof.
  induction l as [|c l IH]; intro H; [reflexivity|].
  rewrite lines_cons.
  destruct (Ascii.eqb nl c) eqn:E.
  - apply Ascii.eqb_eq in E. subst. exfalso. apply H. now left.
  - rewrite IH; [reflexivity|]. intro. apply H. now right.
Qed.

Lemma lines_app (l s : str) :
  ~ In nl l -> Py.lines (l ++ nl :: s) = l :: Py.lines s.
Proof.
  induction l as [|c l IH]; intro H; simpl.
  - rewrite lines_cons, Ascii.eqb_refl. reflexivity.
  - rewrite lines_cons.
    destruct (Ascii.eqb nl c) eqn:E.
    + apply Ascii.eqb_eq in E. subst. exfalso. apply H. now left.
    + rewrite IH; [reflexivity|]. intro. apply H. now right.
Qed.

Lemma unlines_cons (l : str) (ls : list str) :
  ls <> [] -> Py.unlines (l :: ls) = l ++ nl :: Py.unlines ls.
Proof.
  destruct ls; [congruence|reflexivity].
Qed.

Lemma lines_unlines (ls : list str) :
  ls <> [] -> Forall (fun l => ~ In nl l) ls -> Py.lines (Py.unlines ls) = ls.
Proof.
  induction ls as [|l ls IH]; [congruence|].
  intros _ H. inversion H; subst.
  destruct ls as [|l' ls].
  - simpl. now apply lines_single.
  - rewrite unlines_cons by discriminate.
    rewrite lines_app by assumption.
    rewrite IH; [reflexivity|discriminate|assumption].
Qed.

Lemma unlines_lines (s : str) : Py.unlines (Py.lines s) = s.
Proof.
  induction s as [|c s IH]; [reflexivity|].
  rewrite lines_cons. destruct (Ascii.eqb nl c) eqn:E.
  - apply Ascii.eqb_eq in E. subst c.
    rewrite unlines_cons by apply lines_not_nil.
    simpl. now rewrite IH.
  - pose proof (lines_not_nil s) as Hn.
    destruct (Py.lines s) as [|h t]; [congruence|].
    destruct t as [|h' t].
    + cbn in *. congruence.
    + rewrite unlines_cons by discriminate.
      rewrite unlines_cons in IH by discriminate.
      simpl. now rewrite IH.
Qed.

Lemma Forall_no_nl_app (a b : list str) :
  Forall (fun l => ~ In nl l) a -> Forall (fun l => ~ In nl l) b ->
  Forall (fun l => ~ In nl l) (a ++ b).
Proof. intros. apply Forall_app. now split. Qed.

Lemma Forall_no_nl_filter (f : str -> bool) (a : list str) :
  Forall (fun l => ~ In nl l) a -> Forall (fun l => ~ In nl l) (filter f a).
Proof.
  intro H. apply Forall_forall. intros x Hx.
  apply filter_In in Hx. destruct Hx as [Hx _].
  rewrite Forall_forall in H. now apply H.
Qed.

(** ** The import consolidator as a stable partition *)

Lemma is_import_line_nonempty (l : str) :
  is_import_line l = true -> nonempty l = true.
Proof.
  destruct l; [discriminate|reflexivity].
Qed.

Lemma categorize_from (ls : list str) (g : import_lists) :
  fold_left categorize_step ls g =
  {| std_lib_imports :=
       std_lib_imports g
         ++ filter (fun l => import_group_eqb (classify_import l) Standard) ls;
     third_party_imports :=
       third_party_imports g
         ++ filter (fun l => import_group_eqb (classify_import l) ThirdParty) ls;
     local_imports :=
       local_imports g
         ++ filter (fun l => import_group_eqb (classify_import l) Local) ls |}.
Proof.
  revert g. induction ls as [|l ls IH]; intro g; simpl.
  - rewrite !app_nil_r. now destruct g.
  - rewrite IH. unfold categorize_step.
    destruct (classify_import l); simpl; rewrite <- ?app_assoc; reflexivity.
Qed.

Lemma categorize_filters (ls : list str) :
  categorize ls =
  {| std_lib_imports :=
       filter (fun l => import_group_eqb (classify_import l) Standard) ls;
     third_party_imports :=
       filter (fun l => import_group_eqb (classify_import l) ThirdParty) ls;
     local_imports :=
       filter (fun l => import_group_eqb (classify_import l) Local) ls |}.
Proof. unfold categorize. now rewrite categorize_from. Qed.

Lemma filter_filter {A : Type} (f g : A -> bool) (l : list A) :
  filter f (filter g l) = filter (fun x => g x && f x) l.
Proof.
  induction l as [|x l IH]; [reflexivity|].
  simpl. destruct (g x); simpl; [destruct (f x)|]; now rewrite IH.
Qed.

Lemma filter_all {A : Type} (f : A -> bool) (l : list A) :
  (forall x, In x l -> f x = true) -> filter f l = l.
Proof.
  induction l as [|x l IH]; intro H; [reflexivity|].
  simpl. rewrite H by now left. rewrite IH; [reflexivity|].
  intros. apply H. now right.
Qed.

Lemma filter_none {A : Type} (f : A -> bool) (l : list A) :
  (forall x, In x l -> f x = false) -> filter f l = [].
Proof.
  induction l as [|x l IH]; intro H; [reflexivity|].
  simpl. rewrite H by now left. apply IH. intros. apply H. now right.
Qed.

Lemma in_group_In (g : import_group) (l : str) (ls : list str) :
  In l (filter (in_group g) ls) -> is_import_line l = true.
Proof.
  intro H. apply filter_In in H. destruct H as [_ H].
  unfold in_group in H. now apply andb_true_iff in H.
Qed.

Lemma filter_in_group_same (g : import_group) (ls : list str) :
  filter (in_group g) (filter (in_group g) ls) = filter (in_group g) ls.
Proof.
  apply filter_all. intros x H. apply filter_In in H. tauto.
Qed.

Lemma filter_in_group_other (g g' : import_group) (ls : list str) :
  g <> g' -> filter (in_group g) (filter (in_group g') ls) = [].
Proof.
  intro Hne. apply filter_none. intros x H. apply filter_In in H.
  destruct H as [_ H]. unfold in_group in *.
  apply andb_true_iff in H. destruct H as [H1 H2]. rewrite H1. simpl.
  destruct (classify_import x), g, g'; try reflexivity; try discriminate;
    congruence.
Qed.

Lemma group_split_length (ls : list str) :
  length (filter (in_group Standard) ls)
  + length (filter (in_group ThirdParty) ls)
  + length (filter (in_group Local) ls)
  = length (filter is_import_line ls).
Proof.
  induction ls as [|l ls IH]; [reflexivity|].
  unfold in_group in *. simpl.
  destruct (is_import_line l); simpl; [|exact IH].
  destruct (classify_import l); simpl; lia.
Qed.

Lemma drop_empty_imports (a b c : list str) :
  (forall l, In l (a ++ b ++ c) -> nonempty l = true) ->
  a ++ b ++ c <> [] ->
  drop_empty (a ++ [[]] ++ b ++ [[]] ++ c) = a ++ b ++ c.
Proof.
  intros Hall Hne. unfold drop_empty.
  rewrite !filter_app. simpl.
  rewrite <- !filter_app. rewrite filter_all by assumption.
  destruct (a ++ b ++ c) eqn:E; [congruence|reflexivity].
Qed.

(** What [move_imports_to_top] returns on a text with an import line. *)
Lemma move_imports_to_top_eq (code : str) :
  filter is_import_line (Py.lines code) <> [] ->
  move_imports_to_top code =
  Py.unlines
    (filter (in_group Standard) (Py.lines code)
       ++ filter (in_group ThirdParty) (Py.lines code)
       ++ filter (in_group Local) (Py.lines code)
       ++ header_sep (filter (fun l => negb (is_import_line l)) (Py.lines code))
       ++ filter (fun l => negb (is_import_line l)) (Py.lines code)).
Proof.
  intro Himp. unfold move_imports_to_top.
  set (ls := Py.lines code) in *.
  destruct (filter is_import_line ls) as [|i0 is0] eqn:E; [congruence|].
  cbn [nonempty negb]. rewrite <- E.
  rewrite categorize_filters. cbn [std_lib_imports third_party_imports local_imports].
  rewrite !filter_filter. fold (in_group Standard) (in_group ThirdParty) (in_group Local).
  assert (Hne : filter (in_group Standard) ls
                  ++ filter (in_group ThirdParty) ls
                  ++ filter (in_group Local) ls <> []).
  { intro H. pose proof (group_split_length ls) as L.
    rewrite E in L. apply (f_equal (@length str)) in H.
    rewrite !length_app in H. simpl in *. lia. }
  rewrite drop_empty_imports; [| |exact Hne].
  2:{ intros l H. apply is_import_line_nonempty.
      rewrite !in_app_iff in H.
      destruct H as [H|[H|H]]; eapply in_group_In; eassumption. }
  f_equal.
  destruct (filter (in_group Standard) ls
              ++ filter (in_group ThirdParty) ls
              ++ filter (in_group Local) ls) as [|h t] eqn:EH; [congruence|].
  cbn [nonempty andb]. unfold header_sep.
  destruct (filter (fun l => negb (is_import_line l)) ls) as [|l0 non].
  - rewrite <- EH. simpl. now rewrite <- !app_assoc.
  - destruct (nonempty (Py.strip l0)); rewrite <- EH; simpl;
      now rewrite <- !app_assoc.
Qed.

Lemma filter_import_none (ls : list str) :
  filter is_import_line ls = [] ->
  filter (fun l => negb (is_import_line l)) ls = ls
  /\ forall g, filter (in_group g) ls = [].
Proof.
  intro H.
  assert (Hall : forall x, In x ls -> is_import_line x = false).
  { intros x Hx. destruct (is_import_line x) eqn:E; [|reflexivity].
    assert (Hin : In x (filter is_import_line ls)) by (apply filter_In; auto).
    rewrite H in Hin. destruct Hin. }
  split.
  - apply filter_all. intros x Hx. now rewrite Hall.
  - intro g. apply filter_none. intros x Hx. unfold in_group.
    now rewrite Hall.
Qed.

Lemma header_sep_cases (non : list str) :
  header_sep non = [] \/ header_sep non = [[]].
Proof.
  destruct non as [|l0 non]; [now left|].
  simpl. destruct (nonempty (Py.strip l0)); auto.
Qed.

(** The lines of the output of [move_imports_to_top]: the three groups,
    an optional blank line, the other lines. *)
Lemma move_imports_to_top_lines (code : str) :
  exists sep,
    (sep = [] \/ sep = [[]])
    /\ Py.lines (move_imports_to_top code) =
       filter (in_group Standard) (Py.lines code)
         ++ filter (in_group ThirdParty) (Py.lines code)
         ++ filter (in_group Local) (Py.lines code)
         ++ sep
         ++ filter (fun l => negb (is_import_line l)) (Py.lines code).
Proof.
  destruct (filter is_import_line (Py.lines code)) as [|i0 is0] eqn:E.
  - exists []. split; [now left|].
    destruct (filter_import_none _ E) as [Hnon Hg].
    rewrite !Hg, Hnon. simpl.
    unfold move_imports_to_top. now rewrite E.
  - exists (header_sep (filter (fun l => negb (is_import_line l)) (Py.lines code))).
    split; [apply header_sep_cases|].
    rewrite move_imports_to_top_eq by (rewrite E; discriminate).
    apply lines_unlines.
    + intro H. pose proof (group_split_length (Py.lines code)) as L.
      rewrite E in L. apply (f_equal (@length _)) in H.
      rewrite !length_app in H. simpl in *. lia.
    + pose proof (lines_no_nl code) as Hnl.
      repeat apply Forall_no_nl_app;
        try (apply Forall_no_nl_filter; assumption).
      destruct (header_sep_cases
                  (filter (fun l => negb (is_import_line l)) (Py.lines code)))
        as [-> | ->]; repeat constructor; auto.
Qed.

Lemma filter_negb_import_group (g : import_group) (ls : list str) :
  filter (in_group g) (filter (fun l => negb (is_import_line l)) ls) = [].
Proof.
  apply filter_none. intros x H. apply filter_In in H. destruct H as [_ H].
  unfold in_group. apply negb_true_iff in H. now rewrite H.
Qed.

Lemma filter_in_group_sep (g : import_group) (sep : list str) :
  sep = [] \/ sep = [[]] -> filter (in_group g) sep = [].
Proof. intros [-> | ->]; reflexivity. Qed.

Lemma import_group_cases (g : import_group) :
  g = Standard \/ g = ThirdParty \/ g = Local.
Proof. destruct g; auto. Qed.

(** C5. [move_imports_to_top] moves import lines without duplicating or
    dropping any: for every text, the number of import lines of the output
    is that of the input, every import line of the input is a line of the
    output, the import lines of each group (Standard, ThirdParty, Local)
    are the same sequence in the output as in the input, and the output is
    the three groups, an optional blank line, and the lines that are not
    imports in their original order. *)
Theorem move_imports_to_top_stable_partition (code : str) :
  let inp := Py.lines code in
  let out := Py.lines (move_imports_to_top code) in
  length (filter is_import_line out) = length (filter is_import_line inp)
  /\ (forall l, In l inp -> is_import_line l = true -> In l out)
  /\ (forall g, filter (in_group g) out = filter (in_group g) inp)
  /\ exists sep,
       (sep = [] \/ sep = [[]])
       /\ out = filter (in_group Standard) inp
                  ++ filter (in_group ThirdParty) inp
                  ++ filter (in_group Local) inp
                  ++ sep
                  ++ filter (fun l => negb (is_import_line l)) inp.
Proof.
  intros inp out.
  destruct (move_imports_to_top_lines code) as [sep [Hsep Hout]].
  fold inp out in Hout.
  assert (Hgroups : forall g, filter (in_group g) out = filter (in_group g) inp).
  { intro g. rewrite Hout, !filter_app.
    rewrite filter_negb_import_group, (filter_in_group_sep g Hsep).
    destruct g.
    - rewrite filter_in_group_same.
      rewrite !(@filter_in_group_other Standard) by discriminate.
      now rewrite !app_nil_r.
    - rewrite filter_in_group_same.
      rewrite !(@filter_in_group_other ThirdParty) by discriminate.
      now rewrite !app_nil_r.
    - rewrite filter_in_group_same.
      rewrite !(@filter_in_group_other Local) by discriminate.
      now rewrite !app_nil_r. }
  repeat split.
  - rewrite <- (group_split_length out), <- (group_split_length inp).
    now rewrite !Hgroups.
  - intros l Hin Himp. rewrite Hout.
    rewrite !in_app_iff.
    destruct (import_group_cases (classify_import l)) as [Hg|[Hg|Hg]];
      [left|right; left|right; right; left]; apply filter_In; split; auto;
      unfold in_group; rewrite Himp, Hg; reflexivity.
  - exact Hgroups.
  - exists sep. split; assumption.
Qed.

Lemma move_imports_to_top_stable_partition_witness :
  In (lit "import numpy") (Py.lines (move_imports_to_top two_import_groups)).
Proof.
  apply (proj1 (proj2 (move_imports_to_top_stable_partition two_import_groups))).
  - vm_compute. right. left. reflexivity.
  - vm_compute. reflexivity.
Defined.

(** ** Indexing the parts of a split *)

Lemma split_aux_not_nil (sep s : str) (k : nat) : Py.split_aux sep s k <> [].
Proof.
  revert k. induction s as [|c s IH]; intro k; simpl; [discriminate|].
  destruct k; [|apply IH].
  destruct (Py.startswith sep (c :: s)); [discriminate|].
  destruct (Py.split_aux sep s 0); discriminate.
Qed.

(** [parts[1]] exists when the string starts with the separator. *)
Lemma split_has_item1 (sep s : str) :
  sep <> [] -> Py.startswith sep s = true -> 2 <= length (Py.split sep s).
Proof.
  intros Hsep H. unfold Py.split.
  destruct s as [|c s].
  - destruct sep; [congruence|discriminate].
  - simpl Py.split_aux. rewrite H.
    pose proof (split_aux_not_nil sep s (length sep - 1)) as Hn.
    destruct (Py.split_aux sep s (length sep - 1)); [congruence|simpl; lia].
Qed.

(** The index [1] taken by [import_module] is in range on every import
    line. *)
Lemma import_module_index_in_range (line : str) :
  is_import_line line = true ->
  if Py.startswith (lit "from ") (Py.strip line)
  then 2 <= length (Py.split (lit "from ") (Py.strip line))
  else 2 <= length (Py.split (lit "import ") (Py.strip line)).
Proof.
  unfold is_import_line, is_import_stmt. intro H.
  destruct (Py.startswith (lit "from ") (Py.strip line)) eqn:F.
  - apply split_has_item1; [discriminate|assumption].
  - rewrite andb_false_l, orb_false_r in H.
    apply split_has_item1; [discriminate|assumption].
Qed.

(** ** The defects found on concrete texts *)

(** C1. [fix_incomplete_node_class] raises [re.error] on a text whose
    transplanted constructor contains a backslash followed by a letter:
    the constructor text is used as the replacement template of [re.sub].
    [fix_common_code_issues] raises with it. *)
Theorem fix_incomplete_node_class_raises :
  fix_incomplete_node_class backslash_in_init = Raise ReError
  /\ fix_common_code_issues backslash_in_init = Raise ReError.
Proof. split; vm_compute; reflexivity. Qed.

(** C2. On a text with a statement, a function and then the entry-point
    guard, [reorder_code] keeps the guard inside the function's block and
    puts the statement after it: the guard's block is not last.  The same
    happens to a guard between two functions. *)
Theorem reorder_code_guard_not_last :
  reorder_code guard_after_def =
    text_of ["def f():";
             "    pass";
             "if __name__ == '__main__':";
             "    f()";
             EmptyString;
             "x = 1";
             EmptyString]%string
  /\ reorder_code guard_between_defs =
    text_of ["def f():";
             "    pass";
             "if __name__ == '__main__':";
             "    f()";
             EmptyString;
             "def g():";
             "    pass";
             EmptyString]%string.
Proof. split; vm_compute; reflexivity. Qed.

(** C4. [move_imports_to_top] puts no blank line between the Standard and
    the ThirdParty group: the separators are filtered out with the empty
    groups. *)
Theorem move_imports_to_top_no_group_separator :
  move_imports_to_top two_import_groups =
    text_of ["import os"; "import numpy"; EmptyString; "x = 1"]%string
  /\ classify_import (lit "import os") = Standard
  /\ classify_import (lit "import numpy") = ThirdParty.
Proof. repeat split; vm_compute; reflexivity. Qed.

(** ** Stepping the matcher *)

Lemma py_eqb_eq (a b : str) : Py.eqb a b = true <-> a = b.
Proof.
  revert b. induction a as [|x a IH]; intros [|y b]; simpl;
    try (split; [discriminate|congruence]); [tauto|].
  rewrite andb_true_iff, Ascii.eqb_eq, IH.
  split; [intros [-> ->]; reflexivity|intro H; inversion H; auto].
Qed.

Lemma py_eqb_refl (a : str) : Py.eqb a a = true.
Proof. now apply py_eqb_eq. Qed.

(** A stripped line that matches [^class\s+(\w+)] starts with [c]. *)
Lemma class_match_starts_c (s : str) (n : str) :
  match_group1 class_name_re s = Some n -> exists s', s = "c"%char :: s'.
Proof.
  destruct s as [|a s]; [discriminate|].
  destruct (Ascii.eqb "c" a) eqn:E.
  - apply Ascii.eqb_eq in E. subst a. eauto.
  - unfold match_group1, rmatch, match_at, class_name_re.
    cbn [seq txt lit list_ascii_of_string text].
    cbn [run chr Nat.eqb]. rewrite E. discriminate.
Qed.

(** Such a line does not match [^\s*def\s+(\w+)]. *)
Lemma class_not_method (s : str) (n : str) :
  match_group1 class_name_re s = Some n ->
  match_group1 method_name_re s = None.
Proof.
  intro H. apply class_match_starts_c in H. destruct H as [s' ->].
  reflexivity.
Qed.

(** ** The first pass of the conflict resolver *)

Lemma dropwhile_length (f : ascii -> bool) (s : str) :
  length (Py.dropwhile f s) <= length s.
Proof.
  induction s as [|c s IH]; simpl; [lia|].
  destruct (f c); simpl; lia.
Qed.

Lemma header_not_blank (l n : str) :
  header_name l = Some n -> Py.blank l = false.
Proof.
  unfold header_name, Py.blank. intro H.
  apply class_match_starts_c in H. destruct H as [s' ->]. reflexivity.
Qed.

(** A line without indentation that is not blank belongs to no span. *)
Lemma top_level_outside_spans (l : str) :
  Py.indent l = 0 -> Py.blank l = false ->
  in_class_span l = false /\ forall ind, in_method_span ind l = false.
Proof.
  intros Hi Hb. unfold in_class_span, in_method_span. rewrite Hb, Hi.
  split; [|intro ind; now destruct ind].
  destruct l as [|a l]; [reflexivity|].
  unfold Py.indent, Py.lstrip in Hi. cbn [Py.dropwhile] in Hi.
  destruct (Py.isspace a) eqn:Ha.
  - pose proof (dropwhile_length Py.isspace l). cbn [length] in Hi. lia.
  - change (Py.startswith (lit " ") (a :: l)) with (Ascii.eqb " " a && true).
    change (Py.startswith [tab] (a :: l)) with (Ascii.eqb tab a && true).
    rewrite !andb_true_r.
    destruct (Ascii.eqb " " a) eqn:E1.
    { apply Ascii.eqb_eq in E1. subst a. discriminate. }
    destruct (Ascii.eqb tab a) eqn:E2; [|reflexivity].
    apply Ascii.eqb_eq in E2. subst a. discriminate.
Qed.

Lemma skip_while_ge (test : str -> bool) (rest : list str) (j : nat) :
  j <= skip_while test rest j.
Proof.
  revert j. induction rest as [|l rest IH]; intro j; simpl; [lia|].
  destruct (test l); [|lia]. specialize (IH (S j)). lia.
Qed.

Lemma skip_while_le_length (test : str -> bool) (rest : list str) (j : nat) :
  skip_while test rest j <= j + length rest.
Proof.
  revert j. induction rest as [|l rest IH]; intro j; simpl; [lia|].
  destruct (test l); [|lia]. specialize (IH (S j)). lia.
Qed.

(** The scan stops at the latest on a line that fails the test. *)
Lemma skip_while_stops (test : str -> bool) (rest : list str) (j m : nat) :
  m < length rest -> test (nth m rest []) = false ->
  skip_while test rest j <= j + m.
Proof.
  revert j m. induction rest as [|l rest IH]; intros j m Hm Ht; simpl in *; [lia|].
  destruct m as [|m].
  - rewrite Ht. lia.
  - destruct (test l); [|lia].
    specialize (IH (S j) m ltac:(lia) Ht). lia.
Qed.

Lemma nth_skipn {A : Type} (l : list A) (i m : nat) (d : A) :
  nth m (skipn i l) d = nth (i + m) l d.
Proof.
  revert l. induction i as [|i IH]; intro l; [reflexivity|].
  destruct l as [|x l]; [now destruct m|].
  simpl. apply IH.
Qed.

Lemma span_end_gt (test : str -> bool) (lines : list str) (i : nat) :
  i < span_end test lines i.
Proof.
  unfold span_end. pose proof (skip_while_ge test (skipn (S i) lines) (S i)). lia.
Qed.

Lemma span_end_le_length (test : str -> bool) (lines : list str) (i : nat) :
  i < length lines -> span_end test lines i <= length lines.
Proof.
  intro H. unfold span_end.
  pose proof (skip_while_le_length test (skipn (S i) lines) (S i)) as L.
  rewrite length_skipn in L. lia.
Qed.

Lemma span_end_stops (test : str -> bool) (lines : list str) (i i0 : nat) :
  i < i0 -> i0 < length lines -> test (nth i0 lines []) = false ->
  span_end test lines i <= i0.
Proof.
  intros Hlt Hlen Ht. unfold span_end.
  pose proof (@skip_while_stops test (skipn (S i) lines) (S i) (i0 - S i)) as L.
  rewrite length_skipn, nth_skipn in L.
  replace (S i + (i0 - S i)) with i0 in L by lia.
  specialize (L ltac:(lia) Ht). lia.
Qed.

(** What one iteration of the first pass does: it keeps the line, or it
    skips the span of a repeated class or of a repeated method. *)
Lemma pass1_step_cases (lines : list str) (st : pass1_state) :
  let i := p1_i st in
  let l := nth i lines [] in
  let st' := pass1_step lines st in
  (p1_i st' = S i
   /\ kept st' = kept st ++ [i]
   /\ fixed_lines st' = fixed_lines st ++ [l]
   /\ match header_name l with
      | Some n => dict_mem n (class_defs st) = false
                  /\ class_defs st' = dict_set n i (class_defs st)
      | None => class_defs st' = class_defs st
      end)
  \/
  (kept st' = kept st
   /\ fixed_lines st' = fixed_lines st
   /\ class_defs st' = class_defs st
   /\ ((exists n, header_name l = Some n
                  /\ dict_mem n (class_defs st) = true
                  /\ p1_i st' = span_end in_class_span lines i)
       \/ (header_name l = None
           /\ (exists key, dict_mem key (method_defs st) = true)
           /\ p1_i st' = span_end (in_method_span (Py.indent l)) lines i))).
Proof.
  intros i l st'. subst st'. unfold pass1_step. fold i. fold l.
  fold (header_name l).
  destruct (header_name l) as [n|] eqn:Hh.
  - destruct (dict_mem n (class_defs st)) eqn:Hm.
    + right. cbn. repeat split. left. exists n. auto.
    + unfold header_name in Hh. rewrite (class_not_method _ Hh).
      left. cbn. auto.
  - destruct (match_group1 method_name_re (Py.strip l)) as [mn|].
    + destruct (dict_mem (method_key (current_class_of (class_defs st) i) mn)
                  (method_defs st)
                && negb (Py.eqb mn (lit "__init__"))) eqn:Hd.
      * right. cbn. repeat split. right. repeat split.
        apply andb_true_iff in Hd. destruct Hd as [Hd _]. eauto.
      * left. cbn. auto.
    + left. cbn. auto.
Qed.

Lemma pass1_step_progress (lines : list str) (st : pass1_state) :
  p1_i st < p1_i (pass1_step lines st).
Proof.
  destruct (pass1_step_cases lines st)
    as [[H _]|[_ [_ [_ [[n [_ [_ H]]]|[_ [_ H]]]]]]];
    rewrite H; auto using span_end_gt.
Qed.

(** A property kept by every iteration holds when the loop ends. *)
Lemma pass1_loop_inv (lines : list str) (P : pass1_state -> Prop) :
  (forall st, P st -> p1_i st < length lines -> P (pass1_step lines st)) ->
  forall fuel st, P st -> P (pass1_loop fuel lines st).
Proof.
  intros Hstep fuel. induction fuel as [|fuel IH]; intros st HP; simpl; [assumption|].
  destruct (p1_i st <? length lines) eqn:E; [|assumption].
  apply IH, Hstep; [assumption|]. now apply Nat.ltb_lt.
Qed.

(** The fuel is enough: the loop ends because the index has reached the
    number of lines. *)
Lemma pass1_loop_done (lines : list str) (fuel : nat) (st : pass1_state) :
  length lines <= p1_i st + fuel ->
  length lines <= p1_i (pass1_loop fuel lines st).
Proof.
  revert st. induction fuel as [|fuel IH]; intros st H; simpl; [lia|].
  destruct (p1_i st <? length lines) eqn:E.
  - apply IH. pose proof (pass1_step_progress lines st). lia.
  - apply Nat.ltb_ge in E. assumption.
Qed.

Lemma pass1_run_done (lines : list str) :
  length lines <= p1_i (pass1_run lines).
Proof. apply pass1_loop_done. simpl. lia. Qed.

Lemma dict_mem_set {V : Type} (k k' : str) (v : V) (d : dict V) :
  dict_mem k (dict_set k' v d) = Py.eqb k k' || dict_mem k d.
Proof.
  induction d as [|[k0 v0] d IH]; simpl; [reflexivity|].
  destruct (Py.eqb k' k0) eqn:E; simpl.
  - apply py_eqb_eq in E. subst k0.
    destruct (Py.eqb k k'); reflexivity.
  - rewrite IH. destruct (Py.eqb k k0), (Py.eqb k k'); reflexivity.
Qed.

Lemma increasing_snoc (ks : list nat) (i : nat) :
  increasing ks -> Forall (fun k => k < i) ks -> increasing (ks ++ [i]).
Proof.
  induction ks as [|k ks IH]; simpl; intros Hi Hb.
  - split; [constructor|exact I].
  - destruct Hi as [Hk Hi]. inversion Hb; subst.
    split; [|now apply IH].
    apply Forall_app. split; [assumption|]. constructor; [assumption|constructor].
Qed.

Lemma Forall_lt_weaken (ks : list nat) (i j : nat) :
  i <= j -> Forall (fun k => k < i) ks -> Forall (fun k => k < j) ks.
Proof.
  intros Hij H. eapply Forall_impl; [|exact H]. simpl. intros. lia.
Qed.

Lemma pass1_inv_init (lines : list str) :
  pass1_inv lines
    {| p1_i := 0; class_defs := []; method_defs := []; fixed_lines := [];
       kept := [] |}.
Proof.
  constructor; simpl; try constructor; try lia; try contradiction;
    try discriminate; auto.
Qed.

Lemma pass1_inv_step (lines : list str) (st : pass1_state) :
  pass1_inv lines st -> p1_i st < length lines ->
  pass1_inv lines (pass1_step lines st).
Proof.
  intros [Hb Hkb Hki Hf Hr Hs Hu] Hlt.
  destruct (pass1_step_cases lines st)
    as [[Hi [Hk [Hfx Hc]]]|[Hk [Hfx [Hc Hi]]]].
  - (* the line is kept *)
    constructor; rewrite ?Hi, ?Hk, ?Hfx.
    + lia.
    + apply Forall_app. split.
      * eapply Forall_lt_weaken; [|exact Hkb]. lia.
      * constructor; [lia|constructor].
    + now apply increasing_snoc.
    + unfold lines_at. now rewrite map_app, Hf.
    + intros k n Hin Hn.
      destruct (header_name (nth (p1_i st) lines [])) as [n0|] eqn:Hh.
      * destruct Hc as [_ Hc]. rewrite Hc, dict_mem_set.
        apply in_app_iff in Hin. destruct Hin as [Hin|[<-|[]]].
        -- rewrite (Hr k n Hin Hn). apply orb_true_r.
        -- rewrite Hh in Hn. inversion Hn. now rewrite py_eqb_refl.
      * rewrite Hc.
        apply in_app_iff in Hin. destruct Hin as [Hin|[<-|[]]].
        -- exact (Hr k n Hin Hn).
        -- congruence.
    + intros n Hn.
      destruct (header_name (nth (p1_i st) lines [])) as [n0|] eqn:Hh.
      * destruct Hc as [_ Hc]. rewrite Hc, dict_mem_set in Hn.
        apply orb_true_iff in Hn. destruct Hn as [Hn|Hn].
        -- apply py_eqb_eq in Hn. subst n0. exists (p1_i st). split; [lia|assumption].
        -- destruct (Hs n Hn) as [k [Hk1 Hk2]]. exists k. split; [lia|assumption].
      * rewrite Hc in Hn.
        destruct (Hs n Hn) as [k [Hk1 Hk2]]. exists k. split; [lia|assumption].
    + intros k1 k2 n H1 H2 Hn1 Hn2.
      apply in_app_iff in H1. apply in_app_iff in H2.
      destruct H1 as [H1|[<-|[]]], H2 as [H2|[<-|[]]].
      * eapply Hu; eassumption.
      * rewrite Hn2 in Hc. destruct Hc as [Hc _].
        rewrite (Hr k1 n H1 Hn1) in Hc. discriminate.
      * rewrite Hn1 in Hc. destruct Hc as [Hc _].
        rewrite (Hr k2 n H2 Hn2) in Hc. discriminate.
      * reflexivity.
  - (* a span is skipped *)
    assert (Hi' : p1_i st < p1_i (pass1_step lines st)
                  /\ p1_i (pass1_step lines st) <= length lines).
    { destruct Hi as [[n [_ [_ Hi]]]|[_ [_ Hi]]]; rewrite Hi;
        split; auto using span_end_gt, span_end_le_length. }
    constructor; rewrite ?Hk, ?Hfx, ?Hc; auto.
    + lia.
    + eapply Forall_lt_weaken; [|exact Hkb]. lia.
    + intros n Hn. destruct (Hs n Hn) as [k [Hk1 Hk2]].
      exists k. split; [lia|assumption].
Qed.

Lemma pass1_run_inv (lines : list str) : pass1_inv lines (pass1_run lines).
Proof.
  unfold pass1_run.
  apply pass1_loop_inv with (P := pass1_inv lines).
  - apply pass1_inv_step.
  - apply pass1_inv_init.
Qed.

(** A class header without indentation whose name has not been seen on an
    earlier line is reached by the loop and kept. *)
Lemma pass1_first_header_kept (lines : list str) (i0 : nat) (n : str) :
  i0 < length lines ->
  header_name (nth i0 lines []) = Some n ->
  Py.indent (nth i0 lines []) = 0 ->
  (forall k, k < i0 -> header_name (nth k lines []) <> Some n) ->
  In i0 (kept (pass1_run lines)).
Proof.
  intros Hlen Hh Hind Hfirst.
  destruct (top_level_outside_spans _ Hind (header_not_blank _ Hh)) as [Hc Hm].
  assert (HQ : pass1_inv lines (pass1_run lines)
               /\ (p1_i (pass1_run lines) <= i0 \/ In i0 (kept (pass1_run lines)))).
  { unfold pass1_run.
    apply pass1_loop_inv
      with (P := fun st => pass1_inv lines st
                           /\ (p1_i st <= i0 \/ In i0 (kept st))).
    - intros st [Hinv HQ] Hlt. split; [now apply pass1_inv_step|].
      destruct (pass1_step_cases lines st)
        as [[Hi [Hk _]]|[Hk [_ [_ Hi]]]].
      + rewrite Hi, Hk. destruct HQ as [HQ|HQ].
        * destruct (Nat.eq_dec (p1_i st) i0) as [->|Hne].
          -- right. apply in_app_iff. right. now left.
          -- left. lia.
        * right. apply in_app_iff. now left.
      + rewrite Hk. destruct HQ as [HQ|HQ]; [|now right]. left.
        destruct (Nat.eq_dec (p1_i st) i0) as [E|Hne].
        * exfalso. rewrite E in Hi.
          destruct Hi as [[n' [Hn' [Hmem _]]]|[Hn' _]]; [|congruence].
          assert (n' = n) by congruence. subst n'.
          destruct (inv_seen Hinv _ Hmem) as [k [Hk1 Hk2]].
          apply (Hfirst k); [lia|assumption].
        * destruct Hi as [[n' [_ [_ Hi]]]|[_ [_ Hi]]]; rewrite Hi;
            apply span_end_stops; auto; lia.
    - split; [apply pass1_inv_init|]. left. simpl. lia. }
  destruct HQ as [_ [HQ|HQ]]; [|assumption].
  pose proof (pass1_run_done lines). lia.
Qed.

(** The first line is always kept. *)
Lemma pass1_first_line_kept (lines : list str) :
  lines <> [] -> In 0 (kept (pass1_run lines)).
Proof.
  intro Hne.
  assert (HQ : (p1_i (pass1_run lines) = 0
                /\ class_defs (pass1_run lines) = []
                /\ method_defs (pass1_run lines) = [])
               \/ In 0 (kept (pass1_run lines))).
  { unfold pass1_run.
    apply pass1_loop_inv
      with (P := fun st => (p1_i st = 0 /\ class_defs st = [] /\ method_defs st = [])
                           \/ In 0 (kept st)).
    - intros st HQ Hlt.
      destruct (pass1_step_cases lines st)
        as [[Hi [Hk _]]|[Hk [_ [_ Hi]]]]; rewrite Hk.
      + right. destruct HQ as [[H0 _]|HQ].
        * rewrite H0. apply in_app_iff. right. now left.
        * apply in_app_iff. now left.
      + destruct HQ as [[H0 [Hc Hm]]|HQ]; [|now right].
        exfalso. rewrite Hc, Hm in Hi.
        destruct Hi as [[n [_ [Hmem _]]]|[_ [[key Hmem] _]]]; discriminate.
    - left. auto. }
  destruct HQ as [[H0 _]|HQ]; [|assumption].
  pose proof (pass1_run_done lines).
  destruct lines; [congruence|simpl in *; lia].
Qed.

Lemma subseq_nil_l {A : Type} (l : list A) : subseq [] l.
Proof. induction l; constructor; assumption. Qed.

Lemma increasing_pred (ks : list nat) :
  Forall (fun k => 0 < k) ks -> increasing ks -> increasing (map pred ks).
Proof.
  induction ks as [|k ks IH]; simpl; intros Hp Hi; [exact I|].
  inversion Hp; subst. destruct Hi as [Hk Hi].
  split; [|now apply IH].
  apply Forall_map. rewrite Forall_forall in *. intros x Hx.
  specialize (Hk x Hx). lia.
Qed.

Lemma lines_at_cons_pos (x : str) (l : list str) (ks : list nat) :
  Forall (fun k => 0 < k) ks ->
  lines_at (x :: l) ks = lines_at l (map pred ks).
Proof.
  unfold lines_at. induction ks as [|k ks IH]; intro H; [reflexivity|].
  inversion H; subst. cbn [map]. rewrite IH by assumption.
  destruct k; [lia|reflexivity].
Qed.

(** The lines at increasing indices form a subsequence. *)
Lemma subseq_lines_at (l : list str) (ks : list nat) :
  increasing ks -> Forall (fun k => k < length l) ks ->
  subseq (lines_at l ks) l.
Proof.
  revert ks. induction l as [|x l IH]; intros ks Hi Hb.
  - destruct ks as [|k ks]; [constructor|].
    inversion Hb; subst. simpl in *. lia.
  - destruct ks as [|k ks]; [apply subseq_nil_l|].
    destruct Hi as [Hk Hi]. inversion Hb as [|? ? Hk0 Hb']; subst.
    assert (Hpos : Forall (fun k' => 0 < k') ks).
    { eapply Forall_impl; [|exact Hk]. simpl. intros. lia. }
    assert (Hb2 : Forall (fun k' => k' < length l) (map pred ks)).
    { apply Forall_map. rewrite Forall_forall in *. intros y Hy.
      specialize (Hb' y Hy). specialize (Hpos y Hy). simpl in *. lia. }
    destruct k as [|k].
    + change (lines_at (x :: l) (0 :: ks)) with (x :: lines_at (x :: l) ks).
      rewrite lines_at_cons_pos by assumption.
      apply subseq_take, IH; [now apply increasing_pred|assumption].
    + rewrite lines_at_cons_pos by (constructor; [lia|assumption]).
      apply subseq_skip, IH.
      * apply increasing_pred; [constructor; [lia|assumption]|].
        split; assumption.
      * simpl map. constructor; [simpl in *; lia|assumption].
Qed.

Lemma lines_at_no_nl (l : list str) (ks : list nat) :
  Forall (fun x => ~ In nl x) l -> Forall (fun x => ~ In nl x) (lines_at l ks).
Proof.
  intro H. unfold lines_at. apply Forall_map.
  apply Forall_forall. intros k _.
  destruct (Nat.lt_ge_cases k (length l)) as [Hk|Hk].
  - rewrite Forall_forall in H. apply H. now apply nth_In.
  - rewrite nth_overflow by assumption. intros [].
Qed.

(** The lines of the output of the first pass are the kept lines. *)
Lemma first_pass_lines (code : str) :
  Py.lines (first_pass code) =
  lines_at (Py.lines code) (kept (pass1_run (Py.lines code))).
Proof.
  unfold first_pass.
  rewrite (inv_fixed (pass1_run_inv (Py.lines code))).
  apply lines_unlines.
  - pose proof (pass1_first_line_kept (lines_not_nil code)) as H.
    destruct (kept (pass1_run (Py.lines code))); [destruct H|discriminate].
  - apply lines_at_no_nl, lines_no_nl.
Qed.

Lemma kept_in_range (lines : list str) :
  Forall (fun k => k < length lines) (kept (pass1_run lines)).
Proof.
  pose proof (pass1_run_inv lines) as Hinv.
  eapply Forall_lt_weaken; [|apply (inv_kept_below Hinv)].
  apply (inv_bound Hinv).
Qed.




(** C10 (amended). The first pass of the conflict resolver only deletes
    whole lines: the lines of its output are the kept lines of the input,
    a subsequence of the input lines; and the first class header of a
    name is kept whenever that line has no indentation.  (An indented
    first header inside the span of a repeated definition is deleted with
    the span.) *)
Theorem first_pass_deletes_whole_lines (code : str) :
  let inp := Py.lines code in
  let out := Py.lines (first_pass code) in
  out = lines_at inp (kept (pass1_run inp))
  /\ subseq out inp
  /\ forall i name,
       i < length inp ->
       header_name (nth i inp []) = Some name ->
       Py.indent (nth i inp []) = 0 ->
       (forall k, k < i -> header_name (nth k inp []) <> Some name) ->
       In i (kept (pass1_run inp)).
Proof.
  intros inp out. subst out. rewrite first_pass_lines. fold inp.
  split; [reflexivity|]. split.
  - apply subseq_lines_at.
    + apply (inv_kept_increasing (pass1_run_inv inp)).
    + apply kept_in_range.
  - intros i name Hlen Hh Hind Hfirst.
    now apply pass1_first_header_kept with (n := name).
Qed.

Lemma first_pass_deletes_whole_lines_witness :
  In 0 (kept (pass1_run (Py.lines class_defined_twice))).
Proof.
  apply (proj2 (proj2 (first_pass_deletes_whole_lines class_defined_twice))
           0 (lit "A")).
  - vm_compute. lia.
  - vm_compute. reflexivity.
  - vm_compute. reflexivity.
  - intros k Hk. lia.
Defined.

(** C10, as stated, fails: the only class header of
    [class_in_repeated_def] is the first of its name and is deleted with
    the span of the repeated function. *)
Lemma first_headers_not_always_retained :
  ~ first_headers_retained class_in_repeated_def.
Proof.
  intro H. specialize (H 3 (lit "A")).
  assert (Hin : In 3 (kept (pass1_run (Py.lines class_in_repeated_def)))).
  { apply H.
    - vm_compute. lia.
    - vm_compute. reflexivity.
    - intros k Hk.
      destruct k as [|[|[|k]]]; [vm_compute; discriminate ..|lia]. }
  vm_compute in Hin. intuition discriminate.
Qed.





(** ** The matcher on literal text and on a lazy repetition *)

Lemma startswith_app (l r : str) : Py.startswith l (l ++ r) = true.
Proof.
  induction l as [|x l IH]; [reflexivity|].
  simpl. now rewrite Ascii.eqb_refl, IH.
Qed.

Lemma startswith_app_long (p a x : str) :
  length p <= length a -> Py.startswith p (a ++ x) = Py.startswith p a.
Proof.
  revert a. induction p as [|c p IH]; intros a H; [reflexivity|].
  destruct a as [|y a]; [simpl in H; lia|].
  simpl. rewrite IH by (simpl in H; lia). reflexivity.
Qed.

Lemma skipn_app_exact {A : Type} (l r : list A) : skipn (length l) (l ++ r) = r.
Proof. induction l; simpl; auto. Qed.

Lemma contains_startswith (p s : str) :
  Py.contains p s = false -> Py.startswith p s = false.
Proof.
  destruct s; simpl; intro H; apply orb_false_iff in H; tauto.
Qed.

Lemma contains_suffix (p a b : str) :
  Py.contains p (a ++ b) = false -> Py.contains p b = false.
Proof.
  induction a as [|x a IH]; [auto|].
  simpl. intro H. apply orb_false_iff in H. tauto.
Qed.

(** [run] on a literal: the literal is a prefix of the rest, or the match
    fails. *)
Lemma run_text (l : str) (p : nat) (s : str) (c : caps) (k : kont) :
  run (text l) p s c k =
  if Py.startswith l s then k (p + length l) (skipn (length l) s) c else None.
Proof.
  revert p s. induction l as [|x l IH]; intros p s.
  - simpl. now rewrite Nat.add_0_r.
  - destruct l as [|y l].
    + destruct s as [|a s]; [reflexivity|].
      cbn [text chr run Py.startswith length skipn].
      rewrite andb_true_r, Nat.add_1_r. destruct s; reflexivity.
    + change (text (x :: y :: l)) with (Cat (chr x) (text (y :: l))).
      destruct s as [|a s]; [reflexivity|].
      cbn [run chr]. cbn [Py.startswith].
      destruct (Ascii.eqb x a); [|reflexivity].
      rewrite IH. cbn [andb].
      replace (S p + length (y :: l)) with (p + length (x :: y :: l))
        by (simpl; lia).
      reflexivity.
Qed.

(** A lazy [any] repetition stops at the first offset where the
    continuation succeeds. *)
Lemma lazy_any_find (k : kont) (body rest : str) (n p : nat) (c : caps)
  (x : nat * caps) :
  length (body ++ rest) <= n ->
  (forall b1 b2, body = b1 ++ b2 -> b2 <> [] ->
                 k (p + length b1) (b2 ++ rest) c = None) ->
  k (p + length body) rest c = Some x ->
  rep_loop (run any) false k n p (body ++ rest) c = Some x.
Proof.
  revert n p. induction body as [|a body IH]; intros n p Hn Hfail Hok.
  - simpl in *. rewrite Nat.add_0_r in Hok.
    destruct n; simpl; now rewrite Hok.
  - destruct n as [|n]; [simpl in Hn; lia|].
    cbn [rep_loop].
    pose proof (Hfail [] (a :: body) eq_refl ltac:(discriminate)) as H0.
    simpl in H0. rewrite Nat.add_0_r in H0.
    change ((a :: body) ++ rest) with (a :: body ++ rest).
    rewrite H0. cbn [run any].
    assert (Hlt : (p <? S p) = true) by (apply Nat.ltb_lt; lia).
    rewrite Hlt. apply IH.
    + simpl in Hn. lia.
    + intros b1 b2 Hb Hne.
      replace (S p + length b1) with (p + length (a :: b1)) by (simpl; lia).
      apply Hfail; [now rewrite Hb|assumption].
    + replace (S p + length body) with (p + length (a :: body)) by (simpl; lia).
      assumption.
Qed.

(** ** The fence pattern *)

Lemma match_at_fence_fail (ma : bool) (p : nat) (s : str) :
  Py.startswith fence s = false -> match_at fence_re ma p s = None.
Proof.
  intro H. unfold match_at, fence_re. cbn [seq run].
  rewrite run_text, H. reflexivity.
Qed.

Lemma fence_free_suffix (b1 b2 rest : str) :
  fence_free (b1 ++ b2) -> b2 <> [] ->
  Py.startswith fence (b2 ++ fence ++ rest) = false.
Proof.
  unfold fence_free. intros H Hne.
  rewrite <- app_assoc in H. apply contains_suffix in H.
  apply contains_startswith in H.
  change (fence ++ rest) with (lit "``" ++ (lit "`" ++ rest)).
  rewrite app_assoc, startswith_app_long; [assumption|].
  destruct b2; [congruence|]. rewrite length_app. simpl. lia.
Qed.

(** The part of the pattern after the tag: the newline, the lazy group
    and the closing fence. *)
Lemma run_fence_body (body rest : str) (q : nat) (c : caps) :
  fence_free body ->
  run (seq [chr nl; Grp 1 (lazy any); text fence]) q
      (nl :: body ++ fence ++ rest) c
      (fun p' _ c' => Some (p', c'))
  = Some (q + 1 + length body + 3, (1, (q + 1, q + 1 + length body)) :: c).
Proof.
  intro Hfree. cbn [seq run chr lazy].
  rewrite Ascii.eqb_refl.
  erewrite lazy_any_find.
  - reflexivity.
  - lia.
  - intros b1 b2 Hb Hne. rewrite run_text.
    rewrite (@fence_free_suffix b1 b2 rest); [reflexivity| |assumption].
    now rewrite <- Hb.
  - rewrite run_text, startswith_app.
    change (length fence) with 3. rewrite Nat.add_1_r.
    reflexivity.
Qed.

(** The pattern at the opening fence of a block. *)
Lemma match_at_fence_block (tag body rest : str) (p : nat) :
  fence_tag tag -> fence_free body ->
  match_at fence_re false p (fence ++ tag ++ nl :: body ++ fence ++ rest)
  = Some (p, p + 3 + length tag + 1 + length body + 3,
          [(1, (p + 3 + length tag + 1, p + 3 + length tag + 1 + length body))]).
Proof.
  intros Htag Hfree. unfold match_at, fence_re.
  change (seq [text fence; opt (txt "python"); chr nl; Grp 1 (lazy any); text fence])
    with (Cat (text fence)
            (Cat (opt (txt "python"))
               (seq [chr nl; Grp 1 (lazy any); text fence]))).
  cbn [run]. rewrite run_text, startswith_app, skipn_app_exact.
  change (length fence) with 3. cbn [andb opt run].
  destruct Htag as [-> | ->].
  - change (run (txt "python") (p + 3) ([] ++ nl :: body ++ fence ++ rest) []
              (fun p' s' c' =>
                 run (seq [chr nl; Grp 1 (lazy any); text fence]) p' s' c'
                   (fun p'0 _ c'0 => Some (p'0, c'0))))
      with (@None (nat * caps)).
    cbn [app]. rewrite run_fence_body by assumption.
    cbn [length]. now rewrite Nat.add_0_r.
  - unfold txt. rewrite run_text, startswith_app, skipn_app_exact.
    rewrite run_fence_body by assumption. reflexivity.
Qed.

Lemma search_from_fence_none (s : str) (p : nat) :
  Py.contains fence s = false -> search_from fence_re false p s = None.
Proof.
  revert p. induction s as [|a s IH]; intros p H.
  - reflexivity.
  - cbn [search_from].
    rewrite match_at_fence_fail by now apply contains_startswith.
    apply IH. simpl in H. apply orb_false_iff in H. tauto.
Qed.

(** The search passes a gap without marker. *)
Lemma search_from_fence_gap (gap rest : str) (p : nat) :
  fence_free gap ->
  search_from fence_re false p (gap ++ fence ++ rest)
  = search_from fence_re false (p + length gap) (fence ++ rest).
Proof.
  revert p. induction gap as [|a gap IH]; intros p H.
  - simpl. now rewrite Nat.add_0_r.
  - change ((a :: gap) ++ fence ++ rest) with (a :: gap ++ fence ++ rest).
    cbn [search_from].
    rewrite match_at_fence_fail.
    + rewrite IH.
      * f_equal. simpl. lia.
      * unfold fence_free in *. simpl in H. apply orb_false_iff in H. tauto.
    + apply (@fence_free_suffix [] (a :: gap) rest); [assumption|discriminate].
Qed.

Lemma search_from_hit (r : regex) (p : nat) (s : str) (m : mtch) :
  match_at r false p s = Some m -> search_from r false p s = Some m.
Proof.
  intro H. destruct s; simpl; now rewrite H.
Qed.

Lemma fenced_length (blocks : list (str * str * str)) (post : str) :
  length blocks <= length (fenced blocks post).
Proof.
  induction blocks as [|[[gap tag] body] blocks IH]; cbn [fenced length]; [lia|].
  repeat (rewrite length_app; cbn [length]). lia.
Qed.

Lemma slice_middle (x y z : str) :
  slice (x ++ y ++ z) (length x) (length x + length y) = y.
Proof.
  unfold slice. rewrite skipn_app_exact.
  replace (length x + length y - length x) with (length y) by lia.
  rewrite firstn_app, firstn_all, Nat.sub_diag. simpl. apply app_nil_r.
Qed.

(** The matches of the fence pattern in a text made of fenced blocks, the
    text standing at offset [length prefix] of the subject: their first
    groups are the bodies, in order. *)
Lemma finditer_fenced (blocks : list (str * str * str)) (post prefix : str)
  (fuel : nat) :
  Forall well_fenced blocks ->
  Py.contains fence post = false ->
  length blocks < fuel ->
  map (fun m => group (prefix ++ fenced blocks post) m 1)
      (finditer_from fuel fence_re false (length prefix) (fenced blocks post))
  = map block_body blocks.
Proof.
  revert prefix fuel.
  induction blocks as [|[[gap tag] body] blocks IH];
    intros prefix fuel Hwf Hpost Hfuel.
  - destruct fuel; [simpl in Hfuel; lia|].
    simpl. now rewrite search_from_fence_none.
  - destruct fuel as [|fuel]; [simpl in Hfuel; lia|].
    inversion Hwf as [|? ? [Hgap [Htag Hbody]] Hwf']; subst.
    simpl in Hgap, Htag, Hbody.
    cbn [fenced finditer_from].
    rewrite search_from_fence_gap by assumption.
    rewrite (@search_from_hit _ _ _ _
               (@match_at_fence_block tag body (fenced blocks post)
                  (length prefix + length gap) Htag Hbody)).
    cbn [mend mstart fst snd map block_body].
    set (b := length prefix + length gap + 3 + length tag + 1).
    assert (Hne : (b + length body + 3 =? length prefix + length gap) = false)
      by (apply Nat.eqb_neq; lia).
    rewrite Hne.
    assert (Hskip :
      skipn (b + length body + 3 - length prefix)
            (gap ++ fence ++ tag ++ nl :: body ++ fence ++ fenced blocks post)
      = fenced blocks post).
    { replace (gap ++ fence ++ tag ++ nl :: body ++ fence ++ fenced blocks post)
        with ((gap ++ fence ++ tag ++ nl :: body ++ fence) ++ fenced blocks post)
        by (repeat first [rewrite <- app_assoc | progress cbn [app]]; reflexivity).
      replace (b + length body + 3 - length prefix)
        with (length (gap ++ fence ++ tag ++ nl :: body ++ fence)).
      - apply skipn_app_exact.
      - repeat (rewrite length_app; cbn [length]).
        change (length fence) with 3. lia. }
    rewrite Hskip.
    f_equal.
    + unfold group. cbn [lookup Nat.eqb snd].
      replace (prefix ++ gap ++ fence ++ tag ++ nl :: body ++ fence ++ fenced blocks post)
        with ((prefix ++ gap ++ fence ++ tag ++ [nl]) ++ body
                ++ (fence ++ fenced blocks post))
        by (repeat first [rewrite <- app_assoc | progress cbn [app]]; reflexivity).
      replace b with (length (prefix ++ gap ++ fence ++ tag ++ [nl]))
        by (repeat (rewrite length_app; cbn [length]);
            change (length fence) with 3; lia).
      apply slice_middle.
    + replace (prefix ++ gap ++ fence ++ tag ++ nl :: body ++ fence ++ fenced blocks post)
        with ((prefix ++ gap ++ fence ++ tag ++ nl :: body ++ fence)
                ++ fenced blocks post)
        by (repeat first [rewrite <- app_assoc | progress cbn [app]]; reflexivity).
      replace (b + length body + 3)
        with (length (prefix ++ gap ++ fence ++ tag ++ nl :: body ++ fence)).
      * apply IH; auto. simpl in Hfuel. lia.
      * repeat (rewrite length_app; cbn [length]).
        change (length fence) with 3. lia.
Qed.

(** [re.findall] of the fence pattern on a text made of fenced blocks
    returns the bodies. *)
Lemma findall_fenced (blocks : list (str * str * str)) (post : str) :
  Forall well_fenced blocks ->
  Py.contains fence post = false ->
  findall1 fence_re (fenced blocks post) = map block_body blocks.
Proof.
  intros Hwf Hpost. unfold findall1, finditer.
  apply (@finditer_fenced blocks post [] _ Hwf Hpost).
  pose proof (fenced_length blocks post). lia.
Qed.

(** ** The block locator on fenced blocks *)

Lemma lines_app_nl (a b : str) :
  Py.lines (a ++ nl :: b) = Py.lines a ++ Py.lines b.
Proof.
  induction a as [|c a IH].
  - simpl app. now rewrite lines_cons, Ascii.eqb_refl.
  - change ((c :: a) ++ nl :: b) with (c :: a ++ nl :: b).
    rewrite !lines_cons, IH.
    destruct (Ascii.eqb nl c); [reflexivity|].
    pose proof (lines_not_nil a) as Hn.
    destruct (Py.lines a); [congruence|reflexivity].
Qed.

Lemma dropwhile_head (f : ascii -> bool) (s t : str) (a : ascii) :
  Py.dropwhile f s = a :: t -> f a = false.
Proof.
  induction s as [|c s IH]; simpl; [discriminate|].
  destruct (f c) eqn:E; [assumption|].
  intro H. inversion H; subst. assumption.
Qed.

(** A stripped string does not end with a newline. *)
Lemma strip_no_final_newline (s t : str) : Py.strip s <> t ++ [nl].
Proof.
  unfold Py.strip, Py.rstrip. intro H.
  apply (f_equal (@rev ascii)) in H.
  rewrite rev_involutive, rev_app_distr in H. simpl in H.
  apply dropwhile_head in H. discriminate H.
Qed.

(** C8 (amended). For every text with exactly one fenced block (a gap
    without fence marker, an opening fence with no tag or the tag
    [python] and a newline, a body without marker, a closing fence, a
    rest without marker), [extract_code_blocks] with cleaning disabled
    returns exactly the body: the text between the newline of the opening
    fence and the closing fence, not trimmed. *)
Theorem extract_single_fenced_block (gap tag body post : str) :
  fence_free gap -> fence_tag tag -> fence_free body ->
  Py.contains fence post = false ->
  extract_code_blocks (gap ++ fence ++ tag ++ nl :: body ++ fence ++ post) false
  = body.
Proof.
  intros Hgap Htag Hbody Hpost.
  change (gap ++ fence ++ tag ++ nl :: body ++ fence ++ post)
    with (fenced [(gap, tag, body)] post).
  unfold extract_code_blocks.
  rewrite findall_fenced; [reflexivity| |assumption].
  constructor; [|constructor]. repeat split; assumption.
Qed.

Lemma extract_single_fenced_block_witness :
  extract_code_blocks
    ((lit "Here is the code:" ++ [nl]) ++ fence ++ lit "python"
       ++ nl :: (lit "x = 1" ++ [nl]) ++ fence ++ [])
    false
  = lit "x = 1" ++ [nl].
Proof.
  apply (@extract_single_fenced_block
           (lit "Here is the code:" ++ [nl]) (lit "python")
           (lit "x = 1" ++ [nl]) []).
  - vm_compute. reflexivity.
  - right. reflexivity.
  - vm_compute. reflexivity.
  - vm_compute. reflexivity.
Defined.

(** C8, as stated, fails: on a reply with one fenced block the locator
    returns the body with its final newline, which is the trimmed form of
    no text. *)
Lemma extract_not_trimmed :
  extract_code_blocks one_block_reply false = lit "x = 1" ++ [nl]
  /\ forall inner, ~ returns_trimmed one_block_reply inner.
Proof.
  assert (E : extract_code_blocks one_block_reply false = lit "x = 1" ++ [nl])
    by (vm_compute; reflexivity).
  split; [exact E|].
  intros inner H. unfold returns_trimmed in H. rewrite E in H.
  symmetry in H. exact (strip_no_final_newline _ _ H).
Qed.




(** ** The constructor spans *)

Lemma dict_set_In {V : Type} (k : str) (w : V) (d : dict V) (c : str) (v : V) :
  In (c, v) (dict_set k w d) -> In (c, v) d \/ v = w.
Proof.
  induction d as [|[k0 v0] d IH]; simpl.
  - intros [H|[]]. inversion H. now right.
  - destruct (Py.eqb k k0).
    + intros [H|H]; [inversion H; now right|left; now right].
    + intros [H|H]; [left; now left|].
      destruct (IH H); [left; now right|now right].
Qed.

Lemma dict_get_In {V : Type} (k : str) (d : dict V) (v : V) :
  dict_get k d = Some v -> exists k', In (k', v) d.
Proof.
  induction d as [|[k0 v0] d IH]; simpl; [discriminate|].
  destruct (Py.eqb k k0).
  - intro H. inversion H; subst. exists k0. now left.
  - intro H. destruct (IH H) as [k' Hk']. exists k'. now right.
Qed.

Lemma dict_append_In (k : str) (v : init_span) (d : dict (list init_span))
  (c : str) (l' : list init_span) :
  In (c, l') (dict_append k v d) ->
  In (c, l') d \/ (exists c0 l, In (c0, l) d /\ l' = l ++ [v]) \/ l' = [v].
Proof.
  unfold dict_append. destruct (dict_get k d) as [l|] eqn:E.
  - intro H. apply dict_set_In in H. destruct H as [H| ->]; [now left|].
    right. left. destruct (dict_get_In _ _ E) as [k' Hk']. eauto.
  - intro H. apply in_app_iff in H. destruct H as [H|[H|[]]]; [now left|].
    inversion H. now right; right.
Qed.

(** One iteration of the scan: the index advances by one line, or a span
    that starts at the index is recorded and the index moves to its end. *)
Lemma init_step_cases (lines : list str) (st : init_state) :
  let i := fi_i st in
  let st' := init_step lines st in
  (fi_i st' = S i /\ init_methods st' = init_methods st)
  \/ exists cls j text,
       j = span_end (in_method_span (Py.indent (nth i lines []))) lines i
       /\ fi_i st' = j
       /\ init_methods st' =
          dict_append cls {| span_start := i; span_stop := j; span_text := text |}
            (init_methods st).
Proof.
  intros i st'. subst st'. unfold init_step. fold i.
  destruct (match match_group1 class_name_re (Py.strip (nth i lines [])) with
            | Some name => Some name
            | None => fi_class_name st
            end) as [cls|]; [|left; split; reflexivity].
  destruct (matches init_re (Py.strip (nth i lines [])) && nonempty cls).
  - right. eexists cls, _, _. cbn. repeat split.
  - left. split; reflexivity.
Qed.

Lemma init_loop_inv (lines : list str) (P : init_state -> Prop) :
  (forall st, P st -> fi_i st < length lines -> P (init_step lines st)) ->
  forall fuel st, P st -> P (init_loop fuel lines st).
Proof.
  intros Hstep fuel. induction fuel as [|fuel IH]; intros st HP; simpl; [assumption|].
  destruct (fi_i st <? length lines) eqn:E; [|assumption].
  apply IH, Hstep; [assumption|]. now apply Nat.ltb_lt.
Qed.

Lemma init_step_progress (lines : list str) (st : init_state) :
  fi_i st < fi_i (init_step lines st).
Proof.
  destruct (init_step_cases lines st) as [[H _]|[cls [j [text [Hj [H _]]]]]];
    rewrite H; [lia|]. subst j. apply span_end_gt.
Qed.

(** The fuel is enough for the scan to reach the last line. *)
Lemma init_loop_done (lines : list str) (fuel : nat) (st : init_state) :
  length lines <= fi_i st + fuel ->
  length lines <= fi_i (init_loop fuel lines st).
Proof.
  revert st. induction fuel as [|fuel IH]; intros st H; simpl; [lia|].
  destruct (fi_i st <? length lines) eqn:E.
  - apply IH. pose proof (init_step_progress lines st). lia.
  - apply Nat.ltb_ge in E. assumption.
Qed.

Lemma chain_snoc (l : list init_span) (v : init_span) :
  chain l -> Forall (fun x => span_stop x <= span_start v) l -> chain (l ++ [v]).
Proof.
  induction l as [|x l IH]; simpl; intros Hc Hb.
  - split; [constructor|exact I].
  - destruct Hc as [Hx Hc]. inversion Hb; subst.
    split; [|now apply IH].
    apply Forall_app. split; [assumption|]. constructor; [assumption|constructor].
Qed.

Lemma init_inv_step (lines : list str) (st : init_state) :
  init_inv lines st -> fi_i st < length lines ->
  init_inv lines (init_step lines st).
Proof.
  intros [Hb Hs] Hlt.
  destruct (init_step_cases lines st)
    as [[Hi Hm]|[cls [j [text [Hj [Hi Hm]]]]]].
  - constructor; rewrite ?Hi, ?Hm; [lia|].
    intros c l Hin. destruct (Hs c l Hin) as [Hc Hf]. split; [assumption|].
    eapply Forall_impl; [|exact Hf]. simpl. intros x [H1 H2]. lia.
  - assert (Hgt : fi_i st < j) by (subst j; apply span_end_gt).
    assert (Hle : j <= length lines) by (subst j; now apply span_end_le_length).
    constructor; rewrite ?Hi, ?Hm; [assumption|].
    assert (Hold : forall c l, In (c, l) (init_methods st) ->
              chain l /\ Forall (fun x => span_start x < span_stop x
                                          /\ span_stop x <= j) l).
    { intros c l Hin. destruct (Hs c l Hin) as [Hc Hf]. split; [assumption|].
      eapply Forall_impl; [|exact Hf]. simpl. intros x [H1 H2]. lia. }
    intros c l' Hin. apply dict_append_In in Hin.
    destruct Hin as [Hin|[[c0 [l [Hin ->]]]| ->]].
    + now apply (Hold c).
    + destruct (Hs c0 l Hin) as [Hc Hf]. split.
      * apply chain_snoc; [assumption|].
        eapply Forall_impl; [|exact Hf]. simpl. intros x [H1 H2]. lia.
      * apply Forall_app. split; [now apply (Hold c0)|].
        constructor; [simpl; lia|constructor].
    + split; [simpl; split; [constructor|exact I]|].
      constructor; [simpl; lia|constructor].
Qed.

(** The spans of every class are in increasing order, do not overlap and
    end within the text. *)
Lemma find_inits_spans (lines : list str) (c : str) (l : list init_span) :
  In (c, l) (find_inits lines) ->
  chain l
  /\ Forall (fun x => span_start x < span_stop x
                      /\ span_stop x <= length lines) l.
Proof.
  unfold find_inits. intro Hin.
  assert (Hinv : init_inv lines
                   (init_loop (length lines) lines
                      {| fi_i := 0; fi_class_name := None; init_methods := [] |})).
  { apply init_loop_inv with (P := init_inv lines).
    - apply init_inv_step.
    - constructor; simpl; [lia|]. intros ? ? []. }
  destruct (ii_spans Hinv _ _ Hin) as [Hc Hf]. split; [assumption|].
  eapply Forall_impl; [|exact Hf]. simpl. intros x [H1 H2].
  pose proof (ii_bound Hinv). lia.
Qed.

(** ** Deleting spans from the last to the first *)

Lemma sort_desc_from (l acc : list init_span) :
  chain l ->
  Forall (fun x => span_start x < span_stop x) l ->
  Forall (fun y => Forall (fun a => span_start a < span_start y) acc) l ->
  fold_left (fun acc x => insert_desc x acc) l acc = rev l ++ acc.
Proof.
  revert acc. induction l as [|x l IH]; intros acc Hc Hp Ha; [reflexivity|].
  destruct Hc as [Hx Hc]. inversion Hp; subst. inversion Ha as [|? ? Hax Ha']; subst.
  cbn [fold_left].
  assert (E : insert_desc x acc = x :: acc).
  { destruct acc as [|a acc]; [reflexivity|].
    simpl. inversion Hax; subst.
    assert (Hlt : (span_start a <? span_start x) = true)
      by now apply Nat.ltb_lt.
    now rewrite Hlt. }
  rewrite E, IH; auto.
  - simpl. now rewrite <- app_assoc.
  - rewrite Forall_forall in *. intros y Hy. constructor.
    + specialize (Hx y Hy). lia.
    + now apply Ha'.
Qed.

(** On spans in increasing order the descending sort is the reversal. *)
Lemma sort_desc_chain (l : list init_span) :
  chain l -> Forall (fun x => span_start x < span_stop x) l ->
  sort_desc l = rev l.
Proof.
  intros Hc Hp. unfold sort_desc. rewrite sort_desc_from; auto.
  - apply app_nil_r.
  - apply Forall_forall. intros. constructor.
Qed.

Lemma chain_filter (f : init_span -> bool) (l : list init_span) :
  chain l -> chain (filter f l).
Proof.
  induction l as [|x l IH]; simpl; [auto|].
  intros [Hx Hc]. destruct (f x); [|auto].
  simpl. split; [|auto].
  apply Forall_forall. intros y Hy. apply filter_In in Hy.
  rewrite Forall_forall in Hx. apply Hx. tauto.
Qed.

Lemma Forall_filter {A : Type} (P : A -> Prop) (f : A -> bool) (l : list A) :
  Forall P l -> Forall P (filter f l).
Proof.
  intro H. apply Forall_forall. intros x Hx. apply filter_In in Hx.
  rewrite Forall_forall in H. apply H. tauto.
Qed.

Lemma chain_snoc_inv (l : list init_span) (x : init_span) :
  chain (l ++ [x]) ->
  chain l /\ Forall (fun y => span_stop y <= span_start x) l.
Proof.
  induction l as [|y l IH]; simpl; [intros; split; [exact I|constructor]|].
  intros [Hy Hc]. destruct (IH Hc) as [Hc' Hf].
  apply Forall_app in Hy. destruct Hy as [Hy Hyx]. inversion Hyx; subst.
  repeat split; auto.
Qed.

Lemma covered_snoc (l : list init_span) (x : init_span) (j : nat) :
  covered (l ++ [x]) j = covered l j || in_span x j.
Proof.
  unfold covered. rewrite existsb_app. simpl. now rewrite orb_false_r.
Qed.

Lemma covered_below (l : list init_span) (b j : nat) :
  Forall (fun y => span_stop y <= b) l -> b <= j -> covered l j = false.
Proof.
  intros H Hj. unfold covered.
  induction l as [|y l IH]; [reflexivity|].
  inversion H; subst. simpl. rewrite IH by assumption.
  unfold in_span.
  assert (E : (j <? span_stop y) = false) by (apply Nat.ltb_ge; lia).
  rewrite E. now rewrite andb_false_r.
Qed.

Lemma drop_covered_app (l : list init_span) (k : nat) (a b : list str) :
  drop_covered l k (a ++ b) =
  drop_covered l k a ++ drop_covered l (k + length a) b.
Proof.
  revert k. induction a as [|x a IH]; intro k; simpl.
  - now rewrite Nat.add_0_r.
  - rewrite IH. replace (S k + length a) with (k + S (length a)) by lia.
    destruct (covered l k); reflexivity.
Qed.

Lemma drop_covered_none (l : list init_span) (k : nat) (b : list str) :
  (forall j, k <= j -> covered l j = false) -> drop_covered l k b = b.
Proof.
  revert k. induction b as [|x b IH]; intros k H; simpl; [reflexivity|].
  rewrite H by lia. f_equal. apply IH. intros. apply H. lia.
Qed.

Lemma drop_covered_all (l : list init_span) (k : nat) (m : list str) :
  (forall j, k <= j -> j < k + length m -> covered l j = true) ->
  drop_covered l k m = [].
Proof.
  revert k. induction m as [|x m IH]; intros k H; simpl; [reflexivity|].
  rewrite H by (simpl; lia). apply IH. intros. apply H; simpl; lia.
Qed.

Lemma drop_covered_ext (l l' : list init_span) (k : nat) (a : list str) :
  (forall j, k <= j -> j < k + length a -> covered l j = covered l' j) ->
  drop_covered l k a = drop_covered l' k a.
Proof.
  revert k. induction a as [|x a IH]; intros k H; simpl; [reflexivity|].
  rewrite H by (simpl; lia). rewrite IH; [reflexivity|].
  intros. apply H; simpl; lia.
Qed.

Lemma three_parts {A : Type} (l : list A) (s e : nat) :
  s <= e ->
  l = firstn s l ++ firstn (e - s) (skipn s l) ++ skipn e l.
Proof.
  intro H.
  rewrite <- (firstn_skipn s l) at 1. f_equal.
  rewrite <- (firstn_skipn (e - s) (skipn s l)) at 1. f_equal.
  rewrite skipn_skipn. f_equal. lia.
Qed.

(** Cutting one span that lies after all spans of [l0]. *)
Lemma drop_covered_cut (l0 : list init_span) (x : init_span) (lines : list str) :
  Forall (fun y => span_stop y <= span_start x) l0 ->
  span_start x < span_stop x -> span_stop x <= length lines ->
  drop_covered l0 0 (cut lines x) = drop_covered (l0 ++ [x]) 0 lines.
Proof.
  intros Hl0 Hlt Hle. unfold cut.
  set (a := firstn (span_start x) lines).
  set (m := firstn (span_stop x - span_start x) (skipn (span_start x) lines)).
  set (b := skipn (span_stop x) lines).
  assert (Ha : length a = span_start x)
    by (subst a; rewrite length_firstn; lia).
  assert (Hm : length m = span_stop x - span_start x)
    by (subst m; rewrite length_firstn, length_skipn; lia).
  rewrite (@three_parts _ lines (span_start x) (span_stop x)) at 1 by lia.
  fold a m b.
  rewrite !drop_covered_app. cbn [Nat.add]. rewrite Ha, Hm.
  rewrite (@drop_covered_none l0 (span_start x) b)
    by (intros j Hj; eapply covered_below; eassumption).
  rewrite (@drop_covered_all (l0 ++ [x]) (span_start x) m).
  2:{ intros j H1 H2. rewrite covered_snoc. unfold in_span.
      assert (E1 : (span_start x <=? j) = true) by (apply Nat.leb_le; lia).
      assert (E2 : (j <? span_stop x) = true) by (apply Nat.ltb_lt; lia).
      rewrite E1, E2. apply orb_true_r. }
  rewrite (@drop_covered_none (l0 ++ [x]) (span_start x + (span_stop x - span_start x)) b).
  2:{ intros j Hj. rewrite covered_snoc.
      rewrite (@covered_below l0 (span_start x) j) by (auto; lia).
      unfold in_span.
      assert (E2 : (j <? span_stop x) = false) by (apply Nat.ltb_ge; lia).
      rewrite E2. now rewrite andb_false_r. }
  cbn [app]. f_equal.
  apply drop_covered_ext. intros j H1 H2. rewrite covered_snoc.
  unfold in_span.
  assert (E1 : (span_start x <=? j) = false) by (apply Nat.leb_gt; lia).
  rewrite E1. cbn [andb]. now rewrite orb_false_r.
Qed.

Lemma cut_length (lines : list str) (x : init_span) :
  span_start x <= length lines ->
  span_start x <= length (cut lines x).
Proof.
  intro H. unfold cut. rewrite length_app, length_firstn. lia.
Qed.

(** Cutting the spans of [l] from the last to the first leaves the lines
    that lie in none of them. *)
Lemma fold_cut_rev (l : list init_span) (lines : list str) :
  chain l ->
  Forall (fun x => span_start x < span_stop x
                   /\ span_stop x <= length lines) l ->
  fold_left cut (rev l) lines = drop_covered l 0 lines.
Proof.
  revert lines. induction l as [|x l IH] using rev_ind; intros lines Hc Hf.
  - simpl. symmetry. apply drop_covered_none. reflexivity.
  - rewrite rev_app_distr. cbn [rev app fold_left].
    apply chain_snoc_inv in Hc. destruct Hc as [Hc Hb].
    apply Forall_app in Hf. destruct Hf as [Hf Hx].
    inversion Hx as [|? ? [Hx1 Hx2] _]; subst.
    rewrite IH.
    + now apply drop_covered_cut.
    + assumption.
    + rewrite Forall_forall in *. intros y Hy.
      destruct (Hf y Hy) as [H1 H2]. specialize (Hb y Hy).
      split; [assumption|].
      pose proof (@cut_length lines x ltac:(lia)). lia.
Qed.

(** ** The choice of the constructor that is kept *)

Lemma key_ltb_spec (a b : nat * nat) :
  key_ltb a b = true <->
  fst a < fst b \/ (fst a = fst b /\ snd a < snd b).
Proof.
  unfold key_ltb.
  rewrite orb_true_iff, andb_true_iff, !Nat.ltb_lt, Nat.eqb_eq. tauto.
Qed.

Lemma key_ltb_false (a b : nat * nat) :
  key_ltb a b = false <->
  fst b < fst a \/ (fst a = fst b /\ snd b <= snd a).
Proof.
  destruct (key_ltb a b) eqn:E.
  - apply key_ltb_spec in E. split; [discriminate|lia].
  - split; [intros _|reflexivity].
    destruct (Nat.lt_trichotomy (fst a) (fst b)) as [H|[H|H]].
    + assert (key_ltb a b = true) by (apply key_ltb_spec; lia). congruence.
    + destruct (Nat.le_gt_cases (snd b) (snd a)); [lia|].
      assert (key_ltb a b = true) by (apply key_ltb_spec; lia). congruence.
    + lia.
Qed.

(** [max_from] returns the first of the entries with the greatest key. *)
Lemma max_from_spec (rest : list init_span) (best : init_span) :
  exists r1 r2,
    best :: rest = r1 ++ max_from best rest :: r2
    /\ Forall (fun x => key_ltb (init_key x) (init_key (max_from best rest)) = true) r1
    /\ Forall (fun x => key_ltb (init_key (max_from best rest)) (init_key x) = false) r2.
Proof.
  revert best. induction rest as [|x rest IH]; intro best.
  - exists [], []. simpl. repeat split; constructor.
  - cbn [max_from].
    destruct (key_ltb (init_key best) (init_key x)) eqn:E.
    + destruct (IH x) as [r1 [r2 [Heq [H1 H2]]]].
      exists (best :: r1), r2. split; [simpl; now rewrite Heq|]. split; [|assumption].
      constructor; [|assumption].
      destruct r1 as [|y r1].
      * simpl in Heq. injection Heq as Hx Hr. congruence.
      * simpl in Heq. injection Heq as Hy Hr. subst y.
        inversion H1 as [|? ? Hxm H1']. subst.
        apply key_ltb_spec in E. apply key_ltb_spec in Hxm.
        apply key_ltb_spec. lia.
    + destruct (IH best) as [r1 [r2 [Heq [H1 H2]]]].
      destruct r1 as [|y r1].
      * simpl in Heq. injection Heq as Hb Hr.
        exists [], (x :: rest). split; [simpl; congruence|].
        split; [constructor|]. constructor; [congruence|].
        rewrite <- Hr in H2. assumption.
      * simpl in Heq. injection Heq as Hy Hr. subst y.
        exists (best :: x :: r1), r2. split; [simpl; congruence|].
        split; [|assumption].
        inversion H1 as [|? ? Hbm H1']. subst.
        constructor; [assumption|]. constructor; [|assumption].
        apply key_ltb_false in E. apply key_ltb_spec in Hbm.
        apply key_ltb_spec. lia.
Qed.

Lemma init_span_eqb_eq (a b : init_span) : init_span_eqb a b = true <-> a = b.
Proof.
  destruct a as [a1 a2 a3], b as [b1 b2 b3]. unfold init_span_eqb. simpl.
  rewrite !andb_true_iff, !Nat.eqb_eq, py_eqb_eq.
  split; [intros [[-> ->] ->]; reflexivity|intro H; inversion H; auto].
Qed.

Lemma chain_app_inv (a b : list init_span) :
  chain (a ++ b) ->
  chain a /\ chain b
  /\ forall x y, In x a -> In y b -> span_stop x <= span_start y.
Proof.
  induction a as [|z a IH]; simpl.
  - intro H. repeat split; auto. intros ? ? [].
  - intros [Hz Hc]. destruct (IH Hc) as [Ha [Hb Hab]].
    apply Forall_app in Hz. destruct Hz as [Hza Hzb].
    repeat split; auto.
    intros x y [<-|Hx] Hy; [|now apply Hab].
    rewrite Forall_forall in Hzb. now apply Hzb.
Qed.

(** The lines of the kept span lie in none of the other spans. *)
Lemma best_not_covered (r1 r2 : list init_span) (best : init_span) (k : nat) :
  chain (r1 ++ best :: r2) ->
  Forall (fun x => span_start x < span_stop x) (r1 ++ best :: r2) ->
  in_span best k = true ->
  covered (others best (r1 ++ best :: r2)) k = false.
Proof.
  intros Hc Hp Hk.
  apply chain_app_inv in Hc. destruct Hc as [_ [Hc2 H12]].
  simpl in Hc2. destruct Hc2 as [Hb2 _].
  unfold in_span in Hk. apply andb_true_iff in Hk. destruct Hk as [Hk1 Hk2].
  apply Nat.leb_le in Hk1. apply Nat.ltb_lt in Hk2.
  unfold covered. apply not_true_is_false. intro H.
  apply existsb_exists in H. destruct H as [x [Hx Hin]].
  unfold others in Hx. apply filter_In in Hx. destruct Hx as [Hx Hne].
  unfold in_span in Hin. apply andb_true_iff in Hin. destruct Hin as [Hi1 Hi2].
  apply Nat.leb_le in Hi1. apply Nat.ltb_lt in Hi2.
  apply in_app_iff in Hx. destruct Hx as [Hx|[Hx|Hx]].
  - specialize (H12 x best Hx ltac:(now left)). lia.
  - subst x. apply negb_true_iff in Hne.
    assert (init_span_eqb best best = true) by now apply init_span_eqb_eq.
    congruence.
  - rewrite Forall_forall in Hb2. specialize (Hb2 x Hx). lia.
Qed.

Lemma fold_collapse_small (d : dict (list init_span)) (lines : list str) :
  (forall c l, In (c, l) d -> length l <= 1) ->
  fold_left collapse_step d lines = lines.
Proof.
  induction d as [|[c l] d IH]; intro H; [reflexivity|].
  cbn [fold_left].
  assert (E : collapse_step lines (c, l) = lines).
  { specialize (H c l ltac:(now left)). unfold collapse_step. simpl.
    destruct l as [|x [|y l]]; try reflexivity. simpl in H. lia. }
  rewrite E. apply IH. intros c' l' Hin. apply (H c'). now right.
Qed.

(** The step of the collapse on a class with several spans. *)
Lemma collapse_step_several (lines : list str) (cls : str)
  (first : init_span) (rest : list init_span) :
  rest <> [] ->
  chain (first :: rest) ->
  Forall (fun x => span_start x < span_stop x
                   /\ span_stop x <= length lines) (first :: rest) ->
  collapse_step lines (cls, first :: rest) =
  drop_covered (others (max_from first rest) (first :: rest)) 0 lines.
Proof.
  intros Hne Hc Hf. unfold collapse_step. cbn [snd].
  destruct rest as [|second rest]; [congruence|].
  fold (others (max_from first (second :: rest)) (first :: second :: rest)).
  rewrite sort_desc_chain.
  - apply fold_cut_rev.
    + now apply chain_filter.
    + now apply Forall_filter.
  - now apply chain_filter.
  - apply Forall_filter. eapply Forall_impl; [|exact Hf]. simpl. tauto.
Qed.

(** C6 (amended). For every text in which exactly one class has more than
    one constructor span, exactly one span of that class is kept: the
    first of those with the greatest key, the key being the number of
    comma-separated pieces of the span's text and then the number of its
    lines.  The output is the text without the lines of the other spans
    of that class, and no line of the kept span is among them. *)
Theorem fix_duplicate_init_methods_keeps_best
  (code cls : str) (spans : list init_span) (d1 d2 : dict (list init_span)) :
  find_inits (Py.lines code) = d1 ++ (cls, spans) :: d2 ->
  1 < length spans ->
  (forall c l, In (c, l) (d1 ++ d2) -> length l <= 1) ->
  exists best r1 r2,
    spans = r1 ++ best :: r2
    /\ Forall (fun x => key_ltb (init_key x) (init_key best) = true) r1
    /\ Forall (fun x => key_ltb (init_key best) (init_key x) = false) r2
    /\ fix_duplicate_init_methods code =
       Py.unlines (drop_covered (others best spans) 0 (Py.lines code))
    /\ forall k, in_span best k = true -> covered (others best spans) k = false.
Proof.
  intros Hd Hlen Hsmall.
  destruct spans as [|first rest]; [simpl in Hlen; lia|].
  assert (Hrest : rest <> []) by (destruct rest; [simpl in Hlen; lia|discriminate]).
  assert (Hin : In (cls, first :: rest) (find_inits (Py.lines code))).
  { rewrite Hd. apply in_app_iff. right. now left. }
  destruct (find_inits_spans _ _ _ Hin) as [Hc Hf].
  destruct (max_from_spec rest first) as [r1 [r2 [Heq [H1 H2]]]].
  exists (max_from first rest), r1, r2.
  split; [exact Heq|]. split; [exact H1|]. split; [exact H2|]. split.
  - unfold fix_duplicate_init_methods. rewrite Hd.
    rewrite fold_left_app. cbn [fold_left].
    rewrite (@fold_collapse_small d1)
      by (intros c l Hcl; apply (Hsmall c); apply in_app_iff; now left).
    rewrite collapse_step_several by assumption.
    rewrite (@fold_collapse_small d2)
      by (intros c l Hcl; apply (Hsmall c); apply in_app_iff; now right).
    reflexivity.
  - intros k Hk. rewrite Heq. apply best_not_covered; try assumption.
    + now rewrite <- Heq.
    + rewrite <- Heq. eapply Forall_impl; [|exact Hf]. simpl. tauto.
Qed.

Lemma fix_duplicate_init_methods_keeps_best_witness :
  exists best r1 r2,
    [short_init; long_init] = r1 ++ best :: r2
    /\ Forall (fun x => key_ltb (init_key x) (init_key best) = true) r1
    /\ Forall (fun x => key_ltb (init_key best) (init_key x) = false) r2
    /\ fix_duplicate_init_methods short_and_long_constructor =
       Py.unlines (drop_covered (others best [short_init; long_init]) 0
                     (Py.lines short_and_long_constructor))
    /\ forall k, in_span best k = true ->
                 covered (others best [short_init; long_init]) k = false.
Proof.
  apply (@fix_duplicate_init_methods_keeps_best
           short_and_long_constructor (lit "A") [short_init; long_init] [] []).
  - vm_compute. reflexivity.
  - simpl. lia.
  - intros c l H. simpl in H. destruct H.
Defined.

(** C6, as stated, fails: of the two constructors of [two_constructors]
    the one with three parameters is deleted and the one with one
    parameter is kept, because the commas of its body are counted. *)
Lemma fewer_parameters_kept : ~ keeps_most_parameters two_constructors.
Proof.
  intro H.
  assert (E : dict_get (lit "A") (find_inits (Py.lines two_constructors))
              = Some [three_parameter_init; one_parameter_init])
    by (vm_compute; reflexivity).
  destruct (H (lit "A") _ E ltac:(simpl; lia)) as [best [Hin [Hmax Hout]]].
  clear E H.
  destruct Hin as [<-|[<-|[]]].
  - assert (N : Py.eqb (fix_duplicate_init_methods two_constructors)
                  (Py.unlines
                     (drop_covered
                        (others three_parameter_init
                           [three_parameter_init; one_parameter_init]) 0
                        (Py.lines two_constructors))) = false)
      by (vm_compute; reflexivity).
    rewrite <- Hout, py_eqb_refl in N. discriminate N.
  - clear Hout.
    specialize (Hmax three_parameter_init ltac:(now left)).
    assert (P1 : param_count three_parameter_init = 3) by (vm_compute; reflexivity).
    assert (P2 : param_count one_parameter_init = 1) by (vm_compute; reflexivity).
    rewrite P1, P2 in Hmax. lia.
Qed.

(** ** Stripping *)

Lemma dropwhile_idem (f : ascii -> bool) (s : str) :
  Py.dropwhile f (Py.dropwhile f s) = Py.dropwhile f s.
Proof.
  induction s as [|c s IH]; [reflexivity|].
  simpl. destruct (f c) eqn:E; [assumption|]. simpl. now rewrite E.
Qed.

Lemma rstrip_idem (s : str) : Py.rstrip (Py.rstrip s) = Py.rstrip s.
Proof.
  unfold Py.rstrip. now rewrite rev_involutive, dropwhile_idem.
Qed.

Lemma dropwhile_all (f : ascii -> bool) (w : str) :
  forallb f w = true -> Py.dropwhile f w = [].
Proof.
  induction w as [|c w IH]; [reflexivity|].
  simpl. intro H. apply andb_true_iff in H. destruct H as [H1 H2].
  rewrite H1. auto.
Qed.

Lemma dropwhile_app_all (f : ascii -> bool) (w s : str) :
  forallb f w = true -> Py.dropwhile f (w ++ s) = Py.dropwhile f s.
Proof.
  induction w as [|c w IH]; [reflexivity|].
  simpl. intro H. apply andb_true_iff in H. destruct H as [H1 H2].
  rewrite H1. auto.
Qed.

(** A string is its right-stripped form followed by spaces. *)
Lemma dropwhile_split (f : ascii -> bool) (s : str) :
  exists w, s = w ++ Py.dropwhile f s /\ forallb f w = true.
Proof.
  induction s as [|c s IH]; [exists []; auto|].
  simpl. destruct (f c) eqn:E.
  - destruct IH as [w [Hw Hf]]. exists (c :: w). simpl.
    rewrite E, Hf. split; [now rewrite <- Hw|reflexivity].
  - exists []. auto.
Qed.

Lemma rstrip_split (s : str) :
  exists w, s = Py.rstrip s ++ w /\ forallb Py.isspace w = true.
Proof.
  destruct (dropwhile_split Py.isspace (rev s)) as [w [Hw Hf]].
  exists (rev w). split.
  - unfold Py.rstrip. rewrite <- rev_app_distr, <- Hw. now rewrite rev_involutive.
  - rewrite forallb_forall in *. intros x Hx. apply Hf. now apply in_rev.
Qed.

Lemma rstrip_app_spaces (x w : str) :
  forallb Py.isspace w = true -> Py.rstrip (x ++ w) = Py.rstrip x.
Proof.
  intro H. unfold Py.rstrip. rewrite rev_app_distr.
  rewrite dropwhile_app_all; [reflexivity|].
  rewrite forallb_forall in *. intros c Hc. apply H. now apply in_rev.
Qed.

Lemma lstrip_app_spaces (a w : str) :
  forallb Py.isspace w = true ->
  exists w', Py.lstrip (a ++ w) = Py.lstrip a ++ w'
             /\ forallb Py.isspace w' = true.
Proof.
  intro H. unfold Py.lstrip. induction a as [|c a IH]; simpl.
  - exists []. rewrite dropwhile_all by assumption. auto.
  - destruct (Py.isspace c); [assumption|].
    exists w. auto.
Qed.

(** Stripping after right-stripping is stripping. *)
Lemma strip_rstrip (s : str) : Py.strip (Py.rstrip s) = Py.strip s.
Proof.
  destruct (rstrip_split s) as [w [Hs Hw]].
  rewrite Hs at 2. unfold Py.strip.
  destruct (lstrip_app_spaces (Py.rstrip s) w Hw) as [w' [E Hw']].
  rewrite E. now rewrite rstrip_app_spaces.
Qed.

Lemma blank_rstrip (s : str) : Py.blank (Py.rstrip s) = Py.blank s.
Proof. unfold Py.blank. now rewrite strip_rstrip. Qed.


Lemma dropwhile_incl (f : ascii -> bool) (s : str) (c : ascii) :
  In c (Py.dropwhile f s) -> In c s.
Proof.
  induction s as [|x s IH]; simpl; [auto|].
  destruct (f x); [auto|]. simpl. auto.
Qed.

Lemma rstrip_incl (s : str) (c : ascii) : In c (Py.rstrip s) -> In c s.
Proof.
  unfold Py.rstrip. intro H. apply in_rev in H.
  apply dropwhile_incl in H. now apply in_rev.
Qed.

(** ** The reorderer on a single logical block *)

Lemma blank_nonempty (l : str) : negb (nonempty (Py.strip l)) = Py.blank l.
Proof. unfold Py.blank. destruct (Py.strip l); reflexivity. Qed.

















Lemma unlines_snoc (ls : list str) (x : str) :
  ls <> [] -> Py.unlines (ls ++ [x]) = Py.unlines ls ++ nl :: x.
Proof.
  induction ls as [|l ls IH]; [congruence|]. intros _.
  destruct ls as [|l' ls]; [reflexivity|].
  change ((l :: l' :: ls) ++ [x]) with (l :: (l' :: ls) ++ [x]).
  rewrite (@unlines_cons l ((l' :: ls) ++ [x])) by discriminate.
  rewrite IH by discriminate.
  rewrite (@unlines_cons l (l' :: ls)) by discriminate.
  now rewrite <- app_assoc.
Qed.

Lemma endswith_nl_snoc (y : str) : Py.endswith [nl] (y ++ [nl]) = true.
Proof.
  unfold Py.endswith. rewrite rev_app_distr. reflexivity.
Qed.


(** The lines of a reordered single block: the lines themselves, with an
    empty last line added when the last line is not empty. *)
Lemma final_newline_lines (ls : list str) :
  ls <> [] -> Forall (fun l => ~ In nl l) ls ->
  Py.lines (ensure_final_newline (Py.unlines ls)) = ls
  \/ (Py.lines (ensure_final_newline (Py.unlines ls)) = ls ++ [[]]
      /\ last ls [] <> []).
Proof.
  intros Hne Hnl. unfold ensure_final_newline.
  destruct (nonempty (Py.unlines ls) && negb (Py.endswith [nl] (Py.unlines ls)))
    eqn:E.
  - right. split.
    + change (Py.unlines ls ++ [nl]) with (Py.unlines ls ++ nl :: []).
      rewrite lines_app_nl, lines_unlines by assumption. reflexivity.
    + intro Hlast.
      destruct (exists_last Hne) as [ls' [x Hx]]. subst ls.
      rewrite last_last in Hlast. subst x.
      destruct ls' as [|l ls'].
      * discriminate E.
      * rewrite unlines_snoc, endswith_nl_snoc in E by discriminate.
        now rewrite andb_false_r in E.
  - left. now apply lines_unlines.
Qed.


















(** * Further properties *)

(** ** What a successful match has read *)

(** A match of [r] calls its continuation on a suffix of the rest. *)
Lemma rep_loop_reaches
  (body : nat -> str -> caps -> kont -> option (nat * caps)) :
  (forall p s c k x, body p s c k = Some x ->
     exists p' s' c' pre, s = pre ++ s' /\ k p' s' c' = Some x) ->
  forall n greedy k p s c x,
    rep_loop body greedy k n p s c = Some x ->
    exists p' s' c' pre, s = pre ++ s' /\ k p' s' c' = Some x.
Proof.
  intros Hbody n. induction n as [|n IH]; intros greedy k p s c x H.
  - exists p, s, c, []. split; [reflexivity|exact H].
  - cbn [rep_loop] in H.
    assert (Hiter :
      body p s c (fun p' s' c' =>
                    if p <? p' then rep_loop body greedy k n p' s' c' else None)
      = Some x ->
      exists p' s' c' pre, s = pre ++ s' /\ k p' s' c' = Some x).
    { intro Hb. apply Hbody in Hb.
      destruct Hb as (p1 & s1 & c1 & pre1 & Hs & Hk).
      destruct (p <? p1); [|discriminate Hk].
      apply IH in Hk. destruct Hk as (p2 & s2 & c2 & pre2 & Hs2 & Hk).
      exists p2, s2, c2, (pre1 ++ pre2). split; [|exact Hk].
      rewrite Hs, Hs2. now rewrite app_assoc. }
    assert (Hkont :
      k p s c = Some x ->
      exists p' s' c' pre, s = pre ++ s' /\ k p' s' c' = Some x).
    { intro Hk. exists p, s, c, []. split; [reflexivity|exact Hk]. }
    destruct greedy.
    + destruct (body p s c _) as [y|] eqn:Eb.
      * apply Hiter, H.
      * apply Hkont, H.
    + destruct (k p s c) as [y|] eqn:Ek.
      * apply Hkont, H.
      * apply Hiter, H.
Qed.

Lemma run_reaches (r : regex) :
  forall p s c k x,
    run r p s c k = Some x ->
    exists p' s' c' pre, s = pre ++ s' /\ k p' s' c' = Some x.
Proof.
  induction r as [|f|r1 IH1 r2 IH2|r1 IH1 r2 IH2|g r1 IH1|i r1 IH1| |];
    intros p s c k x H; cbn [run] in H.
  - exists p, s, c, []. split; [reflexivity|exact H].
  - destruct s as [|a s']; [discriminate H|].
    destruct (f a); [|discriminate H].
    exists (S p), s', c, [a]. split; [reflexivity|exact H].
  - apply IH1 in H. destruct H as (p1 & s1 & c1 & pre1 & Hs & H).
    apply IH2 in H. destruct H as (p2 & s2 & c2 & pre2 & Hs2 & H).
    exists p2, s2, c2, (pre1 ++ pre2). split; [|exact H].
    rewrite Hs, Hs2. now rewrite app_assoc.
  - destruct (run r1 p s c k) as [y|] eqn:E1.
    + apply (IH1 _ _ _ _ _ (eq_trans E1 H)).
    + apply (IH2 _ _ _ _ _ H).
  - exact (@rep_loop_reaches (run r1) IH1 _ _ _ _ _ _ _ H).
  - apply IH1 in H. destruct H as (p1 & s1 & c1 & pre1 & Hs & H).
    exists p1, s1, ((i, (p, p1)) :: c1), pre1. split; assumption.
  - destruct (p =? 0); [|discriminate H].
    exists p, s, c, []. split; [reflexivity|exact H].
  - exists p, s, c, []. split; [reflexivity|].
    destruct s as [|a [|b s']]; [exact H| |discriminate H].
    destruct (Ascii.eqb a nl); [exact H|discriminate H].
Qed.

(** ** Substrings *)

Lemma startswith_contains (p s : str) :
  Py.startswith p s = true -> Py.contains p s = true.
Proof.
  intro H. destruct (Py.contains p s) eqn:E; [reflexivity|].
  apply contains_startswith in E. congruence.
Qed.

Lemma contains_app_r (p a b : str) :
  Py.contains p b = true -> Py.contains p (a ++ b) = true.
Proof.
  intro H. destruct (Py.contains p (a ++ b)) eqn:E; [reflexivity|].
  apply contains_suffix in E. congruence.
Qed.

Lemma startswith_app_l (p a b : str) :
  Py.startswith p a = true -> Py.startswith p (a ++ b) = true.
Proof.
  revert a. induction p as [|x p IH]; intros [|y a] H; simpl in *;
    try reflexivity; try discriminate.
  apply andb_true_iff in H. destruct H as [H1 H2].
  rewrite H1. simpl. now apply IH.
Qed.

Lemma contains_cons (p : str) (c : ascii) (s : str) :
  Py.contains p (c :: s) = Py.startswith p (c :: s) || Py.contains p s.
Proof. reflexivity. Qed.

Lemma contains_app_l (p a b : str) :
  Py.contains p a = true -> Py.contains p (a ++ b) = true.
Proof.
  induction a as [|c a IH]; intro H.
  - destruct p; [destruct b; reflexivity|discriminate H].
  - rewrite contains_cons in H. cbn [app]. rewrite contains_cons.
    apply orb_true_iff in H. apply orb_true_iff. destruct H as [H|H].
    + left. exact (@startswith_app_l p (c :: a) b H).
    + right. now apply IH.
Qed.

Lemma contains_strip (p l : str) :
  Py.contains p (Py.strip l) = true -> Py.contains p l = true.
Proof.
  intro H. unfold Py.strip in H.
  destruct (dropwhile_split Py.isspace l) as (w1 & E1 & _).
  destruct (rstrip_split (Py.lstrip l)) as (w2 & E2 & _).
  rewrite E1. apply contains_app_r. fold (Py.lstrip l). rewrite E2.
  now apply contains_app_l.
Qed.

Lemma unlines_In (ls : list str) (l : str) :
  In l ls -> exists a b, Py.unlines ls = a ++ l ++ b.
Proof.
  induction ls as [|l0 ls IH]; [intros []|intros [H|H]].
  - subst l0. destruct ls as [|l1 ls].
    + exists [], []. simpl. now rewrite app_nil_r.
    + exists [], (nl :: Py.unlines (l1 :: ls)).
      now rewrite unlines_cons by discriminate.
  - destruct ls as [|l1 ls]; [destruct H|].
    destruct (IH H) as (a & b & E).
    exists (l0 ++ nl :: a), b.
    rewrite unlines_cons by discriminate. rewrite E.
    rewrite <- app_assoc. reflexivity.
Qed.

Lemma contains_line (p s l : str) :
  In l (Py.lines s) -> Py.contains p l = true -> Py.contains p s = true.
Proof.
  intros Hl Hp. destruct (unlines_In _ _ Hl) as (a & b & E).
  rewrite unlines_lines in E. rewrite E.
  apply contains_app_r. now apply contains_app_l.
Qed.

(** A pattern that starts with a literal finds nothing in a text without
    that literal. *)
Lemma search_from_literal_none (l : str) (r : regex) (s : str) :
  Py.contains l s = false ->
  forall adv p, search_from (Cat (text l) r) adv p s = None.
Proof.
  induction s as [|a s IH]; intros H adv p.
  - cbn [search_from]. unfold match_at. cbn [run]. rewrite run_text.
    rewrite (contains_startswith _ _ H). reflexivity.
  - cbn [search_from]. unfold match_at. cbn [run]. rewrite run_text.
    rewrite (contains_startswith _ _ H).
    apply IH. rewrite contains_cons in H.
    apply orb_false_iff in H. apply H.
Qed.

Lemma class_header_has_class (s n : str) :
  match_group1 class_name_re s = Some n ->
  Py.contains (lit "class") s = true.
Proof.
  unfold match_group1, rmatch, match_at. intro H.
  destruct (run class_name_re 0 s [] _) as [[e c]|] eqn:E; [|discriminate H].
  clear H. unfold class_name_re in E.
  cbn [seq run Nat.eqb] in E.
  unfold txt in E. rewrite run_text in E.
  apply startswith_contains.
  destruct (Py.startswith (lit "class") s); [reflexivity|discriminate E].
Qed.

Lemma def_header_has_def (s n : str) :
  match_group1 method_name_re s = Some n ->
  Py.contains (lit "def") s = true.
Proof.
  unfold match_group1, rmatch, match_at. intro H.
  destruct (run method_name_re 0 s [] _) as [[e c]|] eqn:E; [|discriminate H].
  clear H. unfold method_name_re in E.
  cbn [seq] in E.
  change (run (Cat Bos ?r) 0 s [] ?k) with (run r 0 s [] k) in E.
  cbn [run] in E. fold (run (star ws)) in E.
  apply (run_reaches (star ws)) in E.
  destruct E as (p' & s' & c' & pre & Hs & E).
  unfold txt in E. rewrite run_text in E. subst s.
  apply contains_app_r, startswith_contains.
  destruct (Py.startswith (lit "def") s'); [reflexivity|discriminate E].
Qed.

(** ** Texts without declarations *)

Lemma firstn_snoc_nth {A : Type} (l : list A) (i : nat) (d : A) :
  i < length l -> firstn i l ++ [nth i l d] = firstn (S i) l.
Proof.
  revert i. induction l as [|x l IH]; intros i H; simpl in H; [lia|].
  destruct i as [|i]; [reflexivity|].
  cbn [firstn nth app]. f_equal. apply IH. lia.
Qed.

(** Without a class header and without a function header the first pass
    keeps every line. *)
Lemma pass1_no_headers (lines : list str) :
  (forall l, In l lines ->
     header_name l = None
     /\ match_group1 method_name_re (Py.strip l) = None) ->
  fixed_lines (pass1_run lines) = lines.
Proof.
  intro Hno.
  assert (Hinv : fixed_lines (pass1_run lines)
                 = firstn (p1_i (pass1_run lines)) lines).
  { unfold pass1_run.
    apply pass1_loop_inv
      with (P := fun st => fixed_lines st = firstn (p1_i st) lines);
      [|reflexivity].
    intros st Hst Hi.
    destruct (Hno (nth (p1_i st) lines []) (nth_In _ _ Hi)) as [Hc Hm].
    unfold header_name in Hc. unfold pass1_step.
    rewrite Hc, Hm. cbn [p1_i fixed_lines].
    rewrite Hst. now apply firstn_snoc_nth. }
  rewrite Hinv. apply firstn_all2. apply pass1_run_done.
Qed.

(** Without a class header no constructor is recorded. *)
Lemma find_inits_no_class (lines : list str) :
  (forall l, In l lines -> header_name l = None) ->
  find_inits lines = [].
Proof.
  intro Hno. unfold find_inits.
  assert (H : forall st,
             fi_class_name st = None /\ init_methods st = [] ->
             fi_class_name (init_loop (length lines) lines st) = None
             /\ init_methods (init_loop (length lines) lines st) = []).
  { intros st Hst.
    apply init_loop_inv
      with (P := fun st => fi_class_name st = None /\ init_methods st = []);
      [|exact Hst].
    clear st Hst. intros st [Hc Hm] Hi.
    pose proof (Hno (nth (fi_i st) lines []) (nth_In _ _ Hi)) as Hh.
    unfold header_name in Hh. unfold init_step.
    rewrite Hh, Hc. cbn [fi_class_name init_methods]. now split. }
  apply H. now split.
Qed.

(** ** Characters of slices, parts and joins *)

Lemma In_slice (c : ascii) (s : str) (b e : nat) :
  In c (slice s b e) -> In c s.
Proof.
  unfold slice. intro H.
  rewrite <- (firstn_skipn b s). apply in_or_app. right.
  rewrite <- (firstn_skipn (e - b) (skipn b s)). apply in_or_app. now left.
Qed.

Lemma In_group (c : ascii) (s : str) (m : mtch) (i : nat) :
  In c (group s m i) -> In c s.
Proof.
  unfold group. destruct i as [|i]; [apply In_slice|].
  destruct (lookup (S i) (snd m)) as [[b e]|]; [apply In_slice|intros []].
Qed.

Lemma In_join (c : ascii) (sep : str) (ls : list str) :
  In c (Py.join sep ls) -> In c sep \/ exists l, In l ls /\ In c l.
Proof.
  induction ls as [|l ls IH]; [intros []|].
  destruct ls as [|l' ls'].
  - intro H. right. exists l. split; [now left|exact H].
  - change (Py.join sep (l :: l' :: ls'))
      with (l ++ sep ++ Py.join sep (l' :: ls')).
    rewrite !in_app_iff. intros [H|[H|H]].
    + right. exists l. split; [now left|exact H].
    + now left.
    + destruct (IH H) as [H'|(x & Hx & Hc)]; [now left|].
      right. exists x. split; [now right|exact Hc].
Qed.

Lemma In_split_aux (c : ascii) (sep : str) :
  forall s k l, In l (Py.split_aux sep s k) -> In c l -> In c s.
Proof.
  induction s as [|a s IH]; intros k l Hl Hc.
  - simpl in Hl. destruct Hl as [<-|[]]. destruct Hc.
  - cbn [Py.split_aux] in Hl. destruct k as [|k].
    + destruct (Py.startswith sep (a :: s)).
      * destruct Hl as [<-|Hl]; [destruct Hc|].
        right. exact (IH _ _ Hl Hc).
      * destruct (Py.split_aux sep s 0) as [|h t] eqn:E.
        -- destruct Hl as [<-|[]]. destruct Hc as [<-|[]]. now left.
        -- destruct Hl as [<-|Hl].
           ++ destruct Hc as [<-|Hc]; [now left|].
              right. apply (IH 0 h); [rewrite E; now left|exact Hc].
           ++ right. apply (IH 0 l); [rewrite E; now right|exact Hc].
    + right. exact (IH _ _ Hl Hc).
Qed.

Lemma In_lines (c : ascii) (s l : str) :
  In l (Py.lines s) -> In c l -> In c s.
Proof. apply In_split_aux. Qed.

Lemma In_replace (c : ascii) (old new s : str) :
  In c (Py.replace old new s) -> In c new \/ In c s.
Proof.
  unfold Py.replace. intro H. apply In_join in H.
  destruct H as [H|(l & Hl & Hc)]; [now left|].
  right. eapply In_split_aux; eassumption.
Qed.

Lemma In_lslice {A : Type} (x : A) (l : list A) (a b : nat) :
  In x (lslice l a b) -> In x l.
Proof.
  unfold lslice. intro H.
  rewrite <- (firstn_skipn a l). apply in_or_app. right.
  rewrite <- (firstn_skipn (b - a) (skipn a l)). apply in_or_app. now left.
Qed.

Lemma In_method_text (c : ascii) (code : str) (i : nat) :
  In c (method_text (Py.lines code) i) -> c = nl \/ In c code.
Proof.
  unfold method_text, Py.unlines. intro H. apply In_join in H.
  destruct H as [[H|[]]|(l & Hl & Hc)]; [left; now symmetry|].
  right. apply In_lslice in Hl. eapply In_lines; eassumption.
Qed.

Lemma In_first_pass (c : ascii) (code : str) :
  In c (first_pass code) -> c = nl \/ In c code.
Proof.
  unfold first_pass.
  rewrite (inv_fixed (pass1_run_inv (Py.lines code))).
  unfold Py.unlines, lines_at. intro H. apply In_join in H.
  destruct H as [[H|[]]|(l & Hl & Hc)]; [left; now symmetry|].
  right. apply in_map_iff in Hl. destruct Hl as (k & <- & _).
  destruct (Nat.lt_ge_cases k (length (Py.lines code))) as [Hk|Hk].
  - eapply In_lines; [apply nth_In, Hk|exact Hc].
  - rewrite nth_overflow in Hc by exact Hk. destruct Hc.
Qed.

(** ** Replacement templates without a backslash *)

Lemma parse_plain (groups : nat) (s : str) :
  forall fuel, length s <= fuel -> ~ In backslash s ->
  Template.parse fuel groups s = Ok (map Template.Lit s).
Proof.
  induction s as [|c s IH]; intros [|fuel] Hlen Hs;
    try reflexivity; [simpl in Hlen; lia|].
  cbn [Template.parse].
  assert (E : Ascii.eqb c backslash = false).
  { apply Ascii.eqb_neq. intro; subst. apply Hs. now left. }
  rewrite E. cbn [negb].
  rewrite IH; [reflexivity|simpl in Hlen; lia|].
  intro; apply Hs; now right.
Qed.

Lemma sub_plain (r : regex) (groups : nat) (repl s : str) :
  ~ In backslash repl ->
  Template.sub r groups repl s =
  Ok (Template.build s 0 (finditer r s) (map Template.Lit repl)).
Proof.
  intro H. unfold Template.sub. now rewrite parse_plain.
Qed.

Lemma plain_dec (s : str) :
  existsb (Ascii.eqb backslash) s = false -> ~ In backslash s.
Proof.
  intros H Hin.
  assert (E : existsb (Ascii.eqb backslash) s = true).
  { apply existsb_exists. exists backslash. split; [exact Hin|].
    apply Ascii.eqb_refl. }
  congruence.
Qed.

Lemma plain_app (a b : str) :
  ~ In backslash a -> ~ In backslash b -> ~ In backslash (a ++ b).
Proof. intros Ha Hb H. apply in_app_or in H. tauto. Qed.

Lemma plain_method_text (code : str) (i : nat) :
  ~ In backslash code -> ~ In backslash (method_text (Py.lines code) i).
Proof.
  intros Hc H. apply In_method_text in H.
  destruct H as [H|H]; [discriminate H|auto].
Qed.

Lemma plain_group (s : str) (m : mtch) (i : nat) :
  ~ In backslash s -> ~ In backslash (group s m i).
Proof. intros Hs H. apply Hs. eapply In_group, H. Qed.

Lemma plain_replace (old new s : str) :
  ~ In backslash new -> ~ In backslash s ->
  ~ In backslash (Py.replace old new s).
Proof. intros Hn Hs H. apply In_replace in H. tauto. Qed.

Lemma plain_join (sep : str) (ls : list str) :
  ~ In backslash sep -> (forall x, In x ls -> ~ In backslash x) ->
  ~ In backslash (Py.join sep ls).
Proof.
  intros Hsep Hls H. apply In_join in H.
  destruct H as [H|(x & Hx & H)]; [auto|exact (Hls x Hx H)].
Qed.

Create HintDb plain discriminated.

#[local] Hint Resolve plain_app plain_group plain_method_text plain_replace
  : plain.
#[local] Hint Extern 1 (~ In backslash _) =>
  (apply plain_dec; reflexivity) : plain.

Lemma plain_node_attributes (method key_param x : str) :
  ~ In backslash key_param ->
  In x (node_attributes method key_param) -> ~ In backslash x.
Proof.
  intros Hk Hx. unfold node_attributes in Hx.
  apply in_flat_map in Hx. destruct Hx as (attr & Hattr & Hx).
  assert (Ha : ~ In backslash attr).
  { cbn [map In] in Hattr.
    repeat (destruct Hattr as [<-|Hattr]; [apply plain_dec; reflexivity|]).
    destruct Hattr. }
  destruct (found (attr_re attr) method); [|destruct Hx].
  destruct (mem attr _); destruct Hx as [<-|[]]; auto 8 with plain.
Qed.

Lemma fix_incomplete_node_class_ok (code : str) :
  ~ In backslash code -> exists out, fix_incomplete_node_class code = Ok out.
Proof.
  intro Hc. unfold fix_incomplete_node_class.
  destruct (search tree_node_re code) as [tm|]; [|eauto].
  destruct (search bst_re code) as [bm|]; [|eauto].
  destruct (search (bst_init_with_key_re _) code) as [bi|]; [|eauto].
  destruct (search (empty_treenode_re _) code) as [em|]; [|eauto].
  assert (Hb : ~ In backslash (bst_replacement (group code bm 1)))
    by (unfold bst_replacement; auto 12 with plain).
  destruct (search proper_node_init_re code) as [pm|].
  - rewrite sub_plain by auto 12 with plain.
    cbn [bind]. rewrite (@sub_plain _ _ _ _ Hb). eauto.
  - rewrite (@sub_plain _ _ _ _ Hb). cbn [bind].
    set (bim := method_text _ _).
    assert (Hbim : ~ In backslash bim) by (subst bim; auto with plain).
    set (kp := match search key_param_re bim with
               | Some m => group bim m 1
               | None => lit "key"
               end).
    assert (Hkp : ~ In backslash kp)
      by (subst kp; destruct (search key_param_re bim); auto with plain).
    set (attributes := if nonempty (node_attributes bim kp) then _ else _).
    assert (Hattrs : ~ In backslash (Py.join ([nl] ++ lit "        ") attributes)).
    { apply plain_join; [auto with plain|]. intros x Hx. subst attributes.
      destruct (nonempty (node_attributes bim kp)).
      - exact (@plain_node_attributes _ _ _ Hkp Hx).
      - cbn [In] in Hx.
        repeat (destruct Hx as [<-|Hx]; [auto with plain|]). destruct Hx. }
    rewrite sub_plain by auto 14 with plain. eauto.
Qed.

(** X10. [fix_common_code_issues] raises only on a text with a backslash:
    for every text without backslash the three stages (first pass,
    [fix_incomplete_node_class], [fix_duplicate_init_methods]) end normally
    and a text is returned.  The replacement strings that
    [fix_incomplete_node_class] hands to [re.sub] are made of pieces of
    the text and of fixed words, so they hold no escape to reject. *)
Theorem fix_common_code_issues_plain_ok (code : str) :
  ~ In backslash code -> exists out, fix_common_code_issues code = Ok out.
Proof.
  intro Hc. unfold fix_common_code_issues.
  destruct (@fix_incomplete_node_class_ok (first_pass code)) as [out E].
  - intro H. apply In_first_pass in H.
    destruct H as [H|H]; [discriminate H|auto].
  - rewrite E. cbn [bind]. eauto.
Qed.

Lemma fix_common_code_issues_plain_ok_witness :
  exists out, fix_common_code_issues node_and_tree = Ok out.
Proof.
  apply fix_common_code_issues_plain_ok.
  apply plain_dec. vm_compute. reflexivity.
Defined.

(** X11. [fix_duplicate_init_methods] returns the text unchanged when no
    class of the text has more than one recorded constructor. *)
Theorem fix_duplicate_init_methods_unchanged (code : str) :
  (forall cls spans,
     In (cls, spans) (find_inits (Py.lines code)) -> length spans <= 1) ->
  fix_duplicate_init_methods code = code.
Proof.
  intro H. unfold fix_duplicate_init_methods.
  rewrite fold_collapse_small by exact H. apply unlines_lines.
Qed.

Lemma fix_duplicate_init_methods_unchanged_witness :
  fix_duplicate_init_methods one_constructor = one_constructor.
Proof.
  apply fix_duplicate_init_methods_unchanged.
  assert (E : find_inits (Py.lines one_constructor)
              = [(lit "A",
                  [{| span_start := 1; span_stop := 3;
                      span_text := text_of ["    def __init__(self, a):";
                                            "        self.a = a"]%string |}])])
    by (vm_compute; reflexivity).
  rewrite E. intros cls spans [H|[]]. inversion H. simpl. lia.
Defined.

(** X9. A text that holds neither the word [class] nor the word [def]
    goes through [fix_common_code_issues] unchanged: the first pass keeps
    every line, the node/tree repair finds no class and the constructor
    collapse finds no constructor. *)
Theorem fix_common_code_issues_no_declaration (code : str) :
  Py.contains (lit "class") code = false ->
  Py.contains (lit "def") code = false ->
  fix_common_code_issues code = Ok code.
Proof.
  intros Hclass Hdef.
  assert (Hh : forall l, In l (Py.lines code) -> header_name l = None).
  { intros l Hl. destruct (header_name l) as [n|] eqn:E; [|reflexivity].
    apply class_header_has_class, contains_strip in E.
    rewrite (@contains_line _ _ _ Hl E) in Hclass. discriminate Hclass. }
  assert (Hm : forall l, In l (Py.lines code) ->
                         match_group1 method_name_re (Py.strip l) = None).
  { intros l Hl.
    destruct (match_group1 method_name_re (Py.strip l)) as [n|] eqn:E;
      [|reflexivity].
    apply def_header_has_def, contains_strip in E.
    rewrite (@contains_line _ _ _ Hl E) in Hdef. discriminate Hdef. }
  assert (Hfirst : first_pass code = code).
  { unfold first_pass. rewrite pass1_no_headers; [apply unlines_lines|].
    intros l Hl. split; [now apply Hh|now apply Hm]. }
  unfold fix_common_code_issues. rewrite Hfirst.
  assert (Hnode : fix_incomplete_node_class code = Ok code).
  { unfold fix_incomplete_node_class, search, tree_node_re.
    cbn [seq]. unfold txt at 1.
    now rewrite search_from_literal_none. }
  rewrite Hnode. cbn [bind]. f_equal.
  unfold fix_duplicate_init_methods.
  rewrite (@find_inits_no_class _ Hh). apply unlines_lines.
Qed.

Lemma fix_common_code_issues_no_declaration_witness :
  fix_common_code_issues two_statements = Ok two_statements.
Proof.
  apply fix_common_code_issues_no_declaration; vm_compute; reflexivity.
Defined.


Lemma all_chars_In (a : ascii) : In a all_chars.
Proof.
  unfold all_chars. apply in_map_iff. exists (nat_of_ascii a).
  split; [apply ascii_nat_embedding|].
  apply in_seq. pose proof (nat_ascii_bounded a). lia.
Qed.

Lemma run_requires (ch : ascii) (r : regex) :
  requires ch r = true ->
  forall p s c k x, run r p s c k = Some x -> In ch s.
Proof.
  induction r as [|f|r1 IH1 r2 IH2|r1 IH1 r2 IH2|g r1 IH1|i r1 IH1| |];
    intro Hr; cbn [requires] in Hr; try discriminate Hr;
    intros p s c k x H; cbn [run] in H.
  - destruct s as [|a s']; [discriminate H|].
    destruct (f a) eqn:Ef; [|discriminate H].
    rewrite forallb_forall in Hr.
    pose proof (Hr a (all_chars_In a)) as Ha. rewrite Ef in Ha.
    apply Ascii.eqb_eq in Ha. subst a. now left.
  - apply orb_true_iff in Hr. destruct Hr as [Hr|Hr].
    + exact (IH1 Hr _ _ _ _ _ H).
    + apply run_reaches in H. destruct H as (p' & s' & c' & pre & Hs & H).
      subst s. apply in_or_app. right. exact (IH2 Hr _ _ _ _ _ H).
  - apply andb_true_iff in Hr. destruct Hr as [Hr1 Hr2].
    destruct (run r1 p s c k) as [y|] eqn:E1.
    + exact (IH1 Hr1 _ _ _ _ _ E1).
    + exact (IH2 Hr2 _ _ _ _ _ H).
  - exact (IH1 Hr _ _ _ _ _ H).
Qed.

Lemma search_from_requires (ch : ascii) (r : regex) (s : str) :
  requires ch r = true -> ~ In ch s ->
  forall adv p, search_from r adv p s = None.
Proof.
  intro Hr. induction s as [|a s IH]; intros Hs adv p; cbn [search_from].
  - unfold match_at.
    destruct (run r p [] [] _) as [[e c]|] eqn:E; [|reflexivity].
    destruct (run_requires _ _ Hr _ _ _ _ E).
  - unfold match_at.
    destruct (run r p (a :: s) [] _) as [[e c]|] eqn:E.
    + destruct (Hs (run_requires _ _ Hr _ _ _ _ E)).
    + apply IH. intro; apply Hs; now right.
Qed.

Lemma finditer_none (r : regex) (s : str) :
  search_from r false 0 s = None -> finditer r s = [].
Proof.
  intro H. unfold finditer.
  replace (2 * length s + 2) with (S (2 * length s + 1)) by lia.
  cbn [finditer_from]. now rewrite H.
Qed.

(** ** The block locator on a text without blocks *)

Lemma indent_group_none (s : str) (p : nat) (c : caps) (k : kont) :
  Py.startswith (lit "    ") s = false -> ~ In tab s ->
  run (Grp 1 (Alt (txt "    ") (chr tab))) p s c k = None.
Proof.
  intros Hsp Htab. cbn [run]. unfold txt. rewrite run_text, Hsp.
  unfold chr. cbn [run].
  destruct s as [|a s]; [reflexivity|].
  destruct (Ascii.eqb tab a) eqn:E; [|reflexivity].
  apply Ascii.eqb_eq in E. subst a. destruct Htab. now left.
Qed.

Lemma run_indented_none (s : str) (p : nat) (k : kont) :
  Py.contains (lit "    ") s = false -> ~ In tab s ->
  run indented_re p s [] k = None.
Proof.
  intros Hsp Htab. unfold indented_re. cbn [seq].
  change (run (Cat ?r1 (Cat ?r2 ?r3)) p s [] k)
    with (run r1 p s [] (fun p' s' c' =>
            run r2 p' s' c' (fun p'' s'' c'' => run r3 p'' s'' c'' k))).
  set (K := fun p' s' c' => run (Grp 1 _) p' s' c' _).
  assert (HK : forall p' s', Py.contains (lit "    ") s' = false ->
                             ~ In tab s' -> K p' s' [] = None).
  { intros p' s' H1 H2. subst K. cbv beta.
    apply indent_group_none; [now apply contains_startswith|exact H2]. }
  clearbody K. cbn [run chr].
  rewrite (HK p s Hsp Htab).
  replace (if p =? 0 then None else None) with (@None (nat * caps))
    by (destruct (p =? 0); reflexivity).
  destruct s as [|a s]; [reflexivity|].
  destruct (Ascii.eqb nl a); [|reflexivity].
  apply HK.
  - rewrite contains_cons in Hsp. apply orb_false_iff in Hsp. apply Hsp.
  - intro; apply Htab; now right.
Qed.

Lemma search_from_indented_none (s : str) :
  Py.contains (lit "    ") s = false -> ~ In tab s ->
  forall adv p, search_from indented_re adv p s = None.
Proof.
  induction s as [|a s IH]; intros Hsp Htab adv p; cbn [search_from];
    unfold match_at; rewrite (@run_indented_none _ _ _ Hsp Htab); [reflexivity|].
  apply IH.
  - rewrite contains_cons in Hsp. apply orb_false_iff in Hsp. apply Hsp.
  - intro; apply Htab; now right.
Qed.

(** X1. For every text made of one or more fenced blocks (each opened
    with no tag or the tag [python]), [extract_code_blocks] takes the
    bodies of all the blocks in their order and joins them with one empty
    line; with [clean_output] the joined text is then given to
    [clean_code_for_execution], without it the joined text is returned as
    it is. *)
Theorem extract_fenced_blocks
  (blocks : list (str * str * str)) (post : str) (clean_output : bool) :
  blocks <> [] ->
  Forall well_fenced blocks ->
  Py.contains fence post = false ->
  extract_code_blocks (fenced blocks post) clean_output =
  let code := Py.join [nl; nl] (map block_body blocks) in
  if clean_output then clean_code_for_execution code else code.
Proof.
  intros Hne Hwf Hpost. unfold extract_code_blocks.
  rewrite findall_fenced by assumption.
  destruct blocks as [|b blocks]; [congruence|]. reflexivity.
Qed.

Lemma extract_fenced_blocks_witness :
  extract_code_blocks (fenced three_blocks [nl]) false =
  Py.join [nl; nl] (map block_body three_blocks).
Proof.
  apply (@extract_fenced_blocks three_blocks [nl] false).
  - discriminate.
  - repeat apply Forall_cons; [| | |apply Forall_nil];
      (split; [vm_compute; reflexivity|split; [|vm_compute; reflexivity]]).
    + left. reflexivity.
    + right. reflexivity.
    + right. reflexivity.
  - vm_compute. reflexivity.
Defined.

(** X2. A text with no fence marker, no tab and no run of four spaces
    holds neither a fenced nor an indented block: [extract_code_blocks]
    with cleaning disabled returns it unchanged. *)
Theorem extract_code_blocks_no_block (text : str) :
  Py.contains fence text = false ->
  Py.contains (lit "    ") text = false ->
  ~ In tab text ->
  extract_code_blocks text false = text.
Proof.
  intros Hf Hsp Htab. unfold extract_code_blocks, findall1, findall2.
  rewrite (@finditer_none fence_re text)
    by (apply search_from_fence_none; assumption).
  rewrite (@finditer_none indented_re text)
    by (apply search_from_indented_none; assumption).
  reflexivity.
Qed.

Lemma extract_code_blocks_no_block_witness :
  extract_code_blocks plain_sentence false = plain_sentence.
Proof.
  apply extract_code_blocks_no_block.
  - vm_compute. reflexivity.
  - vm_compute. reflexivity.
  - vm_compute. intuition discriminate.
Defined.

Lemma findall0_requires (ch : ascii) (r : regex) (s : str) :
  requires ch r = true -> ~ In ch s -> findall0 r s = [].
Proof.
  intros Hr Hs. unfold findall0.
  rewrite finditer_none; [reflexivity|].
  now apply search_from_requires with (ch := ch).
Qed.

Lemma extract_python_like_code_none (text : str) :
  ~ In ":"%char text -> ~ In "="%char text ->
  extract_python_like_code text = None.
Proof.
  intros Hcolon Heq. unfold extract_python_like_code, python_patterns.
  cbn [flat_map].
  rewrite !(@findall0_requires ":"%char) by (try assumption; vm_compute; reflexivity).
  rewrite (@findall0_requires "="%char) by (try assumption; vm_compute; reflexivity).
  reflexivity.
Qed.

(** X3. With cleaning enabled, a text without fence marker, tab, run of
    four spaces, colon and equals sign is given to
    [clean_code_for_execution] as a whole: [extract_python_like_code]
    finds no fragment in it (each of its five patterns needs a colon or an
    equals sign). *)
Theorem extract_code_blocks_prose (text : str) :
  Py.contains fence text = false ->
  Py.contains (lit "    ") text = false ->
  ~ In tab text -> ~ In ":"%char text -> ~ In "="%char text ->
  extract_code_blocks text true = clean_code_for_execution text.
Proof.
  intros Hf Hsp Htab Hcolon Heq. unfold extract_code_blocks, findall1, findall2.
  rewrite (@finditer_none fence_re text)
    by (apply search_from_fence_none; assumption).
  rewrite (@finditer_none indented_re text)
    by (apply search_from_indented_none; assumption).
  cbn [map nonempty].
  now rewrite extract_python_like_code_none.
Qed.

Lemma extract_code_blocks_prose_witness :
  extract_code_blocks plain_sentence true
  = clean_code_for_execution plain_sentence.
Proof.
  apply extract_code_blocks_prose;
    try (vm_compute; reflexivity); vm_compute; intuition discriminate.
Defined.


(** ** The reorderer keeps the lines of code *)

Lemma block_lines_flush (st : reorder_state) :
  block_lines (flush st) = block_lines st.
Proof.
  unfold flush, block_lines. destruct (current_block st) as [|l ls] eqn:E.
  - now rewrite E.
  - cbn [code_blocks current_block]. rewrite concat_app. cbn [concat].
    now rewrite !app_nil_r.
Qed.

Lemma block_lines_append (l : str) (st : reorder_state) :
  block_lines (append_line l st) = block_lines st ++ [l].
Proof. unfold append_line, block_lines. cbn. now rewrite app_assoc. Qed.

Lemma block_lines_flags (st : reorder_state) (f c d : bool) :
  block_lines {| code_blocks := code_blocks st;
                 current_block := current_block st;
                 in_function_def := f; in_class_def := c;
                 in_docstring := d |} = block_lines st.
Proof. reflexivity. Qed.

Lemma reorder_step_block_lines (lines : list str) (st : reorder_state)
  (i : nat) (line : str) :
  exists added,
    block_lines (reorder_step lines st (i, line)) = block_lines st ++ added
    /\ filter code_line added = filter code_line [line].
Proof.
  unfold reorder_step. rewrite blank_nonempty.
  assert (Hkeep : forall st', block_lines st' = block_lines st ->
            exists added,
              block_lines (append_line line st') = block_lines st ++ added
              /\ filter code_line added = filter code_line [line]).
  { intros st' E. exists [line]. rewrite block_lines_append, E. now split. }
  destruct (Py.blank line) eqn:Eb.
  - cbn [filter]. unfold code_line at 2. rewrite Eb. cbn [negb].
    destruct (_ && _ && _).
    + exists []. now rewrite app_nil_r.
    + exists [[]]. rewrite block_lines_append. now split.
  - destruct (matches def_header_re _).
    { apply Hkeep. rewrite block_lines_flags. apply block_lines_flush. }
    destruct (matches class_header_re _).
    { apply Hkeep. rewrite block_lines_flags. apply block_lines_flush. }
    destruct (_ || _).
    { apply Hkeep. apply block_lines_flags. }
    destruct (_ || _ || _).
    { now apply Hkeep. }
    destruct (matches main_guard_re _).
    { apply Hkeep. apply block_lines_flush. }
    now apply Hkeep.
Qed.

Lemma reorder_fold_block_lines (lines : list str) (pairs : list (nat * str)) :
  forall st,
    filter code_line
      (block_lines (fold_left (reorder_step lines) pairs st))
    = filter code_line (block_lines st) ++ filter code_line (map snd pairs).
Proof.
  induction pairs as [|[i line] pairs IH]; intro st; cbn [fold_left map].
  - now rewrite app_nil_r.
  - rewrite IH.
    destruct (reorder_step_block_lines lines st i line) as (added & E & F).
    rewrite E, filter_app, F, <- app_assoc. f_equal.
    cbn [snd]. change (line :: map snd pairs) with ([line] ++ map snd pairs).
    now rewrite filter_app.
Qed.

Lemma map_snd_combine_seq {A : Type} (l : list A) (k : nat) :
  map snd (combine (List.seq k (length l)) l) = l.
Proof.
  revert k. induction l as [|x l IH]; intro k; [reflexivity|].
  cbn. f_equal. apply IH.
Qed.

Lemma current_block_flush (st : reorder_state) : current_block (flush st) = [].
Proof.
  unfold flush. destruct (current_block st) eqn:E; [exact E|reflexivity].
Qed.

Lemma logical_blocks_lines (lines : list str) :
  filter code_line (concat (logical_blocks lines)) = filter code_line lines.
Proof.
  unfold logical_blocks.
  set (st := fold_left _ _ _).
  assert (E : concat (code_blocks (flush st)) = block_lines (flush st)).
  { unfold block_lines. now rewrite current_block_flush, app_nil_r. }
  rewrite E, block_lines_flush. subst st.
  rewrite reorder_fold_block_lines. unfold enumerate.
  now rewrite map_snd_combine_seq.
Qed.

(** The second loop permutes the blocks. *)
Lemma group_step_perm (g : block_groups) (b : list str) :
  Permutation (ordered_blocks (group_step g b))
              (ordered_blocks g ++ (if nonempty b then [b] else [])).
Proof.
  unfold group_step. destruct b as [|l0 b']; [now rewrite app_nil_r|].
  cbn [nonempty]. set (b := l0 :: b'). unfold ordered_blocks.
  destruct (_ && _); [|destruct (Py.startswith (lit "class ") _);
    [|destruct (Py.startswith (lit "def ") _);
      [|destruct (Py.startswith (lit "if __name__") _)]]];
    cbn [import_blocks class_blocks function_blocks main_blocks other_blocks].
  all: rewrite <- ?app_assoc; cbn [app];
    repeat apply Permutation_app_head;
    rewrite ?app_assoc;
    first [apply Permutation_refl | apply Permutation_cons_append].
Qed.

Lemma group_fold_perm (bs : list (list str)) :
  forall g,
    Permutation (ordered_blocks (fold_left group_step bs g))
                (ordered_blocks g ++ filter (@nonempty str) bs).
Proof.
  induction bs as [|b bs IH]; intro g; cbn [fold_left filter].
  - now rewrite app_nil_r.
  - eapply Permutation_trans; [apply IH|].
    eapply Permutation_trans;
      [apply Permutation_app_tail, group_step_perm|].
    rewrite <- app_assoc. apply Permutation_app_head.
    destruct (nonempty b); apply Permutation_refl.
Qed.

Lemma concat_perm {A : Type} (l l' : list (list A)) :
  Permutation l l' -> Permutation (concat l) (concat l').
Proof.
  induction 1 as [|x l l' _ IH|x y l|l l' l'' _ IH1 _ IH2]; cbn [concat].
  - apply Permutation_refl.
  - now apply Permutation_app_head.
  - rewrite !app_assoc. apply Permutation_app_tail, Permutation_app_comm.
  - eapply Permutation_trans; eassumption.
Qed.

Lemma filter_perm {A : Type} (f : A -> bool) (l l' : list A) :
  Permutation l l' -> Permutation (filter f l) (filter f l').
Proof.
  induction 1 as [|x l l' _ IH|x y l|l l' l'' _ IH1 _ IH2]; cbn [filter].
  - apply Permutation_refl.
  - destruct (f x); [now apply perm_skip|exact IH].
  - destruct (f x), (f y);
      first [apply perm_swap | apply Permutation_refl].
  - eapply Permutation_trans; eassumption.
Qed.

Lemma concat_filter_nonempty {A : Type} (bs : list (list A)) :
  concat (filter (@nonempty A) bs) = concat bs.
Proof.
  induction bs as [|b bs IH]; [reflexivity|].
  cbn [filter concat]. destruct b as [|x b]; cbn [nonempty]; [exact IH|].
  cbn [concat]. now rewrite IH.
Qed.

Lemma ordered_blocks_perm (bs : list (list str)) :
  Permutation (concat (ordered_blocks (group_blocks bs))) (concat bs).
Proof.
  rewrite <- (concat_filter_nonempty bs).
  apply concat_perm. unfold group_blocks.
  exact (group_fold_perm bs _).
Qed.

(** The third loop adds empty lines only. *)
Lemma final_lines_fold (pairs : list (nat * list str)) :
  forall acc,
    filter code_line
      (fold_left (fun acc ib =>
                    let (i, block) := (ib : nat * list str) in
                    (if (0 <? i) && nonempty block then acc ++ [[]] else acc)
                      ++ block) pairs acc)
    = filter code_line acc ++ filter code_line (concat (map snd pairs)).
Proof.
  induction pairs as [|[i b] pairs IH]; intro acc; cbn [fold_left map concat].
  - now rewrite app_nil_r.
  - rewrite IH. cbn [snd]. rewrite !filter_app, <- app_assoc. f_equal.
    destruct (_ && _); [|reflexivity].
    rewrite filter_app. cbn. now rewrite app_nil_r.
Qed.

Lemma final_lines_code (bs : list (list str)) :
  filter code_line (final_lines bs) = filter code_line (concat bs).
Proof.
  unfold final_lines. rewrite final_lines_fold. unfold enumerate.
  now rewrite map_snd_combine_seq.
Qed.

Lemma filter_code_rstrip (ls : list str) :
  filter code_line (map Py.rstrip ls) = map Py.rstrip (filter code_line ls).
Proof.
  induction ls as [|l ls IH]; [reflexivity|].
  cbn [map filter].
  assert (E : code_line (Py.rstrip l) = code_line l)
    by (unfold code_line; now rewrite blank_rstrip).
  rewrite E. destruct (code_line l); cbn [map]; now rewrite IH.
Qed.

Lemma reorder_code_cleaned (code : str) :
  Permutation
    (map Py.rstrip (filter code_line (Py.lines code)))
    (filter code_line
       (map Py.rstrip
          (final_lines
             (ordered_blocks (group_blocks (logical_blocks (Py.lines code))))))).
Proof.
  rewrite filter_code_rstrip. apply Permutation_map.
  rewrite final_lines_code, <- logical_blocks_lines.
  apply Permutation_sym, filter_perm, ordered_blocks_perm.
Qed.

Lemma blank_rstrip_nil (l : str) : Py.blank l = true -> Py.rstrip l = [].
Proof.
  unfold Py.blank, Py.strip. intro H.
  destruct (Py.rstrip (Py.lstrip l)) eqn:E; [|discriminate H]. clear H.
  destruct (dropwhile_split Py.isspace l) as (w & Hl & Hw).
  fold (Py.lstrip l) in Hl.
  destruct (rstrip_split (Py.lstrip l)) as (w' & Hl' & Hw').
  rewrite E in Hl'. cbn [app] in Hl'.
  rewrite Hl, Hl', <- (app_nil_l (w ++ w')).
  rewrite rstrip_app_spaces; [reflexivity|].
  rewrite forallb_app, Hw, Hw'. reflexivity.
Qed.

Lemma In_filter_code (l : str) (ls : list str) :
  In l ls -> Py.blank l = false -> In l (filter code_line ls).
Proof.
  intros H Hb. apply filter_In. split; [exact H|].
  unfold code_line. now rewrite Hb.
Qed.

Lemma reorder_code_cleaned_no_nl (code : str) :
  Forall (fun l => ~ In nl l)
    (map Py.rstrip
       (final_lines
          (ordered_blocks (group_blocks (logical_blocks (Py.lines code)))))).
Proof.
  apply Forall_forall. intros x Hx.
  apply in_map_iff in Hx. destruct Hx as (y & <- & Hy).
  destruct (Py.blank y) eqn:Eb.
  - rewrite blank_rstrip_nil by exact Eb. intros [].
  - pose proof (In_filter_code _ _ Hy Eb) as H.
    rewrite final_lines_code in H.
    apply (Permutation_in _ (filter_perm code_line (ordered_blocks_perm _))) in H.
    rewrite logical_blocks_lines in H.
    apply filter_In in H. destruct H as [H _].
    intro Hn. apply rstrip_incl in Hn.
    pose proof (lines_no_nl code) as Hl.
    rewrite Forall_forall in Hl. exact (Hl _ H Hn).
Qed.

Lemma reorder_code_cleaned_lines (code : str) :
  Permutation
    (map Py.rstrip (filter code_line (Py.lines code)))
    (filter code_line (Py.lines (reorder_code code))).
Proof.
  eapply Permutation_trans; [apply reorder_code_cleaned|].
  unfold reorder_code. cbv zeta.
  set (cleaned := map Py.rstrip _).
  destruct cleaned as [|l ls] eqn:E; [apply Permutation_refl|].
  rewrite <- E.
  destruct (@final_newline_lines cleaned) as [H|[H _]].
  - rewrite E. discriminate.
  - subst cleaned. apply reorder_code_cleaned_no_nl.
  - rewrite H. apply Permutation_refl.
  - rewrite H, filter_app. cbn. rewrite app_nil_r. apply Permutation_refl.
Qed.

(** ** The cleaner keeps the lines of code *)

Lemma in_group_not_import (g : import_group) (l : str) :
  is_import_line l = false -> in_group g l = false.
Proof. unfold in_group. now intros ->. Qed.

Lemma import_partition_perm (ls : list str) :
  Permutation
    (filter (in_group Standard) ls ++ filter (in_group ThirdParty) ls
       ++ filter (in_group Local) ls
       ++ filter (fun l => negb (is_import_line l)) ls) ls.
Proof.
  induction ls as [|x ls IH]; [apply Permutation_refl|].
  cbn [filter]. destruct (is_import_line x) eqn:Ei.
  - assert (Eg : forall g, in_group g x
                             = import_group_eqb (classify_import x) g)
      by (intro g; unfold in_group; now rewrite Ei).
    rewrite !Eg. cbn [negb].
    destruct (classify_import x); cbn [import_group_eqb app].
    + now apply perm_skip.
    + apply Permutation_sym.
      eapply Permutation_trans;
        [apply perm_skip, Permutation_sym, IH|].
      apply Permutation_middle.
    + apply Permutation_sym.
      eapply Permutation_trans;
        [apply perm_skip, Permutation_sym, IH|].
      rewrite !(app_assoc (filter (in_group Standard) ls)
                          (filter (in_group ThirdParty) ls)).
      apply Permutation_middle.
  - rewrite !(in_group_not_import _ _ Ei). cbn [negb].
    apply Permutation_sym.
    eapply Permutation_trans; [apply perm_skip, Permutation_sym, IH|].
    rewrite !app_assoc. apply Permutation_middle.
Qed.

Lemma move_imports_to_top_code_lines (code : str) :
  Permutation (filter code_line (Py.lines code))
              (filter code_line (Py.lines (move_imports_to_top code))).
Proof.
  destruct (move_imports_to_top_lines code) as (sep & Hsep & E).
  rewrite E. apply Permutation_sym.
  eapply Permutation_trans;
    [|apply filter_perm, (import_partition_perm (Py.lines code))].
  rewrite !filter_app.
  assert (Hs : filter code_line sep = [])
    by (destruct Hsep as [-> | ->]; reflexivity).
  rewrite Hs. apply Permutation_refl.
Qed.

Lemma scrubbed_code_lines (ls : list str) :
  Forall (fun l => ~ In nl l) ls ->
  filter code_line (Py.lines (Py.unlines ls)) = filter code_line ls.
Proof.
  intro H. destruct ls as [|l ls]; [reflexivity|].
  rewrite lines_unlines; [reflexivity|discriminate|exact H].
Qed.

Lemma clean_code_for_execution_perm (code : str) :
  Permutation
    (map Py.rstrip
       (filter code_line
          (filter (fun line => negb (is_artifact line)) (Py.lines code))))
    (filter code_line (Py.lines (clean_code_for_execution code))).
Proof.
  unfold clean_code_for_execution. cbv zeta.
  eapply Permutation_trans; [|apply move_imports_to_top_code_lines].
  eapply Permutation_trans; [|apply reorder_code_cleaned_lines].
  rewrite scrubbed_code_lines; [apply Permutation_refl|].
  apply Forall_no_nl_filter, lines_no_nl.
Qed.

Lemma is_artifact_rstrip (l : str) :
  is_artifact (Py.rstrip l) = is_artifact l.
Proof. unfold is_artifact. now rewrite strip_rstrip. Qed.

Lemma blank_not_artifact (l : str) :
  Py.blank l = true -> is_artifact l = false.
Proof.
  unfold Py.blank, is_artifact. destruct (Py.strip l); [|discriminate].
  intros _. vm_compute. reflexivity.
Qed.

(** X5. [reorder_code] moves lines and neither drops nor repeats one: the
    lines of its result that are not blank are, up to their order, the
    lines of the input that are not blank, each without its trailing
    white space. *)
Theorem reorder_code_keeps_lines (code : str) :
  Permutation
    (map Py.rstrip (filter code_line (Py.lines code)))
    (filter code_line (Py.lines (reorder_code code))).
Proof. apply reorder_code_cleaned_lines. Qed.

(** X7. [clean_code_for_execution] returns the code lines that are not
    artifacts: the lines of its result that are not blank are, up to their
    order, the lines of the input that are neither blank nor an
    interpreter artifact, each without its trailing white space. *)
Theorem clean_code_for_execution_keeps_lines (code : str) :
  Permutation
    (map Py.rstrip
       (filter code_line
          (filter (fun line => negb (is_artifact line)) (Py.lines code))))
    (filter code_line (Py.lines (clean_code_for_execution code))).
Proof. apply clean_code_for_execution_perm. Qed.

(** X8. No line of the result of [clean_code_for_execution] is an
    interpreter artifact (a prompt, an output number or an object
    representation). *)
Theorem clean_code_for_execution_no_artifact (code l : str) :
  In l (Py.lines (clean_code_for_execution code)) -> is_artifact l = false.
Proof.
  intro Hl. destruct (Py.blank l) eqn:Eb; [exact (blank_not_artifact _ Eb)|].
  pose proof (In_filter_code _ _ Hl Eb) as H.
  apply (Permutation_in _ (Permutation_sym (clean_code_for_execution_perm code)))
    in H.
  apply in_map_iff in H. destruct H as (y & <- & Hy).
  rewrite is_artifact_rstrip.
  apply filter_In in Hy. destruct Hy as [Hy _].
  apply filter_In in Hy. destruct Hy as [_ Hy].
  destruct (is_artifact y); [discriminate Hy|reflexivity].
Qed.

Lemma clean_code_for_execution_no_artifact_witness :
  is_artifact (lit "print(x)") = false.
Proof.
  apply (@clean_code_for_execution_no_artifact session_transcript).
  vm_compute. tauto.
Defined.


(** ** [re.sub] on a class of characters *)

Lemma all_or_first (f : ascii -> bool) (s : str) :
  forallb (fun c => negb (f c)) s = true
  \/ exists u a s', s = u ++ a :: s'
                    /\ forallb (fun c => negb (f c)) u = true /\ f a = true.
Proof.
  induction s as [|c s IH]; [now left|].
  destruct (f c) eqn:E.
  - right. exists [], c, s. now repeat split.
  - destruct IH as [IH|(u & a & s' & -> & Hu & Ha)].
    + left. cbn. now rewrite E.
    + right. exists (c :: u), a, s'. repeat split; [|exact Ha].
      cbn. now rewrite E.
Qed.

Lemma search_sym_hit (f : ascii -> bool) (a : ascii) (s' : str) :
  f a = true ->
  forall u adv p,
    forallb (fun c => negb (f c)) u = true ->
    search_from (Sym f) adv p (u ++ a :: s')
    = Some (p + length u, S (p + length u), []).
Proof.
  intros Ha u. induction u as [|c u IH]; intros adv p Hu.
  - cbn [app search_from]. unfold match_at. cbn [run]. rewrite Ha.
    replace (S p =? p) with false by (symmetry; apply Nat.eqb_neq; lia).
    rewrite andb_false_r. cbn [length]. now rewrite Nat.add_0_r.
  - cbn [forallb] in Hu. apply andb_true_iff in Hu. destruct Hu as [Hc Hu].
    apply negb_true_iff in Hc.
    cbn [app search_from]. unfold match_at. cbn [run]. rewrite Hc.
    rewrite IH by exact Hu. cbn [length].
    now rewrite Nat.add_succ_r.
Qed.

Lemma search_sym_miss (f : ascii -> bool) (u : str) :
  forallb (fun c => negb (f c)) u = true ->
  forall adv p, search_from (Sym f) adv p u = None.
Proof.
  induction u as [|c u IH]; intros Hu adv p.
  - reflexivity.
  - cbn [forallb] in Hu. apply andb_true_iff in Hu. destruct Hu as [Hc Hu].
    apply negb_true_iff in Hc.
    cbn [search_from]. unfold match_at. cbn [run]. rewrite Hc.
    now apply IH.
Qed.

Lemma expand_literal (subject : str) (m : mtch) (repl : str) :
  Template.expand subject m (map Template.Lit repl) = repl.
Proof.
  unfold Template.expand. induction repl as [|c repl IH]; [reflexivity|].
  cbn [map flat_map app]. now rewrite IH.
Qed.

Lemma flat_map_unchanged (f : ascii -> bool) (repl u : str) :
  forallb (fun c => negb (f c)) u = true ->
  flat_map (fun c => if f c then repl else [c]) u = u.
Proof.
  induction u as [|c u IH]; intro Hu; [reflexivity|].
  cbn [forallb] in Hu. apply andb_true_iff in Hu. destruct Hu as [Hc Hu].
  apply negb_true_iff in Hc. cbn [flat_map]. rewrite Hc, IH by exact Hu.
  reflexivity.
Qed.

Lemma build_sym (f : ascii -> bool) (repl : str) :
  forall fuel s adv pre,
    length s < fuel ->
    Template.build (pre ++ s) (length pre)
      (finditer_from fuel (Sym f) adv (length pre) s) (map Template.Lit repl)
    = flat_map (fun c => if f c then repl else [c]) s.
Proof.
  induction fuel as [|fuel IH]; intros s adv pre Hlen; [lia|].
  cbn [finditer_from].
  destruct (all_or_first f s) as [Hs|(u & a & s' & -> & Hu & Ha)].
  - rewrite search_sym_miss by exact Hs. cbn [Template.build].
    rewrite skipn_app_exact. now rewrite flat_map_unchanged.
  - rewrite (@search_sym_hit f a s' Ha) by exact Hu.
    cbn [Template.build mstart mend fst snd].
    rewrite expand_literal.
    replace (S (length pre + length u) =? length pre + length u) with false
      by (symmetry; apply Nat.eqb_neq; lia).
    replace (S (length pre + length u) - length pre) with (length (u ++ [a]))
      by (rewrite length_app; cbn [length]; lia).
    replace (u ++ a :: s') with ((u ++ [a]) ++ s')
      by (now rewrite <- app_assoc).
    rewrite skipn_app_exact.
    replace (S (length pre + length u)) with (length (pre ++ u ++ [a]))
      by (rewrite !length_app; cbn [length]; lia).
    replace (pre ++ (u ++ [a]) ++ s') with ((pre ++ u ++ [a]) ++ s')
      by (now rewrite <- !app_assoc).
    rewrite IH by (rewrite !length_app in Hlen; cbn [length] in Hlen; lia).
    rewrite <- !app_assoc.
    replace (slice (pre ++ u ++ [a] ++ s') (length pre)
                   (length pre + length u)) with u
      by (symmetry; apply slice_middle).
    rewrite flat_map_app, (@flat_map_unchanged f repl u Hu).
    cbn [flat_map app]. rewrite Ha. reflexivity.
Qed.

(** [re.sub] with a class of characters as pattern replaces each
    character of the class. *)
Lemma sub_literal_sym (f : ascii -> bool) (repl s : str) :
  sub_literal (Sym f) repl s
  = flat_map (fun c => if f c then repl else [c]) s.
Proof.
  unfold sub_literal, finditer.
  apply (@build_sym f repl _ s false []). lia.
Qed.

(** ** Names *)

Lemma forallb_firstn {A : Type} (f : A -> bool) (n : nat) (l : list A) :
  forallb f l = true -> forallb f (firstn n l) = true.
Proof.
  revert n. induction l as [|x l IH]; intros [|n] H; try reflexivity.
  cbn [forallb firstn] in *. apply andb_true_iff in H.
  destruct H as [-> H]. now rewrite IH.
Qed.

Lemma isword_underscored (s : str) :
  forallb isword
    (flat_map (fun c => if negb (isword c) then lit "_" else [c]) s) = true.
Proof.
  induction s as [|c s IH]; [reflexivity|].
  cbn [flat_map]. rewrite forallb_app, IH, andb_true_r.
  destruct (isword c) eqn:E; cbn [negb forallb]; [now rewrite E|reflexivity].
Qed.

(** X16. For every prompt, code and clock reading the name returned by
    [generate_project_name] has at most 30 characters, all of them word
    characters (letters, digits, underscore).  The name can be empty. *)
Theorem generate_project_name_valid (timestamp prompt code : str) :
  length (generate_project_name timestamp prompt code) <= 30
  /\ forallb isword (generate_project_name timestamp prompt code) = true.
Proof.
  unfold generate_project_name. cbv zeta.
  rewrite sub_literal_sym.
  set (name := flat_map _ _).
  assert (Hw : forallb isword name = true) by apply isword_underscored.
  destruct (30 <? length name) eqn:E.
  - split; [apply firstn_le_length|now apply forallb_firstn].
  - apply Nat.ltb_ge in E. now split.
Qed.

Lemma name_char_kept (s : str) :
  forallb name_char
    (flat_map (fun c => if negb (name_char c) then [] else [c]) s) = true.
Proof.
  induction s as [|c s IH]; [reflexivity|].
  cbn [flat_map]. rewrite forallb_app, IH, andb_true_r.
  destruct (name_char c) eqn:E; cbn [negb forallb]; [now rewrite E|reflexivity].
Qed.

(** X15. When the code holds neither [class] nor [def],
    [generate_filename_from_content] names the file after the prompt: the
    result is a stem followed by [.py]; when the prompt has a relevant
    word the stem consists of characters of [a-z0-9_] only (it can be
    empty), otherwise it is [code_] followed by the clock reading. *)
Theorem generate_filename_from_prompt (timestamp code prompt : str) :
  Py.contains (lit "class") code = false ->
  Py.contains (lit "def") code = false ->
  exists stem,
    generate_filename_from_content timestamp code prompt = stem ++ lit ".py"
    /\ if nonempty (relevant_words prompt)
       then forallb name_char stem = true
       else stem = lit "code_" ++ timestamp.
Proof.
  intros Hclass Hdef. unfold generate_filename_from_content.
  assert (Ec : search class_word_re code = None).
  { unfold search, class_word_re. cbn [seq]. unfold txt at 1.
    now apply search_from_literal_none. }
  assert (Ed : search def_word_re code = None).
  { unfold search, def_word_re. cbn [seq]. unfold txt at 1.
    now apply search_from_literal_none. }
  rewrite Ec, Ed. cbv zeta.
  destruct (nonempty (relevant_words prompt)).
  - eexists. split; [reflexivity|].
    rewrite sub_literal_sym. apply name_char_kept.
  - exists (lit "code_" ++ timestamp). split; [|reflexivity].
    now rewrite <- app_assoc.
Qed.

Lemma generate_filename_from_prompt_witness :
  exists stem,
    generate_filename_from_content (lit "20240101_120000") (lit "x = 1")
      (lit "Sort the numbers quickly!") = stem ++ lit ".py"
    /\ if nonempty (relevant_words (lit "Sort the numbers quickly!"))
       then forallb name_char stem = true
       else stem = lit "code_" ++ lit "20240101_120000".
Proof.
  apply generate_filename_from_prompt; vm_compute; reflexivity.
Defined.

(** ** Greedy repetition of a class *)

Lemma rep_sym_greedy (f : ascii -> bool) (k : kont) (x : nat * caps)
  (rest : str) (c : caps) :
  match rest with [] => True | b :: _ => f b = false end ->
  forall a n p,
    forallb f a = true ->
    length (a ++ rest) <= n ->
    k (p + length a) rest c = Some x ->
    rep_loop (run (Sym f)) true k n p (a ++ rest) c = Some x.
Proof.
  intros Hrest a. induction a as [|a0 a IH]; intros n p Ha Hn Hk.
  - cbn [app length] in *. rewrite Nat.add_0_r in Hk.
    destruct n as [|n]; [exact Hk|].
    cbn [rep_loop run].
    destruct rest as [|b rest]; [now rewrite Hk|].
    now rewrite Hrest, Hk.
  - cbn [forallb] in Ha. apply andb_true_iff in Ha. destruct Ha as [Ha0 Ha].
    destruct n as [|n]; [cbn in Hn; lia|].
    cbn [app rep_loop run]. rewrite Ha0.
    replace (p <? S p) with true by (symmetry; apply Nat.ltb_lt; lia).
    rewrite IH; [reflexivity|exact Ha|cbn in Hn; lia|].
    cbn [length] in Hk. now rewrite Nat.add_succ_r in Hk.
Qed.

Lemma run_plus_sym (f : ascii -> bool) (k : kont) (x : nat * caps)
  (a rest : str) (p : nat) (c : caps) :
  a <> [] -> forallb f a = true ->
  match rest with [] => True | b :: _ => f b = false end ->
  k (p + length a) rest c = Some x ->
  run (plus (Sym f)) p (a ++ rest) c k = Some x.
Proof.
  intros Hne Ha Hrest Hk. destruct a as [|a0 a]; [congruence|].
  cbn [forallb] in Ha. apply andb_true_iff in Ha. destruct Ha as [Ha0 Ha].
  unfold plus. cbn [run app]. rewrite Ha0.
  apply rep_sym_greedy; [exact Hrest|exact Ha|lia|].
  cbn [length] in Hk. now rewrite Nat.add_succ_r in Hk.
Qed.

(** The search passes a text in which the literal does not start. *)
Lemma search_from_literal_gap (l' : str) (x : ascii) (r : regex)
  (rest : str) :
  forall pre p,
    Py.contains (l' ++ [x]) (pre ++ l') = false ->
    search_from (Cat (text (l' ++ [x])) r) false p (pre ++ (l' ++ [x]) ++ rest)
    = search_from (Cat (text (l' ++ [x])) r) false (p + length pre)
        ((l' ++ [x]) ++ rest).
Proof.
  induction pre as [|a pre IH]; intros p H.
  - cbn [app length]. now rewrite Nat.add_0_r.
  - cbn [app search_from]. unfold match_at. cbn [run]. rewrite run_text.
    assert (E : Py.startswith (l' ++ [x]) (a :: pre ++ (l' ++ [x]) ++ rest)
                = false).
    { pose proof (contains_startswith _ _ H) as Hs.
      rewrite <- app_assoc.
      change (a :: pre ++ l' ++ [x] ++ rest)
        with ((a :: pre) ++ l' ++ [x] ++ rest).
      rewrite app_assoc, startswith_app_long; [exact Hs|].
      rewrite !length_app. cbn [length]. lia. }
    rewrite E. rewrite IH.
    + f_equal. cbn [length]. lia.
    + cbn [app] in H. rewrite contains_cons in H.
      apply orb_false_iff in H. apply H.
Qed.

(** ** Facts about characters, checked on every character *)

Lemma char_facts (c : ascii) :
  (isword c = true -> Py.isspace c = false)
  /\ (Py.between 65 90 c = true ->
        isupper c = true /\ isword c = true
        /\ Ascii.eqb "_" (lower_char c) = false)
  /\ (Py.between 97 122 c || Py.between 48 57 c = true ->
        isupper c = false /\ isword c = true).
Proof.
  assert (H : forallb (fun c =>
                implb (isword c) (negb (Py.isspace c))
                && implb (Py.between 65 90 c)
                     (isupper c && isword c
                      && negb (Ascii.eqb "_" (lower_char c)))
                && implb (Py.between 97 122 c || Py.between 48 57 c)
                     (negb (isupper c) && isword c)) all_chars = true)
    by (vm_compute; reflexivity).
  rewrite forallb_forall in H. specialize (H c (all_chars_In c)).
  apply andb_true_iff in H. destruct H as [H H3].
  apply andb_true_iff in H. destruct H as [H1 H2].
  split; [|split].
  - intro E. rewrite E in H1. now apply negb_true_iff in H1.
  - intro E. rewrite E in H2. cbn [implb] in H2.
    apply andb_true_iff in H2. destruct H2 as [H2 Hl].
    apply andb_true_iff in H2. destruct H2 as [Hu Hw].
    apply negb_true_iff in Hl. now repeat split.
  - intro E. rewrite E in H3. cbn [implb] in H3.
    apply andb_true_iff in H3. destruct H3 as [Hu Hw].
    apply negb_true_iff in Hu. now split.
Qed.

(** ** The name of the first class *)

Lemma run_class_word (name rest : str) (p : nat) (k : kont) (x : nat * caps) :
  name <> [] -> forallb isword name = true -> word_end rest ->
  k (p + 6 + length name) rest [(1, (p + 6, p + 6 + length name))] = Some x ->
  run class_word_re p (lit "class " ++ name ++ rest) [] k = Some x.
Proof.
  intros Hne Hw Hend Hk. unfold class_word_re. cbn [seq run].
  unfold txt. rewrite run_text.
  change (lit "class " ++ name ++ rest)
    with (lit "class" ++ [" "%char] ++ name ++ rest).
  rewrite startswith_app, skipn_app_exact.
  change (length (lit "class")) with 5.
  apply run_plus_sym.
  - discriminate.
  - reflexivity.
  - destruct name as [|n0 name]; [congruence|]. cbn [app].
    cbn [forallb] in Hw. apply andb_true_iff in Hw.
    now apply (char_facts n0).
  - cbn [length].
    apply (@run_plus_sym isword); [exact Hne|exact Hw|exact Hend|].
    replace (p + 5 + 1) with (p + 6) by lia. exact Hk.
Qed.

Lemma search_class_word (pre name rest : str) :
  Py.contains (lit "class") (pre ++ lit "clas") = false ->
  name <> [] -> forallb isword name = true -> word_end rest ->
  search class_word_re (pre ++ lit "class " ++ name ++ rest)
  = Some (length pre, length pre + 6 + length name,
          [(1, (length pre + 6, length pre + 6 + length name))]).
Proof.
  intros Hpre Hne Hw Hend. unfold search.
  change (lit "class " ++ name ++ rest)
    with ((lit "clas" ++ ["s"%char]) ++ " "%char :: name ++ rest).
  change class_word_re
    with (Cat (text (lit "clas" ++ ["s"%char]))
            (Cat (plus ws) (Grp 1 (plus wd)))).
  rewrite search_from_literal_gap by exact Hpre.
  apply search_from_hit. unfold match_at.
  change (Cat (text (lit "clas" ++ ["s"%char]))
            (Cat (plus ws) (Grp 1 (plus wd)))) with class_word_re.
  change ((lit "clas" ++ ["s"%char]) ++ " "%char :: name ++ rest)
    with (lit "class " ++ name ++ rest).
  cbn [Nat.add].
  rewrite (@run_class_word name rest (length pre) _
             (length pre + 6 + length name,
              [(1, (length pre + 6, length pre + 6 + length name))]));
    try assumption; reflexivity.
Qed.

Lemma join_cons (sep x : str) (xs : list str) :
  Py.join sep (x :: xs) = x ++ concat (map (app sep) xs).
Proof.
  revert x. induction xs as [|y xs IH]; intro x.
  - cbn. now rewrite app_nil_r.
  - change (Py.join sep (x :: y :: xs)) with (x ++ sep ++ Py.join sep (y :: xs)).
    rewrite IH. cbn [map concat]. now rewrite <- app_assoc.
Qed.

Lemma lower_word (w : str) :
  capitalised w = true ->
  flat_map (fun c => if isupper c then ["_"%char; lower_char c] else [c]) w
  = "_"%char :: lower w
  /\ exists c t, lower w = c :: t /\ Ascii.eqb "_" c = false.
Proof.
  destruct w as [|u t]; [discriminate|]. cbn [capitalised].
  intro H. apply andb_true_iff in H. destruct H as [Hu Ht].
  destruct (proj1 (proj2 (char_facts u)) Hu) as (Eu & _ & El).
  assert (E : flat_map (fun c => if isupper c then ["_"%char; lower_char c]
                                 else [c]) t = t
              /\ lower t = t).
  { clear Hu Eu El. induction t as [|a t IH]; [now split|].
    cbn [forallb] in Ht. apply andb_true_iff in Ht. destruct Ht as [Ha Ht].
    destruct (proj2 (proj2 (char_facts a)) Ha) as [Ea _].
    destruct (IH Ht) as [IH1 IH2].
    assert (Ela : lower_char a = a) by (unfold lower_char; now rewrite Ea).
    unfold lower in *. cbn [flat_map map].
    rewrite Ea, IH1, IH2, Ela. now split. }
  destruct E as [E1 E2]. split.
  - cbn [flat_map]. rewrite Eu, E1. unfold lower in *. cbn [map app].
    now rewrite E2.
  - exists (lower_char u), (lower t). split; [reflexivity|exact El].
Qed.

Lemma snake_case_words (w : str) (ws : list str) :
  forallb capitalised (w :: ws) = true ->
  snake_case (concat (w :: ws)) = Py.join (lit "_") (map lower (w :: ws)).
Proof.
  intro H. unfold snake_case.
  assert (E : forall l, forallb capitalised l = true ->
            flat_map (fun c => if isupper c then ["_"%char; lower_char c]
                               else [c]) (concat l)
            = concat (map (app (lit "_")) (map lower l))).
  { induction l as [|v l IH]; intro Hl; [reflexivity|].
    cbn [forallb] in Hl. apply andb_true_iff in Hl. destruct Hl as [Hv Hl].
    cbn [concat map]. rewrite flat_map_app, (IH Hl).
    now rewrite (proj1 (lower_word v Hv)). }
  rewrite (E _ H). cbn [map concat]. rewrite join_cons.
  cbn [forallb] in H. apply andb_true_iff in H. destruct H as [Hw _].
  destruct (proj2 (lower_word w Hw)) as (c & t & -> & Hc).
  change (lit "_") with ["_"%char].
  cbn [app Py.dropwhile]. now rewrite Hc.
Qed.

Lemma isword_capitalised (ws : list str) :
  forallb capitalised ws = true -> forallb isword (concat ws) = true.
Proof.
  induction ws as [|w ws IH]; intro H; [reflexivity|].
  cbn [forallb] in H. apply andb_true_iff in H. destruct H as [Hw H].
  cbn [concat]. rewrite forallb_app, (IH H), andb_true_r.
  destruct w as [|u t]; [discriminate|]. cbn [capitalised] in Hw.
  apply andb_true_iff in Hw. destruct Hw as [Hu Ht].
  cbn [forallb]. rewrite (proj1 (proj2 (proj1 (proj2 (char_facts u)) Hu))).
  cbn [andb]. clear Hu. induction t as [|a t IHt]; [reflexivity|].
  cbn [forallb] in *. apply andb_true_iff in Ht. destruct Ht as [Ha Ht].
  rewrite (proj2 (proj2 (proj2 (char_facts a)) Ha)). now apply IHt.
Qed.

(** X14. When the first occurrence of [class] in the code is followed by
    one space and a name in CamelCase (capitalised ASCII words, then a
    character that is not a word character),
    [generate_filename_from_content] returns the words in lower case,
    joined with underscores, followed by [.py], whatever the prompt. *)
Theorem generate_filename_of_class
  (timestamp pre rest prompt : str) (ws : list str) :
  Py.contains (lit "class") (pre ++ lit "clas") = false ->
  ws <> [] -> forallb capitalised ws = true -> word_end rest ->
  generate_filename_from_content timestamp
    (pre ++ lit "class " ++ concat ws ++ rest) prompt
  = Py.join (lit "_") (map lower ws) ++ lit ".py".
Proof.
  intros Hpre Hne Hcap Hend. unfold generate_filename_from_content.
  assert (Hname : concat ws <> []).
  { destruct ws as [|[|u t] ws]; [congruence|discriminate Hcap|discriminate]. }
  rewrite search_class_word;
    [|exact Hpre|exact Hname|now apply isword_capitalised|exact Hend].
  cbn [group lookup Nat.eqb snd].
  replace (pre ++ lit "class " ++ concat ws ++ rest)
    with ((pre ++ lit "class ") ++ concat ws ++ rest)
    by (now rewrite <- app_assoc).
  replace (length pre + 6) with (length (pre ++ lit "class "))
    by (rewrite length_app; reflexivity).
  rewrite slice_middle.
  destruct ws as [|w ws]; [congruence|].
  now rewrite snake_case_words.
Qed.

Lemma generate_filename_of_class_witness :
  generate_filename_from_content []
    ((lit "import os" ++ [nl; nl]) ++ lit "class "
       ++ concat [lit "Binary"; lit "Search"; lit "Tree"]
       ++ (lit ":" ++ nl :: lit "    pass")) []
  = Py.join (lit "_") (map lower [lit "Binary"; lit "Search"; lit "Tree"])
      ++ lit ".py".
Proof.
  apply generate_filename_of_class.
  - vm_compute. reflexivity.
  - discriminate.
  - vm_compute. reflexivity.
  - vm_compute. reflexivity.
Defined.


(** ** Sets and sorted lists of names *)

Lemma mem_In (x : str) (l : list str) : mem x l = true <-> In x l.
Proof.
  unfold mem. rewrite existsb_exists. split.
  - intros (y & Hy & E). apply py_eqb_eq in E. now subst.
  - intro H. exists x. split; [exact H|apply py_eqb_refl].
Qed.

Lemma set_add_In (s : list str) (y x : str) :
  In x (set_add s y) <-> In x s \/ x = y.
Proof.
  unfold set_add. destruct (mem y s) eqn:E.
  - apply mem_In in E. split; [now left|]. intros [H | ->]; assumption.
  - rewrite in_app_iff. cbn [In]. intuition.
Qed.

Lemma fold_set_add_In (l : list str) (x : str) :
  forall acc, In x (fold_left set_add l acc) <-> In x acc \/ In x l.
Proof.
  induction l as [|y l IH]; intro acc; cbn [fold_left In].
  - tauto.
  - rewrite IH, set_add_In. intuition.
Qed.

Lemma insert_sorted_In (x y : str) (l : list str) :
  In x (insert_sorted y l) <-> x = y \/ In x l.
Proof.
  induction l as [|z l IH]; cbn [insert_sorted In]; [intuition|].
  destruct (Py.leb y z); cbn [In]; [intuition|].
  rewrite IH. intuition.
Qed.

Lemma sort_In (x : str) (l : list str) : In x (sort l) <-> In x l.
Proof.
  induction l as [|y l IH]; cbn [sort fold_right In]; [tauto|].
  fold (sort l). rewrite insert_sorted_In, IH. intuition.
Qed.

Lemma leb_total (a b : str) : Py.leb a b = false -> Py.leb b a = true.
Proof.
  revert b. induction a as [|x a IH]; intros [|y b] H; cbn [Py.leb] in *;
    try reflexivity; try discriminate.
  destruct (Py.code x <? Py.code y) eqn:E1; [discriminate|].
  destruct (Py.code y <? Py.code x) eqn:E2; [reflexivity|].
  now apply IH.
Qed.

Lemma insert_sorted_ascending (x : str) (l : list str) :
  ascending l -> ascending (insert_sorted x l).
Proof.
  induction l as [|y l IH]; intro H; cbn [insert_sorted].
  - cbn. tauto.
  - destruct (Py.leb x y) eqn:E.
    + cbn [ascending]. split; [exact E|exact H].
    + cbn [ascending] in H. destruct H as [Hy Hl].
      specialize (IH Hl). cbn [ascending]. split; [|exact IH].
      destruct l as [|z l]; cbn [insert_sorted].
      * now apply leb_total.
      * destruct (Py.leb x z); [now apply leb_total|exact Hy].
Qed.

Lemma sort_ascending (l : list str) : ascending (sort l).
Proof.
  induction l as [|x l IH]; [exact I|].
  cbn [sort fold_right]. now apply insert_sorted_ascending.
Qed.

(** ** The names taken from an import line *)

Lemma split_first_no_sep (ch : ascii) (s : str) :
  ~ In ch (item0 (Py.split [ch] s)).
Proof.
  unfold item0, Py.split. induction s as [|c s IH]; [intros []|].
  cbn [Py.split_aux Py.startswith length Nat.sub].
  rewrite andb_true_r.
  destruct (Ascii.eqb ch c) eqn:E; [intros []|].
  apply Ascii.eqb_neq in E.
  destruct (Py.split_aux [ch] s 0) as [|h t]; cbn [nth] in *.
  - intros [H|[]]. congruence.
  - intros [H|H]; [congruence|auto].
Qed.

Lemma line_packages_top_level (line p : str) :
  In p (line_packages line) -> ~ In "."%char p.
Proof.
  unfold line_packages. destruct (Py.startswith (lit "import ") line).
  - intro H. apply in_map_iff in H. destruct H as (part & <- & _).
    apply split_first_no_sep.
  - intros [<-|[]]. apply split_first_no_sep.
Qed.

Lemma packages_top_level (code p : str) :
  In p (packages code) -> ~ In "."%char p.
Proof.
  unfold packages. cbv zeta. rewrite fold_set_add_In.
  intros [[]|H]. apply in_flat_map in H. destruct H as (line & _ & H).
  now apply line_packages_top_level in H.
Qed.

Lemma package_mapping_values (k v : str) :
  dict_get k package_mapping = Some v ->
  mem v requirements_std_lib_modules = false /\ ~ In "."%char v.
Proof.
  intro H. apply dict_get_In in H. destruct H as (k' & H).
  unfold package_mapping in H. cbn [In] in H.
  repeat (destruct H as [H|H];
          [injection H as _ <-; split;
           [vm_compute; reflexivity|vm_compute; intuition discriminate]|]).
  destruct H.
Qed.

Lemma requirements_In (code r : str) :
  In r (requirements code) <->
  exists p, In p (packages code)
            /\ mem p requirements_std_lib_modules = false
            /\ r = pypi_name p.
Proof.
  unfold requirements. cbv zeta. rewrite sort_In, in_map_iff. split.
  - intros (p & <- & H). apply filter_In in H. destruct H as [H1 H2].
    apply negb_true_iff in H2. now exists p.
  - intros (p & H1 & H2 & ->). exists p. split; [reflexivity|].
    apply filter_In. split; [exact H1|]. now rewrite H2.
Qed.

(** X17. Every name that [generate_requirements_file] lists is outside
    its set of standard-library modules and is a top-level name: it holds
    no dot. *)
Theorem requirements_entries (code r : str) :
  In r (requirements code) ->
  mem r requirements_std_lib_modules = false /\ ~ In "."%char r.
Proof.
  intro H. apply requirements_In in H. destruct H as (p & Hp & Hstd & ->).
  unfold pypi_name. destruct (dict_get p package_mapping) as [v|] eqn:E.
  - now apply package_mapping_values with (k := p).
  - split; [exact Hstd|now apply packages_top_level with (code := code)].
Qed.

Lemma requirements_entries_witness :
  mem (lit "scikit-learn") requirements_std_lib_modules = false
  /\ ~ In "."%char (lit "scikit-learn").
Proof.
  apply (@requirements_entries mixed_imports).
  vm_compute. tauto.
Defined.

(** X18. The names that [generate_requirements_file] lists are in
    ascending order of their code points. *)
Theorem requirements_ascending (code : str) : ascending (requirements code).
Proof. unfold requirements. apply sort_ascending. Qed.

(** X20. [generate_requirements_file] writes no file exactly when every
    package named by an import line of the code is in its set of
    standard-library modules (in particular when the code has no import
    line). *)
Theorem generate_requirements_file_none (code : str) :
  generate_requirements_file code = None <->
  forall p, In p (packages code) ->
            mem p requirements_std_lib_modules = true.
Proof.
  unfold generate_requirements_file. cbv zeta. split.
  - intros H p Hp.
    destruct (mem p requirements_std_lib_modules) eqn:E; [reflexivity|].
    assert (Hr : In (pypi_name p) (requirements code))
      by (apply requirements_In; now exists p).
    destruct (requirements code); [destruct Hr|discriminate H].
  - intro H. destruct (requirements code) as [|r rs] eqn:E; [reflexivity|].
    assert (Hr : In r (requirements code)) by (rewrite E; now left).
    apply requirements_In in Hr. destruct Hr as (p & Hp & Hstd & _).
    rewrite (H p Hp) in Hstd. discriminate Hstd.
Qed.

(** ** Relative imports *)

Lemma startswith_exists (p s : str) :
  Py.startswith p s = true -> exists r, s = p ++ r.
Proof.
  revert s. induction p as [|x p IH]; intros s H.
  - now exists s.
  - destruct s as [|y s]; [discriminate H|]. cbn [Py.startswith] in H.
    apply andb_true_iff in H. destruct H as [E H].
    apply Ascii.eqb_eq in E. subst y.
    destruct (IH _ H) as (r & ->). now exists r.
Qed.

Lemma rstrip_cons_nonspace (c : ascii) (s : str) :
  Py.isspace c = false -> exists t, Py.rstrip (c :: s) = c :: t.
Proof.
  intro Hc. destruct (rstrip_split (c :: s)) as (w & E & Hw).
  destruct (Py.rstrip (c :: s)) as [|c' t].
  - cbn [app] in E. subst w. cbn [forallb] in Hw. rewrite Hc in Hw.
    discriminate Hw.
  - injection E as -> _. now exists t.
Qed.

Lemma strip_cons_nonspace (c : ascii) (s : str) :
  Py.isspace c = false -> exists t, Py.strip (c :: s) = c :: t.
Proof.
  intro Hc. unfold Py.strip, Py.lstrip. cbn [Py.dropwhile]. rewrite Hc.
  now apply rstrip_cons_nonspace.
Qed.

Lemma split_first_cons (sep : str) (c : ascii) (s : str) :
  Py.startswith sep (c :: s) = false ->
  exists h, item0 (Py.split sep (c :: s)) = c :: h.
Proof.
  intro H. unfold item0, Py.split. cbn [Py.split_aux]. rewrite H.
  destruct (Py.split_aux sep s 0) as [|h t]; cbn [nth]; eauto.
Qed.

Lemma item1_from (x : str) :
  item1 (Py.split (lit "from ") (lit "from " ++ x))
  = item0 (Py.split (lit "from ") x).
Proof. reflexivity. Qed.

Lemma relative_import_package (x : str) :
  line_packages (lit "from ." ++ x) = [[]].
Proof.
  unfold line_packages.
  change (Py.startswith (lit "import ") (lit "from ." ++ x)) with false.
  cbv iota.
  change (lit "from ." ++ x) with (lit "from " ++ "."%char :: x).
  rewrite item1_from.
  destruct (@split_first_cons (lit "from ") "."%char x eq_refl) as (h & ->).
  destruct (@split_first_cons (lit " import") "."%char h eq_refl) as (h' & ->).
  destruct (@strip_cons_nonspace "."%char h' eq_refl) as (t & ->).
  reflexivity.
Qed.

(** X19. A relative import ([from .module import name]) is not taken for
    a local module: it makes [generate_requirements_file] list the empty
    name. *)
Theorem requirements_relative_import (code line : str) :
  In line (Py.lines code) ->
  Py.startswith (lit "from .") (Py.strip line) = true ->
  Py.contains (lit " import ") (Py.strip line) = true ->
  In [] (requirements code).
Proof.
  intros Hl Hfrom Himp. apply requirements_In. exists []. repeat split.
  unfold packages. cbv zeta. apply fold_set_add_In. right.
  apply in_flat_map. exists (Py.strip line). split.
  - apply filter_In. split; [now apply in_map|].
    unfold is_import_stmt. rewrite Himp.
    destruct (startswith_exists _ _ Hfrom) as (r & ->).
    apply orb_true_iff. right. reflexivity.
  - destruct (startswith_exists _ _ Hfrom) as (r & ->).
    rewrite relative_import_package. now left.
Qed.

Lemma requirements_relative_import_witness :
  In [] (requirements mixed_imports).
Proof.
  apply (@requirements_relative_import mixed_imports
           (lit "from .models import User")).
  - vm_compute. tauto.
  - vm_compute. reflexivity.
  - vm_compute. reflexivity.
Defined.


(** ** Indented lines *)

Lemma indented_re_eq : indented_re = Cat (Alt Bos (chr nl)) line_re.
Proof. reflexivity. Qed.

Lemma forallb_dot (l : str) :
  ~ In nl l -> forallb (fun c => negb (Ascii.eqb c nl)) l = true.
Proof.
  induction l as [|c l IH]; intro H; [reflexivity|].
  cbn [forallb]. rewrite IH by (intro; apply H; now right).
  rewrite andb_true_r. apply negb_true_iff, Ascii.eqb_neq.
  intro; subst. apply H. now left.
Qed.

(** The pattern after [(?:^|\n)] on an indented line; [tail] is empty or
    starts with the newline that ends the line. *)
Lemma run_line (l tail : str) (q : nat) (c : caps) (k : kont)
  (x : nat * caps) :
  one_line l ->
  match tail with [] => True | b :: _ => b = nl end ->
  k (q + 4 + length l + length (firstn 1 tail)) (tl tail)
    ((2, (q + 4, q + 4 + length l)) :: (1, (q, q + 4)) :: c) = Some x ->
  run line_re q (lit "    " ++ l ++ tail) c k = Some x.
Proof.
  intros [Hne Hnl] Htail Hk. unfold line_re. cbn [seq run].
  unfold txt. rewrite run_text, startswith_app, skipn_app_exact.
  change (length (lit "    ")) with 4.
  rewrite (@run_plus_sym (fun a => negb (Ascii.eqb a nl)) _ x l tail);
    [reflexivity|exact Hne|now apply forallb_dot| |].
  - destruct tail as [|b tail]; [exact I|]. subst b.
    now rewrite Ascii.eqb_refl.
  - destruct tail as [|b tail].
    + cbn [run chr firstn length tl] in *.
      now rewrite Nat.add_0_r in Hk.
    + subst b. cbn [run chr firstn length tl] in *.
      rewrite Ascii.eqb_refl.
      replace (S (q + 4 + length l)) with (q + 4 + length l + 1) by lia.
      now rewrite Hk.
Qed.

Lemma run_line_at_newline (s : str) (q : nat) (c : caps) (k : kont) :
  run line_re q (nl :: s) c k = None.
Proof.
  unfold line_re. cbn [seq run]. unfold txt. rewrite run_text.
  reflexivity.
Qed.

Lemma match_at_first_line (l tail : str) :
  one_line l ->
  match tail with [] => True | b :: _ => b = nl end ->
  match_at indented_re false 0 (lit "    " ++ l ++ tail)
  = Some (0, 4 + length l + length (firstn 1 tail), line_caps 0 l).
Proof.
  intros Hl Htail. unfold match_at. rewrite indented_re_eq. cbn [run Nat.eqb].
  rewrite (@run_line l tail 0 [] _
             (4 + length l + length (firstn 1 tail), line_caps 0 l));
    [reflexivity|exact Hl|exact Htail|reflexivity].
Qed.

Lemma match_at_next_line (l tail : str) (q : nat) :
  one_line l ->
  match tail with [] => True | b :: _ => b = nl end ->
  match_at indented_re false q (nl :: lit "    " ++ l ++ tail)
  = Some (q, S q + 4 + length l + length (firstn 1 tail), line_caps (S q) l).
Proof.
  intros Hl Htail. unfold match_at. rewrite indented_re_eq. cbn [run chr].
  rewrite run_line_at_newline.
  replace (if q =? 0 then None else None) with (@None (nat * caps))
    by (destruct (q =? 0); reflexivity).
  rewrite Ascii.eqb_refl.
  rewrite (@run_line l tail (S q) [] _
             (S q + 4 + length l + length (firstn 1 tail), line_caps (S q) l));
    [reflexivity|exact Hl|exact Htail|reflexivity].
Qed.

Lemma match_at_inside_line (s : str) (q : nat) (adv : bool) :
  q <> 0 ->
  match s with [] => True | b :: _ => b <> nl end ->
  match_at indented_re adv q s = None.
Proof.
  intros Hq Hs. unfold match_at. rewrite indented_re_eq. cbn [run chr].
  replace (q =? 0) with false by (symmetry; now apply Nat.eqb_neq).
  destruct s as [|b s]; [reflexivity|].
  replace (Ascii.eqb nl b) with false; [reflexivity|].
  symmetry. apply Ascii.eqb_neq. congruence.
Qed.

(** After the first match the search passes a line without newline. *)
Lemma search_from_inside_line (u s : str) :
  ~ In nl u ->
  forall q, q <> 0 ->
    search_from indented_re false q (u ++ s)
    = search_from indented_re false (q + length u) s.
Proof.
  induction u as [|a u IH]; intros Hu q Hq.
  - cbn [app length]. now rewrite Nat.add_0_r.
  - cbn [app search_from].
    rewrite match_at_inside_line;
      [|exact Hq|intro; subst; apply Hu; now left].
    rewrite IH; [|intro; apply Hu; now right|lia].
    cbn [length]. now rewrite Nat.add_succ_r.
Qed.

Lemma indented_lines_cons (l : str) (ls : list str) :
  indented_lines (l :: ls)
  = lit "    " ++ l
      ++ match ls with [] => [] | _ :: _ => nl :: indented_lines ls end.
Proof.
  unfold indented_lines. destruct ls as [|l' ls].
  - cbn [map Py.unlines Py.join]. now rewrite app_nil_r.
  - cbn [map]. rewrite unlines_cons by discriminate.
    now rewrite <- app_assoc.
Qed.

Lemma tail_shape (ls : list str) :
  match (match ls with [] => [] | _ :: _ => nl :: indented_lines ls end) with
  | [] => True
  | b :: _ => b = nl
  end.
Proof. destruct ls; [exact I|reflexivity]. Qed.

Lemma tail_rest (ls : list str) :
  tl (match ls with [] => [] | _ :: _ => nl :: indented_lines ls end)
  = indented_lines ls.
Proof. destruct ls; reflexivity. Qed.

Lemma no_nl_indent (l : str) : ~ In nl l -> ~ In nl (lit "    " ++ l).
Proof.
  intros H Hin. apply in_app_or in Hin. destruct Hin as [Hin|Hin]; [|auto].
  cbn in Hin. intuition discriminate.
Qed.

Lemma group2_line (subject : str) (q e : nat) (l : str) :
  group subject (q, e, line_caps (S q) l) 2
  = slice subject (S q + 4) (S q + 4 + length l).
Proof. reflexivity. Qed.

(** One step of the iteration after the first match: the line [l2] is
    passed, the line [l3] is matched together with the newline before
    it. *)
Lemma finditer_after_step (fuel : nat) (pre l2 l3 tail : str) :
  pre <> [] -> one_line l2 -> one_line l3 ->
  match tail with [] => True | b :: _ => b = nl end ->
  exists m,
    finditer_from (S fuel) indented_re false (length pre)
      (lit "    " ++ l2 ++ nl :: lit "    " ++ l3 ++ tail)
    = m :: finditer_from fuel indented_re false
             (length (pre ++ lit "    " ++ l2 ++ nl :: lit "    " ++ l3
                        ++ firstn 1 tail))
             (tl tail)
    /\ group (pre ++ lit "    " ++ l2 ++ nl :: lit "    " ++ l3 ++ tail) m 2
       = l3.
Proof.
  intros Hpre [Hne2 Hnl2] Hl3 Htail.
  set (q := length pre + length (lit "    " ++ l2)).
  exists (q, S q + 4 + length l3 + length (firstn 1 tail), line_caps (S q) l3).
  assert (Hq : length pre <> 0) by (destruct pre; [congruence|discriminate]).
  split.
  - cbn [finditer_from].
    rewrite (app_assoc (lit "    ") l2).
    rewrite search_from_inside_line by (try apply no_nl_indent; assumption).
    fold q.
    rewrite (@search_from_hit _ _ _ _ (@match_at_next_line l3 tail q Hl3 Htail)).
    cbn [mend mstart fst snd].
    replace (S q + 4 + length l3 + length (firstn 1 tail) =? q) with false
      by (symmetry; apply Nat.eqb_neq; lia).
    f_equal. f_equal.
    + subst q. len.
    + set (u := lit "    " ++ l2).
      destruct tail as [|b tail]; cbn [firstn tl length].
      * apply skipn_all2. subst q u. len.
      * replace (u ++ nl :: lit "    " ++ l3 ++ b :: tail)
          with ((u ++ nl :: lit "    " ++ l3 ++ [b]) ++ tail)
          by (rewrite <- !app_assoc; cbn [app]; now rewrite <- !app_assoc).
        replace (S q + 4 + length l3 + 1 - length pre)
          with (length (u ++ nl :: lit "    " ++ l3 ++ [b]))
          by (subst q u; len).
        apply skipn_app_exact.
  - rewrite group2_line.
    replace (pre ++ lit "    " ++ l2 ++ nl :: lit "    " ++ l3 ++ tail)
      with ((pre ++ lit "    " ++ l2 ++ nl :: lit "    ") ++ l3 ++ tail).
    + replace (S q + 4) with (length (pre ++ lit "    " ++ l2 ++ nl :: lit "    ")).
      * apply slice_middle.
      * subst q. len.
    + rewrite <- !app_assoc. cbn [app]. reflexivity.
Qed.

Lemma finditer_first_step (fuel : nat) (l tail : str) :
  one_line l ->
  match tail with [] => True | b :: _ => b = nl end ->
  exists m,
    finditer_from (S fuel) indented_re false 0 (lit "    " ++ l ++ tail)
    = m :: finditer_from fuel indented_re false
             (length (lit "    " ++ l ++ firstn 1 tail)) (tl tail)
    /\ group (lit "    " ++ l ++ tail) m 2 = l.
Proof.
  intros Hl Htail.
  exists (0, 4 + length l + length (firstn 1 tail), line_caps 0 l).
  split.
  - cbn [finditer_from].
    rewrite (@search_from_hit _ _ _ _ (@match_at_first_line l tail Hl Htail)).
    cbn [mend mstart fst snd].
    replace (4 + length l + length (firstn 1 tail) =? 0) with false
      by (symmetry; apply Nat.eqb_neq; lia).
    f_equal. f_equal; [len|].
    rewrite Nat.sub_0_r.
    destruct tail as [|b tail]; cbn [firstn tl length].
    + apply skipn_all2. len.
    + replace (lit "    " ++ l ++ b :: tail)
        with ((lit "    " ++ l ++ [b]) ++ tail)
        by (now rewrite <- !app_assoc).
      replace (4 + length l + 1) with (length (lit "    " ++ l ++ [b]))
        by len.
      apply skipn_app_exact.
  - change (group (lit "    " ++ l ++ tail)
              (0, 4 + length l + length (firstn 1 tail), line_caps 0 l) 2)
      with (slice (lit "    " ++ l ++ tail) (length (lit "    "))
              (length (lit "    ") + length l)).
    apply slice_middle.
Qed.

Lemma every_other_tl {A : Type} (l : list A) :
  match l with [] => [] | _ :: l' => every_other l' end = every_other (tl l).
Proof. destruct l; reflexivity. Qed.

Lemma tail_split (ls : list str) :
  match ls with [] => [] | _ :: _ => nl :: indented_lines ls end
  = firstn 1 (match ls with [] => [] | _ :: _ => nl :: indented_lines ls end)
      ++ indented_lines ls.
Proof. destruct ls; reflexivity. Qed.

Lemma finditer_after (fuel : nat) :
  forall ls pre,
    pre <> [] -> Forall one_line ls -> length ls <= fuel ->
    map (fun m => group (pre ++ indented_lines ls) m 2)
        (finditer_from fuel indented_re false (length pre) (indented_lines ls))
    = every_other (tl ls).
Proof.
  induction fuel as [|fuel IH]; intros ls pre Hpre Hls Hlen.
  - destruct ls; [reflexivity|cbn in Hlen; lia].
  - assert (Hq : length pre <> 0) by (destruct pre; [congruence|discriminate]).
    destruct ls as [|l2 [|l3 rest]].
    + cbn [finditer_from indented_lines map Py.unlines Py.join search_from].
      now rewrite match_at_inside_line.
    + cbn [tl every_other]. rewrite indented_lines_cons.
      cbn [finditer_from]. rewrite (app_assoc (lit "    ") l2 []).
      inversion Hls as [|? ? [_ Hnl] _]; subst.
      rewrite search_from_inside_line by (try apply no_nl_indent; assumption).
      cbn [search_from]. now rewrite match_at_inside_line by (try exact I; lia).
    + inversion Hls as [|? ? H2 Hls']; subst.
      inversion Hls' as [|? ? H3 Hrest]; subst.
      rewrite (indented_lines_cons l2), (indented_lines_cons l3).
      set (tail := match rest with [] => [] | _ :: _ => nl :: indented_lines rest end).
      destruct (@finditer_after_step fuel pre l2 l3 tail Hpre H2 H3
                  (tail_shape rest)) as (m & E & G).
      rewrite E. cbn [map]. rewrite G. cbn [tl every_other]. f_equal.
      rewrite every_other_tl.
      assert (Etl : tl tail = indented_lines rest)
        by (subst tail; apply tail_rest).
      rewrite Etl.
      assert (Esub : pre ++ lit "    " ++ l2 ++ nl :: lit "    " ++ l3 ++ tail
                     = (pre ++ lit "    " ++ l2 ++ nl :: lit "    " ++ l3
                          ++ firstn 1 tail) ++ indented_lines rest).
      { subst tail. rewrite (tail_split rest) at 1.
        rewrite <- !app_assoc. cbn [app]. now rewrite <- !app_assoc. }
      rewrite Esub. apply IH.
      * destruct pre; [congruence|discriminate].
      * exact Hrest.
      * cbn [length] in Hlen. lia.
Qed.

Lemma indented_lines_length (ls : list str) :
  length ls <= length (indented_lines ls).
Proof.
  induction ls as [|l ls IH]; [cbn; lia|].
  rewrite indented_lines_cons. destruct ls as [|l' ls]; [len|].
  revert IH. len.
Qed.

(** X4. On a text made of lines that are indented by four spaces, one
    directly after the other, [extract_code_blocks] with cleaning disabled
    returns the first, the third, the fifth ... line only: a match of the
    indented-line pattern takes the newline at its end, and the next match
    needs a newline before its line. *)
Theorem extract_indented_lines (ls : list str) :
  ls <> [] -> Forall one_line ls ->
  Py.contains fence (indented_lines ls) = false ->
  extract_code_blocks (indented_lines ls) false = Py.unlines (every_other ls).
Proof.
  intros Hne Hls Hf. unfold extract_code_blocks, findall1, findall2.
  rewrite (@finditer_none fence_re (indented_lines ls))
    by (apply search_from_fence_none; assumption).
  cbn [map nonempty]. unfold finditer.
  pose proof (indented_lines_length ls) as Hlen.
  replace (2 * length (indented_lines ls) + 2)
    with (S (2 * length (indented_lines ls) + 1)) by lia.
  destruct ls as [|l rest]; [congruence|].
  inversion Hls as [|? ? Hl Hrest]; subst.
  set (fuel := 2 * length (indented_lines (l :: rest)) + 1) in *.
  rewrite (indented_lines_cons l rest).
  set (tail := match rest with [] => [] | _ :: _ => nl :: indented_lines rest end).
  destruct (@finditer_first_step fuel l tail Hl (tail_shape rest))
    as (m & E & G).
  rewrite E. cbn [map nonempty snd]. rewrite G, map_map. cbn [snd].
  subst tail. rewrite tail_rest.
  replace (lit "    " ++ l ++ match rest with
                              | [] => []
                              | _ :: _ => nl :: indented_lines rest
                              end)
    with ((lit "    " ++ l
             ++ firstn 1 (match rest with
                          | [] => []
                          | _ :: _ => nl :: indented_lines rest
                          end)) ++ indented_lines rest)
    by (rewrite (tail_split rest) at 2; now rewrite <- !app_assoc).
  rewrite finditer_after;
    [|discriminate|exact Hrest|cbn [length] in Hlen; subst fuel; lia].
  cbn [every_other]. now rewrite every_other_tl.
Qed.

Lemma extract_indented_lines_witness :
  extract_code_blocks four_indented_lines false
  = Py.unlines (every_other [lit "a = 1"; lit "b = 2"; lit "c = 3"; lit "d = 4"]).
Proof.
  apply extract_indented_lines.
  - discriminate.
  - repeat constructor; try discriminate; vm_compute; intuition discriminate.
  - vm_compute. reflexivity.
Defined.


(** ** The constructor collapse only deletes lines *)

Lemma subseq_refl {A : Type} (l : list A) : subseq l l.
Proof. induction l; constructor; assumption. Qed.

Lemma subseq_trans {A : Type} (a b c : list A) :
  subseq a b -> subseq b c -> subseq a c.
Proof.
  intros Hab Hbc. revert a Hab.
  induction Hbc as [|x b c _ IH|x b c _ IH]; intros a Hab.
  - exact Hab.
  - apply subseq_skip. now apply IH.
  - inversion Hab; subst.
    + apply subseq_skip. now apply IH.
    + apply subseq_take. now apply IH.
Qed.

Lemma subseq_app {A : Type} (a a' b b' : list A) :
  subseq a a' -> subseq b b' -> subseq (a ++ b) (a' ++ b').
Proof.
  intros Ha Hb. induction Ha; cbn [app]; [exact Hb| |];
    constructor; assumption.
Qed.

Lemma subseq_skipn {A : Type} (n : nat) (l : list A) : subseq (skipn n l) l.
Proof.
  revert n. induction l as [|x l IH]; intros [|n]; cbn [skipn].
  - constructor.
  - constructor.
  - apply subseq_refl.
  - apply subseq_skip, IH.
Qed.

Lemma cut_subseq (lines : list str) (x : init_span) :
  span_start x <= span_stop x -> subseq (cut lines x) lines.
Proof.
  intro H. unfold cut.
  rewrite <- (firstn_skipn (span_start x) lines) at 3.
  apply subseq_app; [apply subseq_refl|].
  replace (span_stop x) with ((span_stop x - span_start x) + span_start x)
    by lia.
  rewrite <- skipn_skipn. apply subseq_skipn.
Qed.

Lemma fold_cut_subseq (spans : list init_span) :
  Forall (fun x => span_start x <= span_stop x) spans ->
  forall lines, subseq (fold_left cut spans lines) lines.
Proof.
  induction 1 as [|x spans Hx _ IH]; intro lines; cbn [fold_left].
  - apply subseq_refl.
  - eapply subseq_trans; [apply IH|now apply cut_subseq].
Qed.

Lemma insert_desc_Forall (P : init_span -> Prop) (x : init_span)
  (l : list init_span) :
  P x -> Forall P l -> Forall P (insert_desc x l).
Proof.
  intros Hx Hl. induction Hl as [|y l Hy Hl IH]; cbn [insert_desc].
  - now constructor.
  - destruct (span_start y <? span_start x); repeat constructor; assumption.
Qed.

Lemma sort_desc_Forall (P : init_span -> Prop) (l : list init_span) :
  Forall P l -> Forall P (sort_desc l).
Proof.
  unfold sort_desc. intro H.
  assert (G : forall acc, Forall P acc ->
            Forall P (fold_left (fun acc x => insert_desc x acc) l acc)).
  { induction H as [|x l Hx _ IH]; intros acc Hacc; cbn [fold_left].
    - exact Hacc.
    - apply IH. now apply insert_desc_Forall. }
  apply G. constructor.
Qed.

Lemma collapse_step_subseq (lines : list str) (entry : str * list init_span) :
  Forall (fun x => span_start x <= span_stop x) (snd entry) ->
  subseq (collapse_step lines entry) lines.
Proof.
  intro H. unfold collapse_step.
  destruct (snd entry) as [|first [|second others]] eqn:E;
    try apply subseq_refl.
  apply fold_cut_subseq, sort_desc_Forall, Forall_filter. exact H.
Qed.

Lemma fold_collapse_subseq (d : dict (list init_span)) :
  Forall (fun e => Forall (fun x => span_start x <= span_stop x) (snd e)) d ->
  forall lines, subseq (fold_left collapse_step d lines) lines.
Proof.
  induction 1 as [|e d He _ IH]; intro lines; cbn [fold_left].
  - apply subseq_refl.
  - eapply subseq_trans; [apply IH|now apply collapse_step_subseq].
Qed.

(** X12. [fix_duplicate_init_methods] only deletes lines: its result is
    made of lines of its input, in their order. *)
Theorem fix_duplicate_init_methods_deletes_lines (code : str) :
  exists kept_lines,
    fix_duplicate_init_methods code = Py.unlines kept_lines
    /\ subseq kept_lines (Py.lines code).
Proof.
  exists (fold_left collapse_step (find_inits (Py.lines code)) (Py.lines code)).
  split; [reflexivity|].
  apply fold_collapse_subseq. apply Forall_forall. intros [c l] Hin.
  destruct (find_inits_spans _ _ _ Hin) as [_ H]. cbn [snd].
  eapply Forall_impl; [|exact H]. cbn beta. intros x [Hx _]. lia.
Qed.

(** ** The lines of the reorderer's result *)

(** X6. No line of the result of [reorder_code] ends with white
    space. *)
Theorem reorder_code_lines_stripped (code l : str) :
  In l (Py.lines (reorder_code code)) -> Py.rstrip l = l.
Proof.
  unfold reorder_code. cbv zeta.
  set (cleaned := map Py.rstrip _).
  assert (Hc : forall x, In x cleaned -> Py.rstrip x = x).
  { intros x Hx. subst cleaned. apply in_map_iff in Hx.
    destruct Hx as (y & <- & _). apply rstrip_idem. }
  destruct cleaned as [|l0 ls] eqn:E.
  - cbn. intros [<-|[]]. reflexivity.
  - rewrite <- E in *.
    destruct (@final_newline_lines cleaned) as [H|[H _]].
    + rewrite E. discriminate.
    + subst cleaned. apply reorder_code_cleaned_no_nl.
    + rewrite H. apply Hc.
    + rewrite H. intro Hin. apply in_app_or in Hin.
      destruct Hin as [Hin|[<-|[]]]; [now apply Hc|reflexivity].
Qed.

Lemma reorder_code_lines_stripped_witness :
  Py.rstrip (lit "x = 1") = lit "x = 1".
Proof.
  apply (@reorder_code_lines_stripped indented_statement).
  vm_compute. tauto.
Defined.

Lemma generate_requirements_file_none_witness :
  generate_requirements_file std_lib_imports_only = None.
Proof.
  apply (proj2 (generate_requirements_file_none std_lib_imports_only)).
  assert (E : packages std_lib_imports_only = [lit "os"; lit "collections"])
    by (vm_compute; reflexivity).
  rewrite E. intros p [<-|[<-|[]]]; vm_compute; reflexivity.
Defined.

(** [re.sub] with a replacement without backslash. *)
Lemma sub_literal_spec (r : regex) (groups : nat) (repl s : str) :
  ~ In backslash repl ->
  Template.sub r groups repl s = Ok (sub_literal r repl s).
Proof. intro H. now apply sub_plain. Qed.


(** ** The characters of the processed text *)

Lemma final_lines_origin (ls : list str) (y : str) :
  In y (final_lines (ordered_blocks (group_blocks (logical_blocks ls)))) ->
  Py.blank y = false -> In y ls.
Proof.
  intros Hy Eb. pose proof (In_filter_code _ _ Hy Eb) as H.
  rewrite final_lines_code in H.
  apply (Permutation_in _ (filter_perm code_line (ordered_blocks_perm _))) in H.
  rewrite logical_blocks_lines in H.
  apply filter_In in H. apply H.
Qed.

Lemma In_unlines (c : ascii) (ls : list str) :
  In c (Py.unlines ls) -> c = nl \/ exists l, In l ls /\ In c l.
Proof.
  unfold Py.unlines. intro H. apply In_join in H.
  destruct H as [[H|[]]|H]; [left; now symmetry|now right].
Qed.

Lemma In_reorder_code (c : ascii) (code : str) :
  In c (reorder_code code) -> c = nl \/ In c code.
Proof.
  unfold reorder_code, ensure_final_newline. cbv zeta.
  set (cleaned := map Py.rstrip _).
  assert (H : In c (Py.unlines cleaned) -> c = nl \/ In c code).
  { intro H. apply In_unlines in H. destruct H as [H|(x & Hx & Hc)]; [now left|].
    right. subst cleaned. apply in_map_iff in Hx. destruct Hx as (y & <- & Hy).
    destruct (Py.blank y) eqn:Eb.
    - rewrite blank_rstrip_nil in Hc by exact Eb. destruct Hc.
    - apply rstrip_incl in Hc.
      eapply In_lines; [|exact Hc]. now apply final_lines_origin. }
  destruct (_ && _); [|exact H].
  intro Hin. apply in_app_or in Hin.
  destruct Hin as [Hin|[<-|[]]]; [now apply H|now left].
Qed.

Lemma In_move_imports_to_top (c : ascii) (code : str) :
  In c (move_imports_to_top code) -> c = nl \/ In c code.
Proof.
  rewrite <- (unlines_lines (move_imports_to_top code)).
  destruct (move_imports_to_top_lines code) as (sep & Hsep & E).
  rewrite E. intro H. apply In_unlines in H.
  destruct H as [H|(l & Hl & Hc)]; [now left|]. right.
  repeat (apply in_app_or in Hl; destruct Hl as [Hl|Hl]);
    try (apply filter_In in Hl; destruct Hl as [Hl _];
         eapply In_lines; eassumption).
  destruct Hsep as [-> | ->]; [destruct Hl|].
  destruct Hl as [<-|[]]. destruct Hc.
Qed.

Lemma In_clean_code_for_execution (c : ascii) (code : str) :
  In c (clean_code_for_execution code) -> c = nl \/ In c code.
Proof.
  unfold clean_code_for_execution. cbv zeta. intro H.
  apply In_move_imports_to_top in H. destruct H as [H|H]; [now left|].
  apply In_reorder_code in H. destruct H as [H|H]; [now left|].
  apply In_unlines in H. destruct H as [H|(l & Hl & Hc)]; [now left|].
  right. apply filter_In in Hl. destruct Hl as [Hl _].
  eapply In_lines; eassumption.
Qed.

Lemma insert_pos_In (x y : nat * str) (l : list (nat * str)) :
  In x (insert_pos y l) -> x = y \/ In x l.
Proof.
  induction l as [|z l IH]; cbn [insert_pos In]; [intuition|].
  destruct (pos_leb z y); cbn [In]; intuition.
Qed.

Lemma sort_pos_In (x : nat * str) (l : list (nat * str)) :
  In x (sort_pos l) -> In x l.
Proof.
  unfold sort_pos.
  assert (G : forall acc, In x (fold_left (fun acc y => insert_pos y acc) l acc)
                          -> In x acc \/ In x l).
  { induction l as [|y l IH]; intros acc H; cbn [fold_left] in H; [now left|].
    apply IH in H. destruct H as [H|H]; [|right; now right].
    apply insert_pos_In in H. destruct H as [-> |H]; [right; now left|now left]. }
  intro H. apply G in H. destruct H as [[]|H]. exact H.
Qed.

Lemma In_extract_python_like_code (c : ascii) (text code : str) :
  extract_python_like_code text = Some code -> In c code ->
  c = nl \/ In c text.
Proof.
  unfold extract_python_like_code.
  destruct (nonempty _); [|discriminate].
  intros H Hc. injection H as <-. apply In_join in Hc.
  destruct Hc as [Hc|(frag & Hf & Hc)].
  - left. cbn in Hc. intuition.
  - right. apply in_map_iff in Hf. destruct Hf as ([p f] & <- & Hf).
    apply sort_pos_In in Hf. apply in_flat_map in Hf.
    destruct Hf as (frag & Hfrag & Hf).
    destruct (Py.find frag text); [|destruct Hf].
    destruct Hf as [Hf|[]]. injection Hf as _ <-. cbn [snd] in Hc.
    assert (Hg : exists m, group text m 0 = frag).
    { repeat (apply in_app_or in Hfrag; destruct Hfrag as [Hfrag|Hfrag]);
        try (unfold findall0 in Hfrag; apply in_map_iff in Hfrag;
             destruct Hfrag as (m & Hm & _); now exists m).
      destruct Hfrag. }
    destruct Hg as (m & <-). eapply In_group, Hc.
Qed.

Lemma In_extract_code_blocks (c : ascii) (text : str) (clean_output : bool) :
  In c (extract_code_blocks text clean_output) -> c = nl \/ In c text.
Proof.
  assert (Hclean : forall code,
            (forall a, In a code -> a = nl \/ In a text) ->
            In c (if clean_output then clean_code_for_execution code else code) ->
            c = nl \/ In c text).
  { intros code Hcode H. destruct clean_output; [|now apply Hcode].
    apply In_clean_code_for_execution in H.
    destruct H as [H|H]; [now left|now apply Hcode]. }
  unfold extract_code_blocks. destruct (nonempty (findall1 fence_re text)).
  { apply Hclean. intros a Ha. apply In_join in Ha.
    destruct Ha as [Ha|(l & Hl & Ha)]; [left; cbn in Ha; intuition|].
    right. unfold findall1 in Hl. apply in_map_iff in Hl.
    destruct Hl as (m & <- & _). eapply In_group, Ha. }
  destruct (nonempty (findall2 indented_re text)).
  { apply Hclean. intros a Ha. apply In_unlines in Ha.
    destruct Ha as [Ha|(l & Hl & Ha)]; [now left|].
    right. apply in_map_iff in Hl. destruct Hl as (pair & Hsnd & Hl).
    unfold findall2 in Hl. apply in_map_iff in Hl.
    destruct Hl as (m & Hm & _). rewrite <- Hm in Hsnd. cbn [snd] in Hsnd.
    subst l. eapply In_group, Ha. }
  destruct clean_output; [|now right].
  destruct (extract_python_like_code text) as [maybe_code|] eqn:E;
    [destruct (nonempty maybe_code)|];
    intro H; apply In_clean_code_for_execution in H;
    destruct H as [H|H]; try (now left); try (now right).
  exact (@In_extract_python_like_code c text maybe_code E H).
Qed.

(** X13. The processing of a completion in [main] (block extraction,
    cleaning, conflict resolution, whatever the options) ends normally on
    every completion without backslash: none of the stages adds a
    backslash, so the resolver gets a text on which it cannot raise. *)
Theorem process_plain_ok (code_only clean attempt_fix : bool)
  (completion : str) :
  ~ In backslash completion ->
  exists out, process code_only clean attempt_fix completion = Ok out.
Proof.
  intro Hc. unfold process. cbv zeta.
  set (to_copy := if code_only then _ else _).
  destruct attempt_fix; [|eauto].
  assert (Hcopy : ~ In backslash to_copy).
  { subst to_copy. intro H.
    assert (H' : backslash = nl \/ In backslash completion).
    { destruct code_only; [now apply In_extract_code_blocks in H|].
      destruct clean; [now apply In_clean_code_for_execution in H|now right]. }
    destruct H' as [H'|H']; [discriminate H'|auto]. }
  unfold fix_common_code_issues.
  destruct (@fix_incomplete_node_class_ok (first_pass to_copy)) as [out E].
  - intro H. apply In_first_pass in H.
    destruct H as [H|H]; [discriminate H|auto].
  - rewrite E. cbn [bind]. eauto.
Qed.

Lemma process_plain_ok_witness :
  exists out, process true true true foo_completion = Ok out.
Proof.
  apply process_plain_ok. apply plain_dec. vm_compute. reflexivity.
Defined.
